(** * webchanges.handler: job execution state and report filtering

    A shallow embedding of [src/webchanges/handler.py].  Python objects live
    in a heap addressed by location, so that identity ([is]) and aliasing of
    dictionaries and lists are visible; methods are computations in a state
    and exception monad over the interpreter state [World]. *)

From Stdlib Require Import ZArith QArith String List Bool Lia.
From Stdlib Require Import Strings.Byte.
From stdpp Require Import base option list strings gmap.

Local Open Scope Z_scope.
Local Open Scope string_scope.

(** ** Values *)

(** Instances of Python's [Exception]; [isinstance] looks at the class. *)
Inductive ExceptionClass :=
| NotModifiedError
| CalledProcessError
| FileNotFoundError
| AttributeError
| KeyError
| OtherException (name : string).

Record Exception := { exc_class : ExceptionClass; exc_args : string }.

Definition isinstance_NotModifiedError (e : Exception) : bool :=
  match exc_class e with NotModifiedError => true | _ => false end.

(** [str | bytes] *)
Inductive Data :=
| Str (s : string)
| Bytes (b : list byte).

#[global] Instance byte_eq_decision : EqDecision byte := Byte.byte_eq_dec.

#[global] Instance Data_eq_decision : EqDecision Data.
Proof. solve_decision. Defined.

(** [bool | str], the type of [error_ignored]. *)
Inductive BoolOrStr :=
| IsBool (b : bool)
| IsStr (s : string).

(** Python truth value testing. *)
Definition truthy_str (s : string) : bool :=
  match s with EmptyString => false | _ => true end.

Definition truthy_Data (d : Data) : bool :=
  match d with
  | Str s => truthy_str s
  | Bytes [] => false
  | Bytes _ => true
  end.

Definition truthy_BoolOrStr (v : BoolOrStr) : bool :=
  match v with IsBool b => b | IsStr s => truthy_str s end.

Definition truthy_option {A} (o : option A) : bool :=
  match o with Some _ => true | None => false end.

(** [class Snapshot(NamedTuple)].  Timestamps are floats in the source; they
    are only stored and copied, and are rationals here. *)
Record Snapshot := {
  data : Data;
  timestamp : Q;
  snap_tries : Z;
  etag : string;
  mime_type : string
}.

(** Addresses of objects. *)
Abbreviation loc := nat.
Definition SsdbStorage := string.
Definition ZoneInfo := string.
Definition Directives := list (string * string).

(** The attributes of a job that the handler reads. *)
Record Job := {
  index_number : Z;
  compared_versions : option Z;
  job_filter : Directives;
  job_diff_filter : Directives;
  job_differ : option Directives;
  is_markdown : bool
}.

(** [class JobState]: the attributes of an instance.  An attribute that an
    instance may lack (no class-level default, or a class-level container)
    is an option. *)
Record JobState := {
  snapshots_db : SsdbStorage;
  job : Job;
  _http_client_used : option string;
  error_ignored : option BoolOrStr;
  exception : option Exception;
  generated_diff : option loc;
  history_dic_snapshots : option loc;
  new_data : option Data;
  new_etag : option string;
  new_mime_type : string;
  new_timestamp : option Q;
  old_snapshot : Snapshot;
  old_data : Data;
  old_etag : string;
  old_mime_type : string;
  old_timestamp : Q;
  traceback : option string;
  tries : Z;
  unfiltered_diff : option loc;
  verb : option string
}.

(** Attribute assignment, one function per attribute that is assigned. *)
Definition set_error_ignored (v : option BoolOrStr) (s : JobState) : JobState :=
  {| snapshots_db := snapshots_db s; job := job s;
     _http_client_used := _http_client_used s; error_ignored := v;
     exception := exception s; generated_diff := generated_diff s;
     history_dic_snapshots := history_dic_snapshots s; new_data := new_data s;
     new_etag := new_etag s; new_mime_type := new_mime_type s;
     new_timestamp := new_timestamp s; old_snapshot := old_snapshot s;
     old_data := old_data s; old_etag := old_etag s; old_mime_type := old_mime_type s;
     old_timestamp := old_timestamp s; traceback := traceback s; tries := tries s;
     unfiltered_diff := unfiltered_diff s; verb := verb s |}.

Definition set_exception (v : option Exception) (s : JobState) : JobState :=
  {| snapshots_db := snapshots_db s; job := job s;
     _http_client_used := _http_client_used s; error_ignored := error_ignored s;
     exception := v; generated_diff := generated_diff s;
     history_dic_snapshots := history_dic_snapshots s; new_data := new_data s;
     new_etag := new_etag s; new_mime_type := new_mime_type s;
     new_timestamp := new_timestamp s; old_snapshot := old_snapshot s;
     old_data := old_data s; old_etag := old_etag s; old_mime_type := old_mime_type s;
     old_timestamp := old_timestamp s; traceback := traceback s; tries := tries s;
     unfiltered_diff := unfiltered_diff s; verb := verb s |}.

Definition set_generated_diff (v : option loc) (s : JobState) : JobState :=
  {| snapshots_db := snapshots_db s; job := job s;
     _http_client_used := _http_client_used s; error_ignored := error_ignored s;
     exception := exception s; generated_diff := v;
     history_dic_snapshots := history_dic_snapshots s; new_data := new_data s;
     new_etag := new_etag s; new_mime_type := new_mime_type s;
     new_timestamp := new_timestamp s; old_snapshot := old_snapshot s;
     old_data := old_data s; old_etag := old_etag s; old_mime_type := old_mime_type s;
     old_timestamp := old_timestamp s; traceback := traceback s; tries := tries s;
     unfiltered_diff := unfiltered_diff s; verb := verb s |}.

Definition set_history_dic_snapshots (v : option loc) (s : JobState) : JobState :=
  {| snapshots_db := snapshots_db s; job := job s;
     _http_client_used := _http_client_used s; error_ignored := error_ignored s;
     exception := exception s; generated_diff := generated_diff s;
     history_dic_snapshots := v; new_data := new_data s; new_etag := new_etag s;
     new_mime_type := new_mime_type s; new_timestamp := new_timestamp s;
     old_snapshot := old_snapshot s; old_data := old_data s; old_etag := old_etag s;
     old_mime_type := old_mime_type s; old_timestamp := old_timestamp s;
     traceback := traceback s; tries := tries s; unfiltered_diff := unfiltered_diff s;
     verb := verb s |}.

Definition set_new_data (v : option Data) (s : JobState) : JobState :=
  {| snapshots_db := snapshots_db s; job := job s;
     _http_client_used := _http_client_used s; error_ignored := error_ignored s;
     exception := exception s; generated_diff := generated_diff s;
     history_dic_snapshots := history_dic_snapshots s; new_data := v;
     new_etag := new_etag s; new_mime_type := new_mime_type s;
     new_timestamp := new_timestamp s; old_snapshot := old_snapshot s;
     old_data := old_data s; old_etag := old_etag s; old_mime_type := old_mime_type s;
     old_timestamp := old_timestamp s; traceback := traceback s; tries := tries s;
     unfiltered_diff := unfiltered_diff s; verb := verb s |}.

Definition set_new_etag (v : option string) (s : JobState) : JobState :=
  {| snapshots_db := snapshots_db s; job := job s;
     _http_client_used := _http_client_used s; error_ignored := error_ignored s;
     exception := exception s; generated_diff := generated_diff s;
     history_dic_snapshots := history_dic_snapshots s; new_data := new_data s;
     new_etag := v; new_mime_type := new_mime_type s; new_timestamp := new_timestamp s;
     old_snapshot := old_snapshot s; old_data := old_data s; old_etag := old_etag s;
     old_mime_type := old_mime_type s; old_timestamp := old_timestamp s;
     traceback := traceback s; tries := tries s; unfiltered_diff := unfiltered_diff s;
     verb := verb s |}.

Definition set_new_mime_type (v : string) (s : JobState) : JobState :=
  {| snapshots_db := snapshots_db s; job := job s;
     _http_client_used := _http_client_used s; error_ignored := error_ignored s;
     exception := exception s; generated_diff := generated_diff s;
     history_dic_snapshots := history_dic_snapshots s; new_data := new_data s;
     new_etag := new_etag s; new_mime_type := v; new_timestamp := new_timestamp s;
     old_snapshot := old_snapshot s; old_data := old_data s; old_etag := old_etag s;
     old_mime_type := old_mime_type s; old_timestamp := old_timestamp s;
     traceback := traceback s; tries := tries s; unfiltered_diff := unfiltered_diff s;
     verb := verb s |}.

Definition set_new_timestamp (v : option Q) (s : JobState) : JobState :=
  {| snapshots_db := snapshots_db s; job := job s;
     _http_client_used := _http_client_used s; error_ignored := error_ignored s;
     exception := exception s; generated_diff := generated_diff s;
     history_dic_snapshots := history_dic_snapshots s; new_data := new_data s;
     new_etag := new_etag s; new_mime_type := new_mime_type s; new_timestamp := v;
     old_snapshot := old_snapshot s; old_data := old_data s; old_etag := old_etag s;
     old_mime_type := old_mime_type s; old_timestamp := old_timestamp s;
     traceback := traceback s; tries := tries s; unfiltered_diff := unfiltered_diff s;
     verb := verb s |}.

Definition set_old_snapshot (v : Snapshot) (s : JobState) : JobState :=
  {| snapshots_db := snapshots_db s; job := job s;
     _http_client_used := _http_client_used s; error_ignored := error_ignored s;
     exception := exception s; generated_diff := generated_diff s;
     history_dic_snapshots := history_dic_snapshots s; new_data := new_data s;
     new_etag := new_etag s; new_mime_type := new_mime_type s;
     new_timestamp := new_timestamp s; old_snapshot := v; old_data := old_data s;
     old_etag := old_etag s; old_mime_type := old_mime_type s;
     old_timestamp := old_timestamp s; traceback := traceback s; tries := tries s;
     unfiltered_diff := unfiltered_diff s; verb := verb s |}.

Definition set_old_data (v : Data) (s : JobState) : JobState :=
  {| snapshots_db := snapshots_db s; job := job s;
     _http_client_used := _http_client_used s; error_ignored := error_ignored s;
     exception := exception s; generated_diff := generated_diff s;
     history_dic_snapshots := history_dic_snapshots s; new_data := new_data s;
     new_etag := new_etag s; new_mime_type := new_mime_type s;
     new_timestamp := new_timestamp s; old_snapshot := old_snapshot s; old_data := v;
     old_etag := old_etag s; old_mime_type := old_mime_type s;
     old_timestamp := old_timestamp s; traceback := traceback s; tries := tries s;
     unfiltered_diff := unfiltered_diff s; verb := verb s |}.

Definition set_old_etag (v : string) (s : JobState) : JobState :=
  {| snapshots_db := snapshots_db s; job := job s;
     _http_client_used := _http_client_used s; error_ignored := error_ignored s;
     exception := exception s; generated_diff := generated_diff s;
     history_dic_snapshots := history_dic_snapshots s; new_data := new_data s;
     new_etag := new_etag s; new_mime_type := new_mime_type s;
     new_timestamp := new_timestamp s; old_snapshot := old_snapshot s;
     old_data := old_data s; old_etag := v; old_mime_type := old_mime_type s;
     old_timestamp := old_timestamp s; traceback := traceback s; tries := tries s;
     unfiltered_diff := unfiltered_diff s; verb := verb s |}.

Definition set_old_mime_type (v : string) (s : JobState) : JobState :=
  {| snapshots_db := snapshots_db s; job := job s;
     _http_client_used := _http_client_used s; error_ignored := error_ignored s;
     exception := exception s; generated_diff := generated_diff s;
     history_dic_snapshots := history_dic_snapshots s; new_data := new_data s;
     new_etag := new_etag s; new_mime_type := new_mime_type s;
     new_timestamp := new_timestamp s; old_snapshot := old_snapshot s;
     old_data := old_data s; old_etag := old_etag s; old_mime_type := v;
     old_timestamp := old_timestamp s; traceback := traceback s; tries := tries s;
     unfiltered_diff := unfiltered_diff s; verb := verb s |}.

Definition set_old_timestamp (v : Q) (s : JobState) : JobState :=
  {| snapshots_db := snapshots_db s; job := job s;
     _http_client_used := _http_client_used s; error_ignored := error_ignored s;
     exception := exception s; generated_diff := generated_diff s;
     history_dic_snapshots := history_dic_snapshots s; new_data := new_data s;
     new_etag := new_etag s; new_mime_type := new_mime_type s;
     new_timestamp := new_timestamp s; old_snapshot := old_snapshot s;
     old_data := old_data s; old_etag := old_etag s; old_mime_type := old_mime_type s;
     old_timestamp := v; traceback := traceback s; tries := tries s;
     unfiltered_diff := unfiltered_diff s; verb := verb s |}.

Definition set_traceback (v : option string) (s : JobState) : JobState :=
  {| snapshots_db := snapshots_db s; job := job s;
     _http_client_used := _http_client_used s; error_ignored := error_ignored s;
     exception := exception s; generated_diff := generated_diff s;
     history_dic_snapshots := history_dic_snapshots s; new_data := new_data s;
     new_etag := new_etag s; new_mime_type := new_mime_type s;
     new_timestamp := new_timestamp s; old_snapshot := old_snapshot s;
     old_data := old_data s; old_etag := old_etag s; old_mime_type := old_mime_type s;
     old_timestamp := old_timestamp s; traceback := v; tries := tries s;
     unfiltered_diff := unfiltered_diff s; verb := verb s |}.

Definition set_tries (v : Z) (s : JobState) : JobState :=
  {| snapshots_db := snapshots_db s; job := job s;
     _http_client_used := _http_client_used s; error_ignored := error_ignored s;
     exception := exception s; generated_diff := generated_diff s;
     history_dic_snapshots := history_dic_snapshots s; new_data := new_data s;
     new_etag := new_etag s; new_mime_type := new_mime_type s;
     new_timestamp := new_timestamp s; old_snapshot := old_snapshot s;
     old_data := old_data s; old_etag := old_etag s; old_mime_type := old_mime_type s;
     old_timestamp := old_timestamp s; traceback := traceback s; tries := v;
     unfiltered_diff := unfiltered_diff s; verb := verb s |}.

Definition set_unfiltered_diff (v : option loc) (s : JobState) : JobState :=
  {| snapshots_db := snapshots_db s; job := job s;
     _http_client_used := _http_client_used s; error_ignored := error_ignored s;
     exception := exception s; generated_diff := generated_diff s;
     history_dic_snapshots := history_dic_snapshots s; new_data := new_data s;
     new_etag := new_etag s; new_mime_type := new_mime_type s;
     new_timestamp := new_timestamp s; old_snapshot := old_snapshot s;
     old_data := old_data s; old_etag := old_etag s; old_mime_type := old_mime_type s;
     old_timestamp := old_timestamp s; traceback := traceback s; tries := tries s;
     unfiltered_diff := v; verb := verb s |}.

Definition set_verb (v : option string) (s : JobState) : JobState :=
  {| snapshots_db := snapshots_db s; job := job s;
     _http_client_used := _http_client_used s; error_ignored := error_ignored s;
     exception := exception s; generated_diff := generated_diff s;
     history_dic_snapshots := history_dic_snapshots s; new_data := new_data s;
     new_etag := new_etag s; new_mime_type := new_mime_type s;
     new_timestamp := new_timestamp s; old_snapshot := old_snapshot s;
     old_data := old_data s; old_etag := old_etag s; old_mime_type := old_mime_type s;
     old_timestamp := old_timestamp s; traceback := traceback s; tries := tries s;
     unfiltered_diff := unfiltered_diff s; verb := v |}.

(** The initial release of webchanges, used as the default old timestamp. *)
Definition first_release : Q := 1605147837511478 # 1000000.

(** ** Objects, heap and interpreter state *)

(** [_Config]: the part of the configuration read by [Report]. *)
Record ConfigDisplay := {
  display_new : bool;
  display_error : bool;
  display_unchanged : bool;
  display_empty_diff : bool
}.

Record Config := {
  display : ConfigDisplay;
  report_tz : option (option string)   (* ['report']['tz'], when 'report' is a key *)
}.

Record Report := {
  config : Config;
  tz : option ZoneInfo;
  job_states : option loc   (* instance attribute, when one was assigned *)
}.

Inductive Object :=
| ObjDict (d : gmap string Data)
| ObjHistory (d : list (Data * Snapshot))
| ObjList (l : list loc)
| ObjJobState (s : JobState)
| ObjReport (r : Report).

(** Calls made to the collaborators that are observable from outside. *)
Inductive Event :=
| SsdbLoad (db : SsdbStorage) (guid : string)
| SsdbGetHistorySnapshots (db : SsdbStorage) (guid : string) (count : Z)
| SsdbSave (db : SsdbStorage) (guid : string) (snapshot : Snapshot)
| JobRetrieve (self : loc) (headless : bool)
| DifferProcess (differ_kind : string) (self : loc) (report_kind : string).

Record World := {
  heap : list Object;
  (* mutable containers bound in the class bodies *)
  JobState_history_dic_snapshots : loc;
  JobState_unfiltered_diff : loc;
  Report_job_states : loc;
  environ : gmap string string;
  clock : nat;
  events : list Event
}.

Definition set_heap (h : list Object) (w : World) : World :=
  {| heap := h;
     JobState_history_dic_snapshots := JobState_history_dic_snapshots w;
     JobState_unfiltered_diff := JobState_unfiltered_diff w;
     Report_job_states := Report_job_states w;
     environ := environ w; clock := clock w; events := events w |}.

Definition set_clock (c : nat) (w : World) : World :=
  {| heap := heap w;
     JobState_history_dic_snapshots := JobState_history_dic_snapshots w;
     JobState_unfiltered_diff := JobState_unfiltered_diff w;
     Report_job_states := Report_job_states w;
     environ := environ w; clock := c; events := events w |}.

Definition set_events (l : list Event) (w : World) : World :=
  {| heap := heap w;
     JobState_history_dic_snapshots := JobState_history_dic_snapshots w;
     JobState_unfiltered_diff := JobState_unfiltered_diff w;
     Report_job_states := Report_job_states w;
     environ := environ w; clock := clock w; events := l |}.

(** The state right after the two class bodies have been executed: the three
    class-level containers exist and are empty. *)
Definition world_at_import (env : gmap string string) : World :=
  {| heap := [ObjHistory []; ObjDict ∅; ObjList []];
     JobState_history_dic_snapshots := 0%nat;
     JobState_unfiltered_diff := 1%nat;
     Report_job_states := 2%nat;
     environ := env; clock := 0%nat; events := [] |}.

(** ** The monad of method bodies

    A computation returns a value or raises; the changes it made to the state
    before raising stay. *)

Inductive Result (A : Type) :=
| Return (a : A)
| Raise (e : Exception).
Arguments Return {A} a.
Arguments Raise {A} e.

Definition M (A : Type) : Type := World → Result A * World.

#[global] Instance M_ret : MRet M := λ A a w, (Return a, w).

#[global] Instance M_bind : MBind M := λ A B f m w,
  match m w with
  | (Return a, w') => f a w'
  | (Raise e, w') => (Raise e, w')
  end.

Definition raise {A} (e : Exception) : M A := λ w, (Raise e, w).

(** [try: body  except Exception as e: handler e] *)
Definition try_except {A} (body : M A) (handler : Exception → M A) : M A := λ w,
  match body w with
  | (Return a, w') => (Return a, w')
  | (Raise e, w') => handler e w'
  end.

Definition lift {A} (r : Result A) : M A := λ w, (r, w).
Definition get_world : M World := λ w, (Return w, w).
Definition modify_world (f : World → World) : M unit := λ w, (Return tt, f w).

Definition emit (ev : Event) : M unit :=
  modify_world (λ w, set_events (events w ++ [ev]) w).

(** Allocation of a new object: it gets an address no live object has. *)
Definition alloc (o : Object) : M loc := λ w,
  (Return (length (heap w)), set_heap (heap w ++ [o]) w).

Definition attribute_error (name : string) : Exception :=
  {| exc_class := AttributeError; exc_args := name |}.

Definition key_error (key : string) : Exception :=
  {| exc_class := KeyError; exc_args := key |}.

(** A reference that does not lead to an object of the expected class cannot
    arise in Python; the model raises this to stay total. *)
Definition bad_reference : Exception :=
  {| exc_class := OtherException "SystemError"; exc_args := "bad reference" |}.

(** Replaces the object at an address. *)
Definition store (l : loc) (o : Object) (w : World) : World :=
  set_heap (<[l := o]> (heap w)) w.

Definition read_JobState (self : loc) : M JobState := λ w,
  match heap w !! self with
  | Some (ObjJobState s) => (Return s, w)
  | _ => (Raise bad_reference, w)
  end.

Definition update_JobState (self : loc) (f : JobState → JobState) : M unit := λ w,
  match heap w !! self with
  | Some (ObjJobState s) => (Return tt, store self (ObjJobState (f s)) w)
  | _ => (Raise bad_reference, w)
  end.

Definition read_dict (l : loc) : M (gmap string Data) := λ w,
  match heap w !! l with
  | Some (ObjDict d) => (Return d, w)
  | _ => (Raise bad_reference, w)
  end.

Definition update_dict (l : loc) (f : gmap string Data → gmap string Data) : M unit := λ w,
  match heap w !! l with
  | Some (ObjDict d) => (Return tt, store l (ObjDict (f d)) w)
  | _ => (Raise bad_reference, w)
  end.

(** Reading an attribute that has neither an instance value nor a class
    default raises [AttributeError]. *)
Definition getattr {A} (self : loc) (name : string) (proj : JobState → option A) : M A :=
  s ← read_JobState self;
  match proj s with
  | Some a => mret a
  | None => raise (attribute_error name)
  end.

(** ** Collaborators

    The job, the snapshot database, the filters and the differs are not part
    of this module; it only calls them.  They read the state they are given
    and return or raise. *)

Class Runtime := {
  (* the successive readings of [time.time()] *)
  wall_clock : nat → Q;
  (* [traceback.format_exc()] while the exception is being handled *)
  format_exc : Exception → string;
  (* [ZoneInfo(key)] *)
  zoneinfo : string → Result ZoneInfo
}.

Class SsdbStorageOps := {
  ssdb_load : World → SsdbStorage → string → Result Snapshot;
  ssdb_get_history_snapshots : World → SsdbStorage → string → Z → Result (list Snapshot);
  ssdb_save : World → SsdbStorage → string → Snapshot → Result unit
}.

Class JobBase := {
  get_guid : Job → string;
  retrieve : World → Job → loc → bool → Result (Data * string * string);
  format_error : Job → Exception → string → Result string;
  ignore_error : Job → Exception → Result BoolOrStr
}.

(** [normalize_filter_list] is iterated by a [for]: it yields items and may
    raise after the last one it yields. *)
Class FilterBase := {
  auto_process : World → loc → Data → string → Result (Data * string);
  normalize_filter_list : Directives → Z → list (string * Directives) * option Exception;
  filter_process : World → string → Directives → loc → Data → string → Result (Data * string)
}.

Class DifferBase := {
  normalize_differ : option Directives → Z → Result (string * Directives);
  differ_process :
    World → string → Directives → loc → string → option ZoneInfo → gmap string Data →
    Result (gmap string Data)
}.

Section Handler.

Context `{Runtime} `{SsdbStorageOps} `{JobBase} `{FilterBase} `{DifferBase}.

(** [time.time()] *)
Definition time_time : M Q := λ w,
  (Return (wall_clock (clock w)), set_clock (S (clock w)) w).

(** [os.getenv(name)] *)
Definition os_getenv (name : string) : M (option string) := λ w,
  (Return (environ w !! name), w).

Definition truthy_getenv (v : option string) : bool :=
  match v with Some s => truthy_str s | None => false end.

(** [x is {}]: the display creates a new dict, whose address is one that no
    live object has; after the comparison nothing refers to it, so the heap
    is left as it was. *)
Definition is_new_dict (x : loc) : M bool := λ w,
  (Return (bool_decide (x = length (heap w))), w).

(** *** class JobState *)

(** The values an instance shows before [__init__] has assigned anything:
    the class-level defaults of the immutable attributes; [None] marks an
    attribute the instance does not have. *)
Definition JobState_new (db : SsdbStorage) (j : Job) : JobState :=
  {| snapshots_db := db;
     job := j;
     _http_client_used := None;
     error_ignored := None;
     exception := None;
     generated_diff := None;
     history_dic_snapshots := None;
     new_data := None;
     new_etag := None;
     new_mime_type := "";
     new_timestamp := None;
     old_snapshot :=
       {| data := Str ""; timestamp := first_release; snap_tries := 0;
          etag := ""; mime_type := "text/plain" |};
     old_data := Str "";
     old_etag := "";
     old_mime_type := "text/plain";
     old_timestamp := first_release;
     traceback := None;
     tries := 0;
     unfiltered_diff := None;
     verb := None |}.

(** [JobState(snapshots_db, job)] *)
Definition JobState_init (db : SsdbStorage) (j : Job) : M loc :=
  self ← alloc (ObjJobState (JobState_new db j));
  g ← alloc (ObjDict ∅);
  update_JobState self (set_generated_diff (Some g));;
  u ← alloc (ObjDict ∅);
  update_JobState self (set_unfiltered_diff (Some u));;
  mret self.

(** Attribute lookup for the two attributes whose class-level default is a
    container: the instance value if there is one, else the class's. *)
Definition getattr_unfiltered_diff (self : loc) : M loc :=
  s ← read_JobState self;
  w ← get_world;
  mret (default (JobState_unfiltered_diff w) (unfiltered_diff s)).

Definition getattr_history_dic_snapshots (self : loc) : M loc :=
  s ← read_JobState self;
  w ← get_world;
  mret (default (JobState_history_dic_snapshots w) (history_dic_snapshots s)).

(** [{s.data: s for s in ...}]: a later snapshot with the same data replaces
    the value and keeps the position. *)
Fixpoint history_setitem (k : Data) (v : Snapshot) (d : list (Data * Snapshot))
  : list (Data * Snapshot) :=
  match d with
  | [] => [(k, v)]
  | (k', v') :: d' =>
      if decide (k = k') then (k, v) :: d' else (k', v') :: history_setitem k v d'
  end.

Definition history_dict (l : list Snapshot) : list (Data * Snapshot) :=
  fold_left (λ d s, history_setitem (data s) s d) l [].

Definition load (self : loc) : M unit :=
  s ← read_JobState self;
  let guid := get_guid (job s) in
  emit (SsdbLoad (snapshots_db s) guid);;
  w ← get_world;
  snap ← lift (ssdb_load w (snapshots_db s) guid);
  update_JobState self (set_old_snapshot snap);;
  update_JobState self (λ s,
    set_old_mime_type (mime_type snap)
      (set_old_etag (etag snap)
        (set_tries (snap_tries snap)
          (set_old_timestamp (timestamp snap)
            (set_old_data (data snap) s)))));;
  match compared_versions (job s) with
  | Some n =>
      if bool_decide (n ≠ 0) && bool_decide (n > 1) then
        emit (SsdbGetHistorySnapshots (snapshots_db s) guid n);;
        w ← get_world;
        hist ← lift (ssdb_get_history_snapshots w (snapshots_db s) guid n);
        d ← alloc (ObjHistory (history_dict hist));
        update_JobState self (set_history_dic_snapshots (Some d))
      else mret tt
  | None => mret tt
  end.

Definition save (self : loc) (use_old_data : bool) : M unit :=
  (if use_old_data then
     s ← read_JobState self;
     update_JobState self (set_new_data (Some (old_data s)));;
     s ← read_JobState self;
     update_JobState self (set_new_etag (Some (old_etag s)));;
     s ← read_JobState self;
     update_JobState self (set_new_mime_type (old_mime_type s))
   else mret tt);;
  d ← getattr self "new_data" new_data;
  t ← getattr self "new_timestamp" new_timestamp;
  s ← read_JobState self;
  e ← getattr self "new_etag" new_etag;
  let new_snapshot :=
    {| data := d; timestamp := t; snap_tries := tries s; etag := e;
       mime_type := new_mime_type s |} in
  emit (SsdbSave (snapshots_db s) (get_guid (job s)) new_snapshot);;
  w ← get_world;
  lift (ssdb_save w (snapshots_db s) (get_guid (job s)) new_snapshot).

(** The explicit filter chain: [for filter_kind, subfilter in ...]. *)
Fixpoint apply_filters (self : loc) (fs : list (string * Directives))
    (filtered_data : Data) (mime : string) : M (Data * string) :=
  match fs with
  | [] => mret (filtered_data, mime)
  | (filter_kind, subfilter) :: fs' =>
      w ← get_world;
      '(filtered_data', mime') ←
        lift (filter_process w filter_kind subfilter self filtered_data mime);
      apply_filters self fs' filtered_data' mime'
  end.

Definition for_filters (self : loc) (it : list (string * Directives) * option Exception)
    (filtered_data : Data) (mime : string) : M (Data * string) :=
  r ← apply_filters self it.1 filtered_data mime;
  match it.2 with
  | Some e => raise e
  | None => mret r
  end.

(** The body of the inner [try] of [process]. *)
Definition process_try (self : loc) (headless : bool) : M unit :=
  load self;;
  t ← time_time;
  update_JobState self (set_new_timestamp (Some t));;
  s ← read_JobState self;
  emit (JobRetrieve self headless);;
  w ← get_world;
  '(dat, new_etag', mime) ← lift (retrieve w (job s) self headless);
  update_JobState self (set_new_etag (Some new_etag'));;
  w ← get_world;
  '(filtered_data, mime) ← lift (auto_process w self dat mime);
  s ← read_JobState self;
  '(filtered_data, mime) ←
    for_filters self (normalize_filter_list (job_filter (job s)) (index_number (job s)))
      filtered_data mime;
  update_JobState self (set_new_data (Some filtered_data));;
  update_JobState self (set_new_mime_type mime).

(** The inner handler: the job has a chance to format and ignore its error. *)
Definition process_except_inner (self : loc) (e : Exception) : M unit :=
  t ← time_time;
  update_JobState self (set_new_timestamp (Some t));;
  update_JobState self (set_exception (Some e));;
  s ← read_JobState self;
  tb ← lift (format_error (job s) e (format_exc e));
  update_JobState self (set_traceback (Some tb));;
  s ← read_JobState self;
  ig ← lift (ignore_error (job s) e);
  update_JobState self (set_error_ignored (Some ig));;
  ig ← getattr self "error_ignored" error_ignored;
  if negb (truthy_BoolOrStr ig || isinstance_NotModifiedError e) then
    update_JobState self (λ s, set_tries (tries s + 1) s)
  else mret tt.

(** The outer handler: the job failed its chance to handle the error. *)
Definition process_except_outer (self : loc) (e : Exception) : M unit :=
  hosted ← os_getenv "PYCHARM_HOSTED";
  if truthy_getenv hosted then raise e
  else
    update_JobState self (set_exception (Some e));;
    s ← read_JobState self;
    tb ← lift (format_error (job s) e (format_exc e));
    update_JobState self (set_traceback (Some tb));;
    update_JobState self (set_error_ignored (Some (IsBool false)));;
    if negb (isinstance_NotModifiedError e) then
      update_JobState self (λ s, set_tries (tries s + 1) s)
    else mret tt.

Definition process (self : loc) (headless : bool) : M loc :=
  s ← read_JobState self;
  if truthy_option (exception s) then
    t ← time_time;
    update_JobState self (set_new_timestamp (Some t));;
    mret self
  else
    try_except
      (try_except (process_try self headless) (process_except_inner self))
      (process_except_outer self);;
    mret self.

(** [d[key]] *)
Definition getitem (d : gmap string Data) (key : string) : M Data :=
  match d !! key with
  | Some v => mret v
  | None => raise (key_error key)
  end.

(** [differ or self.job.differ] *)
Definition differ_or (differ job_differ : option Directives) : option Directives :=
  match differ with
  | Some (_ :: _) => differ
  | _ => job_differ
  end.

(** Calls the differ and merges what it returns into [self.unfiltered_diff]. *)
Definition get_diff_compute (self : loc) (report_kind : string)
    (differ : option Directives) (tz : option ZoneInfo) : M unit :=
  s ← read_JobState self;
  '(differ_kind, subdiffer) ←
    lift (normalize_differ (differ_or differ (job_differ (job s))) (index_number (job s)));
  u ← getattr_unfiltered_diff self;
  ud ← read_dict u;
  emit (DifferProcess differ_kind self report_kind);;
  w ← get_world;
  unfiltered ← lift (differ_process w differ_kind subdiffer self report_kind tz ud);
  u ← getattr_unfiltered_diff self;
  update_dict u (λ d, unfiltered ∪ d).

(** What follows the two guards: read the unfiltered diff, apply the
    diff_filters to a non-empty one, store and return the result. *)
Definition get_diff_finish (self : loc) (report_kind : string) : M Data :=
  u ← getattr_unfiltered_diff self;
  ud ← read_dict u;
  _generated_diff ← getitem ud report_kind;
  _generated_diff ←
    (if truthy_Data _generated_diff then
       s ← read_JobState self;
       r ←
         for_filters self
           (normalize_filter_list (job_diff_filter (job s)) (index_number (job s)))
           _generated_diff "text/plain";
       mret r.1
     else mret _generated_diff : M Data);
  g ← getattr self "generated_diff" generated_diff;
  update_dict g (<[report_kind := _generated_diff]>);;
  g ← getattr self "generated_diff" generated_diff;
  gd ← read_dict g;
  getitem gd report_kind.

Definition get_diff (self : loc) (report_kind : string)
    (differ : option Directives) (tz : option ZoneInfo) : M Data :=
  (* if self.generated_diff is not {} and report_kind in self.generated_diff *)
  g ← getattr self "generated_diff" generated_diff;
  same ← is_new_dict g;
  cached ←
    (if negb same then
       g ← getattr self "generated_diff" generated_diff;
       gd ← read_dict g;
       mret (bool_decide (is_Some (gd !! report_kind)))
     else mret false : M bool);
  if cached : bool then
    g ← getattr self "generated_diff" generated_diff;
    gd ← read_dict g;
    getitem gd report_kind
  else
    (* if self.generated_diff is {} or report_kind not in self.unfiltered_diff *)
    g ← getattr self "generated_diff" generated_diff;
    same ← is_new_dict g;
    missing ←
      (if same : bool then mret true
       else
         u ← getattr_unfiltered_diff self;
         ud ← read_dict u;
         mret (negb (bool_decide (is_Some (ud !! report_kind)))) : M bool);
    (if missing : bool then get_diff_compute self report_kind differ tz else mret tt);;
    get_diff_finish self report_kind.

(** *** class Report *)

Definition read_Report (self : loc) : M Report := λ w,
  match heap w !! self with
  | Some (ObjReport r) => (Return r, w)
  | _ => (Raise bad_reference, w)
  end.

Definition update_list (l : loc) (f : list loc → list loc) : M unit := λ w,
  match heap w !! l with
  | Some (ObjList xs) => (Return tt, store l (ObjList (f xs)) w)
  | _ => (Raise bad_reference, w)
  end.

Definition read_list (l : loc) : M (list loc) := λ w,
  match heap w !! l with
  | Some (ObjList xs) => (Return xs, w)
  | _ => (Raise bad_reference, w)
  end.

(** [Report(urlwatch)], given [urlwatch.config_storage.config]. *)
Definition Report_init (cfg : Config) : M loc :=
  zone ←
    match report_tz cfg with
    | Some (Some key) => z ← lift (zoneinfo key); mret (Some z)
    | _ => mret None
    end;
  alloc (ObjReport {| config := cfg; tz := zone; job_states := None |}).

(** [self.job_states]: the instance's list if one was assigned, else the
    list bound in the class body. *)
Definition getattr_job_states (self : loc) : M loc :=
  r ← read_Report self;
  w ← get_world;
  mret (default (Report_job_states w) (job_states r)).

Definition _result (self : loc) (verb' : string) (job_state : loc) : M unit :=
  update_JobState job_state (set_verb (Some verb'));;
  l ← getattr_job_states self;
  update_list l (λ xs, (xs ++ [job_state])%list).

Definition new (self job_state : loc) : M unit := _result self "new" job_state.
Definition changed (self job_state : loc) : M unit := _result self "changed" job_state.
Definition changed_no_report (self job_state : loc) : M unit :=
  _result self "changed,no_report" job_state.
Definition unchanged (self job_state : loc) : M unit := _result self "unchanged" job_state.
Definition error (self job_state : loc) : M unit := _result self "error" job_state.
Definition custom (self job_state : loc) (label : string) : M unit :=
  _result self label job_state.

(** [config['display'][key]] *)
Definition display_getitem (d : ConfigDisplay) (key : string) : M bool :=
  if String.eqb key "new" then mret (display_new d)
  else if String.eqb key "error" then mret (display_error d)
  else if String.eqb key "unchanged" then mret (display_unchanged d)
  else if String.eqb key "empty-diff" then mret (display_empty_diff d)
  else raise (key_error key).

(** [any(job_state.verb == verb and not self.config['display'][verb]
        for verb in verbs)] *)
Fixpoint any_display_off (self job_state : loc) (verbs : list string) : M bool :=
  match verbs with
  | [] => mret false
  | v :: verbs' =>
      jv ← getattr job_state "verb" verb;
      off ←
        (if String.eqb jv v then
           r ← read_Report self;
           shown ← display_getitem (display (config r)) v;
           mret (negb shown)
         else mret false : M bool);
      if off : bool then mret true else any_display_off self job_state verbs'
  end.

(** The generator, run to exhaustion: the job states it yields, in the order
    it yields them. *)
Fixpoint get_filtered_job_states (self : loc) (job_states' : list loc) : M (list loc) :=
  match job_states' with
  | [] => mret []
  | job_state :: rest =>
      off ← any_display_off self job_state ["unchanged"; "new"; "error"];
      reported ←
        (if negb off then
           jv ← getattr job_state "verb" verb;
           mret (negb (String.eqb jv "changed,no_report"))
         else mret false : M bool);
      if reported : bool then
        jv ← getattr job_state "verb" verb;
        skip ←
          (if String.eqb jv "changed" then
             r ← read_Report self;
             shown ← display_getitem (display (config r)) "empty-diff";
             if negb shown then
               r ← read_Report self;
               d ← get_diff job_state "text" None (tz r);
               mret (bool_decide (d = Str ""))
             else mret false
           else mret false : M bool);
        if skip : bool then get_filtered_job_states self rest
        else
          ys ← get_filtered_job_states self rest;
          mret (job_state :: ys)
      else get_filtered_job_states self rest
  end.

End Handler.

(** ** Vocabulary of the properties

    Pure readings of what the methods compute, used to state the properties
    below. *)

Section Vocabulary.

Context `{Runtime} `{SsdbStorageOps} `{JobBase} `{FilterBase} `{DifferBase}.

(** What [save(use_old_data=True)] does first: the old data, ETag and mime
    type become the new ones. *)
Definition copied_old_data (s : JobState) : JobState :=
  set_new_mime_type (old_mime_type s)
    (set_new_etag (Some (old_etag s)) (set_new_data (Some (old_data s)) s)).

(** The snapshot made of the current [new_data], [new_timestamp], [tries],
    [new_etag] and [new_mime_type], when these attributes exist. *)
Definition current_snapshot (s : JobState) : option Snapshot :=
  d ← new_data s;
  t ← new_timestamp s;
  e ← new_etag s;
  Some {| data := d; timestamp := t; snap_tries := tries s; etag := e;
          mime_type := new_mime_type s |}.

(** The explicit filter chain run in a given state: the filters do not
    change the state. *)
Fixpoint filter_chain (w : World) (self : loc) (fs : list (string * Directives))
    (d : Data) (m : string) : Result (Data * string) :=
  match fs with
  | [] => Return (d, m)
  | (filter_kind, subfilter) :: fs' =>
      match filter_process w filter_kind subfilter self d m with
      | Return (d', m') => filter_chain w self fs' d' m'
      | Raise e => Raise e
      end
  end.

Definition filtered (w : World) (self : loc)
    (it : list (string * Directives) * option Exception) (d : Data) (m : string)
  : Result (Data * string) :=
  match filter_chain w self it.1 d m with
  | Return r => match it.2 with Some e => Raise e | None => Return r end
  | Raise e => Raise e
  end.

(** The state in which [retrieve] is called, [w0] and [s0] being the state
    and the job state that [load] left. *)
Definition world_at_retrieve (self : loc) (headless : bool) (s0 : JobState) (w0 : World) : World :=
  set_events (events w0 ++ [JobRetrieve self headless])
    (store self (ObjJobState (set_new_timestamp (Some (wall_clock (clock w0))) s0))
       (set_clock (S (clock w0)) w0)).

(** The state in which the filters are called. *)
Definition world_at_filters (self : loc) (headless : bool) (new_etag' : string)
    (s0 : JobState) (w0 : World) : World :=
  store self
    (ObjJobState
       (set_new_etag (Some new_etag') (set_new_timestamp (Some (wall_clock (clock w0))) s0)))
    (world_at_retrieve self headless s0 w0).

(** Steps 4 and 5 of [process]: the retrieval, the automatic filter and the
    filter chain; the outcome is the filtered data, the ETag and the final
    mime type, or the first exception raised. *)
Definition retrieved_and_filtered (self : loc) (headless : bool) (s0 : JobState) (w0 : World)
  : Result (Data * string * string) :=
  match retrieve (world_at_retrieve self headless s0 w0) (job s0) self headless with
  | Return (dat, new_etag', mime) =>
      let w := world_at_filters self headless new_etag' s0 w0 in
      match auto_process w self dat mime with
      | Return (filtered_data, mime) =>
          match
            filtered w self
              (normalize_filter_list (job_filter (job s0)) (index_number (job s0)))
              filtered_data mime
          with
          | Return (filtered_data, mime) => Return (filtered_data, new_etag', mime)
          | Raise e => Raise e
          end
      | Raise e => Raise e
      end
  | Raise e => Raise e
  end.

(** The outcome of the two hooks the inner layer calls, in the order it calls
    them. *)
Definition job_hooks (j : Job) (e : Exception) : Result (string * BoolOrStr) :=
  match format_error j e (format_exc e) with
  | Return tb =>
      match ignore_error j e with
      | Return ig => Return (tb, ig)
      | Raise e' => Raise e'
      end
  | Raise e' => Raise e'
  end.

(** The same method with both guards gated on "has this report_kind been
    computed" alone, without the identity tests. *)
Definition get_diff_simplified (self : loc) (report_kind : string)
    (differ : option Directives) (tz : option ZoneInfo) : M Data :=
  g ← getattr self "generated_diff" generated_diff;
  gd ← read_dict g;
  if bool_decide (is_Some (gd !! report_kind)) then
    g ← getattr self "generated_diff" generated_diff;
    gd ← read_dict g;
    getitem gd report_kind
  else
    u ← getattr_unfiltered_diff self;
    ud ← read_dict u;
    (if negb (bool_decide (is_Some (ud !! report_kind)))
     then get_diff_compute self report_kind differ tz else mret tt);;
    get_diff_finish self report_kind.

(** The diff of a report kind that a job state has memoized, if any. *)
Definition cached_diff (w : World) (job_state : loc) (report_kind : string) : option Data :=
  match heap w !! job_state with
  | Some (ObjJobState s) =>
      match generated_diff s with
      | Some g =>
          match heap w !! g with
          | Some (ObjDict d) => d !! report_kind
          | _ => None
          end
      | None => None
      end
  | _ => None
  end.

(** From [w] to [w1] every object other than a dict is the same, and every
    dict still holds what it held under the key [report_kind]. *)
Definition keeps (report_kind : string) (w w1 : World) : Prop :=
  ∀ l o, heap w !! l = Some o →
    match o with
    | ObjDict d =>
        ∃ d', heap w1 !! l = Some (ObjDict d') ∧
              ∀ x, d !! report_kind = Some x → d' !! report_kind = Some x
    | _ => heap w1 !! l = Some o
    end.

(** The verb of a job state, if it has one. *)
Definition verb_of (w : World) (job_state : loc) : option string :=
  match heap w !! job_state with
  | Some (ObjJobState s) => verb s
  | _ => None
  end.

(** The verb is one of unchanged, new, error and its display flag is off. *)
Definition display_off (d : ConfigDisplay) (v : string) : bool :=
  String.eqb v "unchanged" && negb (display_unchanged d)
  || String.eqb v "new" && negb (display_new d)
  || String.eqb v "error" && negb (display_error d).

(** [get_diff], called with the report's timezone, returns the empty string. *)
Definition diff_is_empty (r : Report) (w : World) (job_state : loc) : bool :=
  match (get_diff job_state "text" None (tz r) w).1 with
  | Return d => bool_decide (d = Str "")
  | Raise _ => false
  end.

(** The job state is one that [get_filtered_job_states] is to yield. *)
Definition reportable (r : Report) (w : World) (job_state : loc) : bool :=
  match verb_of w job_state with
  | Some v =>
      negb (String.eqb v "changed,no_report")
      && negb (display_off (display (config r)) v)
      && negb (String.eqb v "changed"
               && negb (display_empty_diff (display (config r)))
               && diff_is_empty r w job_state)
  | None => false
  end.

(** What the constructor builds: the instance and, right after it, its two
    new dicts. *)
Definition constructed (db : SsdbStorage) (j : Job) (n : loc) : JobState :=
  set_unfiltered_diff (Some (S (S n)))
    (set_generated_diff (Some (S n)) (JobState_new db j)).

End Vocabulary.

(** ** A concrete set of collaborators

    Jobs are told apart by their index number: job 1 retrieves new content,
    job 2 fails with a [ValueError], job 3 gets "not modified", job 4 fails
    and its [ignore_error] hook fails too, job 5 fails and its
    [format_error] hook fails on every call, job 6 fails and its
    [ignore_error] hook raises "not modified", job 7 retrieves what is
    stored and has no filter. *)
Module Demo.

Definition value_error (msg : string) : Exception :=
  {| exc_class := OtherException "ValueError"; exc_args := msg |}.

Definition type_error (msg : string) : Exception :=
  {| exc_class := OtherException "TypeError"; exc_args := msg |}.

Definition not_modified : Exception :=
  {| exc_class := NotModifiedError; exc_args := "304" |}.

Definition stored : Snapshot :=
  {| data := Str "old content"; timestamp := first_release; snap_tries := 2;
     etag := "abc"; mime_type := "text/plain" |}.

#[export] Instance runtime : Runtime :=
  {| wall_clock := λ n, (first_release + inject_Z (Z.of_nat n))%Q;
     format_exc := λ e, "Traceback: " ++ exc_args e;
     zoneinfo := λ key, Return key |}.

#[export] Instance ssdb : SsdbStorageOps :=
  {| ssdb_load := λ _ _ _, Return stored;
     ssdb_get_history_snapshots := λ _ _ _ _, Return [stored];
     ssdb_save := λ _ _ _ _, Return tt |}.

#[export] Instance jobs : JobBase :=
  {| get_guid := λ j, "guid" ++ String (Ascii.ascii_of_nat (48 + Z.to_nat (index_number j))) "";
     retrieve := λ _ j _ _,
       if bool_decide (index_number j = 1) then Return (Str "new content", "def", "text/plain")
       else if bool_decide (index_number j = 7) then Return (Str "old content", "abc", "text/plain")
       else if bool_decide (index_number j = 3) then Raise not_modified
       else Raise (value_error "no route to host");
     format_error := λ j e tb,
       if bool_decide (index_number j = 5) then Raise (type_error "format_error")
       else Return tb;
     ignore_error := λ j e,
       if bool_decide (index_number j = 4) then Raise (type_error "ignore_error")
       else if bool_decide (index_number j = 6) then Raise not_modified
       else Return (IsBool false) |}.

#[export] Instance filters : FilterBase :=
  {| auto_process := λ _ _ d m, Return (d, m);
     normalize_filter_list := λ ds _, (map (λ d, (d.1, [d])) ds, None);
     filter_process := λ _ kind _ _ d m,
       if String.eqb kind "upper" then
         match d with
         | Str s => Return (Str (s ++ "!"), m)
         | Bytes _ => Raise (type_error "upper")
         end
       else Return (d, m) |}.

Definition diff_of (w : World) (self : loc) : Data :=
  match heap w !! self with
  | Some (ObjJobState s) =>
      if bool_decide (Some (old_data s) = new_data s) then Str "" else Str "-old +new"
  | _ => Str ""
  end.

#[export] Instance differs : DifferBase :=
  {| normalize_differ := λ _ _, Return ("unified", []);
     differ_process := λ w _ _ self _ _ _,
       Return (<["text" := diff_of w self]>
                (<["markdown" := diff_of w self]>
                  (<["html" := diff_of w self]> ∅))) |}.

Definition the_job (n : Z) : Job :=
  {| index_number := n; compared_versions := None;
     job_filter := if bool_decide (n = 7) then [] else [("upper", "")];
     job_diff_filter := [];
     job_differ := None; is_markdown := false |}.

Definition no_env : gmap string string := ∅.
Definition pycharm_env : gmap string string := {["PYCHARM_HOSTED" := "1"]}.

(** A world with one freshly constructed job state for job [n], at address 3. *)
Definition world_with_job (env : gmap string string) (n : Z) : World :=
  (JobState_init "cache.db" (the_job n) (world_at_import env)).2.

Definition job_state_at (w : World) (l : loc) : JobState :=
  match heap w !! l with
  | Some (ObjJobState s) => s
  | _ => JobState_new "" (the_job 0)
  end.

(** The same world once [load] has run. *)
Definition loaded (env : gmap string string) (n : Z) : World :=
  (load 3%nat (world_with_job env n)).2.

(** The same world once [process] has run. *)
Definition processed (env : gmap string string) (n : Z) : World :=
  (process 3%nat true (world_with_job env n)).2.

Definition demo_display : ConfigDisplay :=
  {| display_new := true; display_error := true; display_unchanged := false;
     display_empty_diff := false |}.

Definition demo_config : Config :=
  {| display := demo_display; report_tz := Some (Some "Etc/UTC") |}.

Definition demo_report : Report :=
  {| config := demo_config; tz := Some "Etc/UTC"; job_states := None |}.

(** A batch: one report at address 3 and six job states, at addresses 4, 7,
    10, 13, 16 and 19, each processed and classified. *)
Definition batch : M (list loc) :=
  report ← Report_init demo_config;
  a ← JobState_init "cache.db" (the_job 1);
  process a true;;
  changed report a;;
  b ← JobState_init "cache.db" (the_job 7);
  process b true;;
  changed report b;;
  c ← JobState_init "cache.db" (the_job 2);
  process c true;;
  error report c;;
  d ← JobState_init "cache.db" (the_job 7);
  process d true;;
  unchanged report d;;
  e ← JobState_init "cache.db" (the_job 1);
  process e true;;
  changed_no_report report e;;
  f ← JobState_init "cache.db" (the_job 1);
  process f true;;
  custom report f "test";;
  l ← getattr_job_states report;
  read_list l.

Definition batch_world : World := (batch (world_at_import no_env)).2.

(** Two job states, and the address each of them shows as
    [history_dic_snapshots]. *)
Definition two_job_states : M (loc * loc * loc * loc) :=
  a ← JobState_init "cache.db" (the_job 1);
  b ← JobState_init "cache.db" (the_job 2);
  ha ← getattr_history_dic_snapshots a;
  hb ← getattr_history_dic_snapshots b;
  mret (a, b, ha, hb).

(** Two reports; a job state is recorded as new in the first; the result is
    what the second shows as [job_states]. *)
Definition two_reports : M (loc * loc * list loc) :=
  r1 ← Report_init demo_config;
  r2 ← Report_init demo_config;
  job_state ← JobState_init "cache.db" (the_job 1);
  new r1 job_state;;
  l ← getattr_job_states r2;
  seen ← read_list l;
  mret (r1, r2, seen).

End Demo.

(** * The rest of the module, its callers and the documentation tool

    What follows embeds the methods of [handler.py] that the properties above
    do not need, the job look-up of [command.py] and the class tree of
    [docs/inheritance_ascii_tree.py]. *)

From Stdlib Require Import DecimalString.

(** ** More collaborators *)

(** [exc_value.stderr] of a [subprocess.CalledProcessError]. *)
Class CalledProcess := {
  called_process_stderr : Exception → string
}.

(** What [command.py] asks of a job. *)
Class JobFields := {
  get_location : Job → string;
  with_defaults : Job → Job
}.

(** [int(s)] of a string; [None] stands for [ValueError]. *)
Class Builtins := {
  int_of_str : string → option Z
}.

(** ** class JobState, continued *)

(** A value of one of the attributes that [added_data] reports. *)
Inductive AttrValue :=
| OfErrorIgnored (v : BoolOrStr)
| OfException (e : option Exception)
| OfData (d : Data)
| OfStr (s : string)
| OfFloat (t : Q).

Definition isinstance_CalledProcessError (e : Exception) : bool :=
  match exc_class e with CalledProcessError => true | _ => false end.

Definition isinstance_FileNotFoundError (e : Exception) : bool :=
  match exc_class e with FileNotFoundError => true | _ => false end.

(** [subprocess.SubprocessError(stderr)] *)
Definition subprocess_error (stderr : string) : Exception :=
  {| exc_class := OtherException "SubprocessError"; exc_args := stderr |}.

(** [OSError(exc_value)]: its argument is the exception it is made from. *)
Definition os_error (exc_value : Exception) : Exception :=
  {| exc_class := OtherException "OSError"; exc_args := exc_args exc_value |}.

Section HandlerRest.

Context `{Runtime} `{SsdbStorageOps} `{JobBase} `{FilterBase} `{DifferBase}.
Context `{CalledProcess}.

Definition __enter__ (self : loc) : M loc := mret self.

(** [__exit__(exc_type, exc_value, tb)]; the value returned is [None]. *)
Definition __exit__ (self : loc) (exc_value : option Exception) : M (option bool) :=
  match exc_value with
  | Some e =>
      if isinstance_CalledProcessError e then
        raise (subprocess_error (called_process_stderr e))
      else if isinstance_FileNotFoundError e then raise (os_error e)
      else mret None
  | None => mret None
  end.

(** [with mgr as job_state: body job_state], [mgr] being an expression whose
    value is a job state.  The statement ends without a value ([None]) when
    [__exit__] returns true for the exception the body raised. *)
Definition with_JobState {A} (mgr : M loc) (body : loc → M A) : M (option A) :=
  self ← mgr;
  job_state ← __enter__ self;
  ((λ w,
      match body job_state w with
      | (Return a, w') => (__exit__ self None;; mret (Some a)) w'
      | (Raise e, w') =>
          (suppress ← __exit__ self (Some e);
           if default false suppress : bool then mret None else raise e) w'
      end) : M (option A)).

(** [added_data()]: a dict, in the order of its items. *)
Definition added_data (self : loc) : M (list (string * AttrValue)) :=
  s ← read_JobState self;
  mret (omap id
    [ (λ v, ("error_ignored", OfErrorIgnored v)) <$> error_ignored s;
      Some ("exception", OfException (exception s));
      (λ v, ("new_data", OfData v)) <$> new_data s;
      (λ v, ("new_etag", OfStr v)) <$> new_etag s;
      (λ v, ("new_timestamp", OfFloat v)) <$> new_timestamp s ]).

(** [JobState.is_markdown()] *)
Definition JobState_is_markdown (self : loc) : M bool :=
  s ← read_JobState self;
  mret (String.eqb (new_mime_type s) "text/markdown" || is_markdown (job s)).

End HandlerRest.

(** ** class UrlwatchCommand: finding a job *)

(** A job id or query: [Union[str, int]]. *)
Inductive JobId :=
| IdInt (i : Z)
| IdStr (s : string).

(** What a method of the command either returns or prints before it raises
    [SystemExit(code)]. *)
Inductive Exit (A : Type) :=
| Returned (a : A)
| SystemExit (printed : string) (code : Z).
Arguments Returned {A} a.
Arguments SystemExit {A} printed code.

(** [str(i)] of an integer. *)
Definition str_of_int (i : Z) : string := NilZero.string_of_int (Z.to_int i).

(** [l[index]] with Python's negative indices; [None] stands for
    [IndexError]. *)
Definition getitem_list {A} (l : list A) (index : Z) : option A :=
  if bool_decide (0 ≤ index)%Z then l !! Z.to_nat index
  else if bool_decide (- Z.of_nat (length l) ≤ index)%Z then
    l !! Z.to_nat (Z.of_nat (length l) + index)
  else None.

Definition index_error (msg : string) : Exception :=
  {| exc_class := OtherException "IndexError"; exc_args := msg |}.

Section Command.

Context `{JobFields} `{Builtins}.

(** [int(query)] *)
Definition int_of_JobId (query : JobId) : option Z :=
  match query with
  | IdInt i => Some i
  | IdStr s => int_of_str s
  end.

Definition str_of_JobId (query : JobId) : string :=
  match query with
  | IdInt i => str_of_int i
  | IdStr s => s
  end.

(** [_find_job(query)], [jobs] being [self.urlwatcher.jobs]. *)
Definition _find_job (jobs : list Job) (query : JobId) : option Job :=
  match int_of_JobId query with
  | Some index =>
      if bool_decide (index = 0) then None
      else if bool_decide (index ≤ 0)%Z then getitem_list jobs index
      else getitem_list jobs (index - 1)
  | None =>
      match query with
      | IdStr s => List.find (λ job, String.eqb (get_location job) s) jobs
      | IdInt _ => None
      end
  end.

(** [_get_job(job_id)] *)
Definition _get_job (jobs : list Job) (job_id : JobId) : Exit Job :=
  let job_id :=
    match int_of_JobId job_id with
    | Some i =>
        IdInt (if bool_decide (i < 0)%Z then Z.of_nat (length jobs) + i + 1 else i)
    | None => job_id
    end in
  match _find_job jobs job_id with
  | None => SystemExit ("Job not found: " ++ str_of_JobId job_id) 1
  | Some job => Returned (with_defaults job)
  end.

(** The job index [idx] names a job when there are [n] jobs. *)
Definition joblist_in_range (n idx : Z) : bool :=
  bool_decide (- n ≤ idx ≤ -1)%Z || bool_decide (1 ≤ idx ≤ n)%Z.

(** [list_error_jobs], the extraction of the subset of jobs to run
    (lines 599-622): the result is the new value of the configuration's
    [joblist] and the list [jobs]. *)
Definition list_error_jobs_subset (joblist : list Z) (jobs : list Job)
  : Result (list Z * list Job) :=
  let n := Z.of_nat (length jobs) in
  match joblist with
  | [] => Return ([], with_defaults <$> jobs)
  | _ =>
      match List.find (λ idx, negb (joblist_in_range n idx)) joblist with
      | Some idx =>
          Raise (index_error
                   ("Job index " ++ str_of_int idx ++ " out of range (found "
                    ++ str_of_int n ++ " jobs)."))
      | None =>
          let joblist' :=
            (λ jn, if bool_decide (jn > 0)%Z then jn else n + jn + 1) <$> joblist in
          Return
            (joblist',
             with_defaults <$> filter (λ job, index_number job ∈ joblist') jobs)
      end
  end.

End Command.

Section CommandRun.

Context `{Runtime} `{SsdbStorageOps} `{JobBase} `{FilterBase} `{DifferBase}.
Context `{CalledProcess}.

(** [test_job], the [with] block: the job, with its defaults, is run on a new
    job state of the cache; an exception that the run recorded is raised;
    else the new data is what is printed. *)
Definition test_job_run (cache_storage : SsdbStorage) (job : Job) (headless : bool)
  : M (option Data) :=
  with_JobState (JobState_init cache_storage job)
    (λ job_state,
       process job_state headless;;
       s ← read_JobState job_state;
       match exception s with
       | Some e => raise e
       | None => getattr job_state "new_data" new_data
       end).

End CommandRun.

(** ** docs: the tree of subclasses *)

(** A class that tracks its subclasses: its [__kind__] and its
    [__subclasses__()]. *)
#[warnings="-register-all"]
Inductive TrackSubClasses :=
| Klass (__kind__ : string) (__subclasses__ : list TrackSubClasses).

Definition __kind__ (klass : TrackSubClasses) : string :=
  match klass with Klass kind _ => kind end.

Definition __subclasses__ (klass : TrackSubClasses) : list TrackSubClasses :=
  match klass with Klass _ subs => subs end.

(** [s * n] *)
Definition str_mul (s : string) (n : Z) : string :=
  Nat.iter (Z.to_nat n) (String.append s) "".

(** [build_tree(klass, level)]: the lines the generator yields. *)
Fixpoint build_tree (klass : TrackSubClasses) (level : Z) {struct klass} : list string :=
  match klass with
  | Klass _ subclasses =>
      (fix enumerate (i : nat) (rest : list TrackSubClasses) {struct rest} : list string :=
         match rest with
         | [] => []
         | kls :: rest' =>
             let branch :=
               if bool_decide (i + 1 = length subclasses)%nat then "└───" else "├───" in
             let indent := str_mul "│   " (level - 1) in
             ((if bool_decide (level = 0) then "" else indent ++ branch) ++ __kind__ kls)
               :: (build_tree kls (level + 1) ++ enumerate (S i) rest')%list
         end) 0%nat subclasses
  end.

(** ** Vocabulary of the further properties *)

(** Every run of [m] relates the state it starts in to the state it leaves,
    whatever the outcome. *)
Definition steps {A} (R : relation World) (m : M A) : Prop :=
  ∀ w, R w (m w).2.

Definition is_SsdbSave (ev : Event) : bool :=
  match ev with SsdbSave _ _ _ => true | _ => false end.

(** What the statements of [process] on [self] leave as they found it, the
    collaborators being read here as functions of the state that change
    nothing: every other object, the attributes of [self] that [process]
    does not assign, the environment and the class-level containers; [save]
    of the store is not among the calls made. *)
Record process_frame (self : loc) (w w1 : World) : Prop := {
  frame_grows : (length (heap w) ≤ length (heap w1))%nat;
  frame_others : ∀ l o, l ≠ self → heap w !! l = Some o → heap w1 !! l = Some o;
  frame_self : ∀ s, heap w !! self = Some (ObjJobState s) →
    ∃ s1, heap w1 !! self = Some (ObjJobState s1) ∧
          job s1 = job s ∧ snapshots_db s1 = snapshots_db s ∧
          generated_diff s1 = generated_diff s ∧
          unfiltered_diff s1 = unfiltered_diff s ∧ verb s1 = verb s;
  frame_environ : environ w1 = environ w;
  frame_class :
    JobState_history_dic_snapshots w1 = JobState_history_dic_snapshots w ∧
    JobState_unfiltered_diff w1 = JobState_unfiltered_diff w ∧
    Report_job_states w1 = Report_job_states w;
  frame_events : ∃ evs, events w1 = (events w ++ evs)%list ∧
                        Forall (λ ev, is_SsdbSave ev = false) evs
}.

(** The job state [s0] is [s] with the snapshot [snap] unpacked into it, as
    [load] does. *)
Definition unpacked (snap : Snapshot) (s s0 : JobState) : Prop :=
  old_snapshot s0 = snap ∧ old_data s0 = data snap ∧
  old_timestamp s0 = timestamp snap ∧ tries s0 = snap_tries snap ∧
  old_etag s0 = etag snap ∧ old_mime_type s0 = mime_type snap ∧
  new_data s0 = new_data s ∧ new_etag s0 = new_etag s ∧
  new_mime_type s0 = new_mime_type s ∧ new_timestamp s0 = new_timestamp s ∧
  exception s0 = exception s ∧ job s0 = job s.

(** [self.job.compared_versions and self.job.compared_versions > 1] *)
Definition wants_history (j : Job) : bool :=
  match compared_versions j with
  | Some n => bool_decide (n ≠ 0) && bool_decide (n > 1)
  | None => false
  end.

(** The attributes that [load] copies out of [old_snapshot] are those of
    [old_snapshot]. *)
Definition consistent (s : JobState) : Prop :=
  old_data s = data (old_snapshot s) ∧
  old_timestamp s = timestamp (old_snapshot s) ∧
  old_etag s = etag (old_snapshot s) ∧
  old_mime_type s = mime_type (old_snapshot s).

Definition keeps_consistent (self : loc) (w w1 : World) : Prop :=
  (∀ s, heap w !! self = Some (ObjJobState s) → consistent s) →
  ∀ s1, heap w1 !! self = Some (ObjJobState s1) → consistent s1.

(** The snapshot of the last [save] made under a guid, in a log of calls. *)
Fixpoint last_saved (db : SsdbStorage) (guid : string) (evs : list Event)
  : option Snapshot :=
  match evs with
  | [] => None
  | ev :: evs' =>
      match last_saved db guid evs' with
      | Some snapshot => Some snapshot
      | None =>
          match ev with
          | SsdbSave db' guid' snapshot =>
              if bool_decide (db' = db ∧ guid' = guid) then Some snapshot else None
          | _ => None
          end
      end
  end.

(** The job state has a verb, and the verb is not one for which
    [get_filtered_job_states] asks for the diff. *)
Definition needs_no_diff (r : Report) (w : World) (job_state : loc) : Prop :=
  ∃ v, verb_of w job_state = Some v ∧
       (v = "changed" → display_empty_diff (display (config r)) = true).

Section MoreVocabulary.

Context `{Runtime} `{SsdbStorageOps} `{JobBase} `{FilterBase} `{DifferBase}.

(** The state in which the store's [load] is called. *)
Definition world_at_load (s : JobState) (w : World) : World :=
  set_events (events w ++ [SsdbLoad (snapshots_db s) (get_guid (job s))]) w.

(** The state in which the differ is called. *)
Definition world_at_differ (self : loc) (differ_kind report_kind : string) (w : World)
  : World :=
  set_events (events w ++ [DifferProcess differ_kind self report_kind]) w.

(** The second half of [get_diff] on an unfiltered diff [v]: the diff_filters
    are applied to a non-empty one, an empty one is left as it is. *)
Definition diff_filtered (w : World) (self : loc) (j : Job) (v : Data) : Result Data :=
  if truthy_Data v then
    match
      filtered w self (normalize_filter_list (job_diff_filter j) (index_number j))
        v "text/plain"
    with
    | Return r => Return r.1
    | Raise e => Raise e
    end
  else Return v.

(** The generator is about to read the diff of the job state: its verb is
    [changed] and empty diffs are not displayed. *)
Definition asks_for_diff (r : Report) (w : World) (job_state : loc) : bool :=
  match verb_of w job_state with
  | Some v => String.eqb v "changed" && negb (display_empty_diff (display (config r)))
  | None => false
  end.

(** The job states of a list that are [reportable], each judged in the state
    in which the list, read in order, reaches it: a job state whose diff is
    asked for has it computed then, by [get_diff] for the text report and
    with the report's timezone, and the next job state is judged in the
    state that this leaves.  The second component is the state at the end. *)
Fixpoint selected (r : Report) (w : World) (job_states' : list loc) : list loc * World :=
  match job_states' with
  | [] => ([], w)
  | job_state :: rest =>
      let w' :=
        if asks_for_diff r w job_state
        then (get_diff job_state "text" None (tz r) w).2
        else w in
      let '(ys, w1) := selected r w' rest in
      (if reportable r w job_state then job_state :: ys else ys, w1)
  end.

End MoreVocabulary.

(** The [__kind__] of every class below [klass], in the order in which
    [build_tree] visits them. *)
Fixpoint kinds_below (klass : TrackSubClasses) : list string :=
  match klass with
  | Klass _ subclasses =>
      (fix each (rest : list TrackSubClasses) : list string :=
         match rest with
         | [] => []
         | kls :: rest' => (__kind__ kls :: kinds_below kls ++ each rest')%list
         end) subclasses
  end.

(** ** More concrete collaborators

    A store that keeps what was saved, a store that cannot be read, a job
    whose errors are ignored, a differ that makes text diffs only, and what
    the command and the documentation tool work on. *)
Module Demo2.

Definition called_process : CalledProcess :=
  {| called_process_stderr := λ e, "stderr of " ++ exc_args e |}.

Definition command_failed : Exception :=
  {| exc_class := CalledProcessError; exc_args := "grep" |}.

Definition file_not_found : Exception :=
  {| exc_class := FileNotFoundError; exc_args := "jobs.yaml" |}.

Definition empty_snapshot : Snapshot :=
  {| data := Str ""; timestamp := 0; snap_tries := 0; etag := "";
     mime_type := "text/plain" |}.

(** Every snapshot saved under a guid, the oldest first. *)
Definition saved (db : SsdbStorage) (guid : string) (evs : list Event) : list Snapshot :=
  omap
    (λ ev,
       match ev with
       | SsdbSave db' guid' snapshot =>
           if bool_decide (db' = db ∧ guid' = guid) then Some snapshot else None
       | _ => None
       end) evs.

Definition ssdb_log : SsdbStorageOps :=
  {| ssdb_load := λ w db guid,
       Return (default empty_snapshot (last_saved db guid (events w)));
     ssdb_get_history_snapshots := λ w db guid count,
       Return (take (Z.to_nat count) (reverse (saved db guid (events w))));
     ssdb_save := λ _ _ _ _, Return tt |}.

Definition database_error : Exception :=
  {| exc_class := OtherException "OperationalError";
     exc_args := "unable to open database file" |}.

Definition ssdb_broken : SsdbStorageOps :=
  {| ssdb_load := λ _ _ _, Raise database_error;
     ssdb_get_history_snapshots := λ _ _ _ _, Raise database_error;
     ssdb_save := λ _ _ _ _, Raise database_error |}.

(** Jobs that fail and whose [ignore_error] tells to ignore the failure. *)
Definition jobs_ignoring : JobBase :=
  {| get_guid := λ j, "guid";
     retrieve := λ _ _ _ _, Raise (Demo.value_error "connection reset");
     format_error := λ _ _ tb, Return tb;
     ignore_error := λ _ _, Return (IsStr "ignore_connection_errors") |}.

(** Jobs that get "not modified" and have a hook that fails: [ignore_error]
    of job 1 raises, [format_error] of job 2 raises on a "not modified". *)
Definition jobs_hooks_fail : JobBase :=
  {| get_guid := λ j, "guid";
     retrieve := λ _ _ _ _, Raise Demo.not_modified;
     format_error := λ j e tb,
       if bool_decide (index_number j = 2) && isinstance_NotModifiedError e
       then Raise (Demo.type_error "format_error")
       else Return tb;
     ignore_error := λ j e,
       if bool_decide (index_number j = 1) then Raise (Demo.type_error "ignore_error")
       else Return (IsBool false) |}.

(** A differ that returns the text diff alone, whatever the report kind. *)
Definition differs_text_only : DifferBase :=
  {| normalize_differ := λ _ _, Return ("unified", []);
     differ_process := λ w _ _ self _ _ _,
       Return (<["text" := Demo.diff_of w self]> ∅) |}.

Definition history_job : Job :=
  {| index_number := 1; compared_versions := Some 3;
     job_filter := []; job_diff_filter := [];
     job_differ := None; is_markdown := false |}.

Definition snapshot_of (content : string) (t : Z) : Snapshot :=
  {| data := Str content; timestamp := inject_Z t; snap_tries := 0; etag := "";
     mime_type := "text/plain" |}.

Definition job_fields : JobFields :=
  {| get_location := λ j, "https://example.com/" ++ str_of_int (index_number j);
     with_defaults := λ j,
       {| index_number := index_number j;
          compared_versions := compared_versions j;
          job_filter := job_filter j;
          job_diff_filter := job_diff_filter j;
          job_differ := Some (default [("name", "unified")] (job_differ j));
          is_markdown := is_markdown j |} |}.

Definition builtins : Builtins :=
  {| int_of_str := λ s, Z.of_int <$> NilZero.int_of_string s |}.

Definition dict_at (w : World) (l : loc) : gmap string Data :=
  match heap w !! l with
  | Some (ObjDict d) => d
  | _ => ∅
  end.

Definition three_jobs : list Job := [Demo.the_job 1; Demo.the_job 2; Demo.the_job 3].

Definition job_classes : TrackSubClasses :=
  Klass "job"
    [Klass "url" [Klass "browser" []; Klass "api" []]; Klass "command" []].

End Demo2.

(** * Properties *)

(** ** How the primitive steps run *)

Section Execution.

Context `{Runtime} `{SsdbStorageOps} `{JobBase} `{FilterBase} `{DifferBase}.

Lemma bind_run {A B} (m : M A) (f : A → M B) (w : World) :
  (m ≫= f) w =
  match m w with
  | (Return a, w') => f a w'
  | (Raise e, w') => (Raise e, w')
  end.
Proof. reflexivity. Qed.

Lemma bind_Return {A B} (m : M A) (f : A → M B) w a w' :
  m w = (Return a, w') → (m ≫= f) w = f a w'.
Proof. intros E. rewrite bind_run, E. reflexivity. Qed.

Lemma bind_Raise {A B} (m : M A) (f : A → M B) w e w' :
  m w = (Raise e, w') → (m ≫= f) w = (Raise e, w').
Proof. intros E. rewrite bind_run, E. reflexivity. Qed.

Lemma bind_Return_inv {A B} (m : M A) (f : A → M B) w b w2 :
  (m ≫= f) w = (Return b, w2) →
  ∃ a w1, m w = (Return a, w1) ∧ f a w1 = (Return b, w2).
Proof.
  rewrite bind_run. destruct (m w) as [[a|e] w1]; intros E.
  - eauto.
  - discriminate.
Qed.

Lemma heap_store_eq w l o o' :
  heap w !! l = Some o → heap (store l o' w) !! l = Some o'.
Proof.
  intros E. simpl. apply list_lookup_insert_eq. eapply lookup_lt_Some, E.
Qed.

Lemma heap_store_ne w l l' o :
  l ≠ l' → heap (store l o w) !! l' = heap w !! l'.
Proof. intros E. simpl. by apply list_lookup_insert_ne. Qed.

Lemma store_store w l o1 o2 : store l o2 (store l o1 w) = store l o2 w.
Proof. unfold store, set_heap. simpl. by rewrite list_insert_insert_eq. Qed.

Lemma length_heap_store w l o : length (heap (store l o w)) = length (heap w).
Proof. simpl. apply length_insert. Qed.

Lemma read_JobState_run w self s :
  heap w !! self = Some (ObjJobState s) → read_JobState self w = (Return s, w).
Proof. intros E. unfold read_JobState. by rewrite E. Qed.

Lemma update_JobState_run w self s f :
  heap w !! self = Some (ObjJobState s) →
  update_JobState self f w = (Return tt, store self (ObjJobState (f s)) w).
Proof. intros E. unfold update_JobState. by rewrite E. Qed.

Lemma getattr_run {A} w self s name (proj : JobState → option A) a :
  heap w !! self = Some (ObjJobState s) → proj s = Some a →
  getattr self name proj w = (Return a, w).
Proof.
  intros E P. unfold getattr. rewrite (bind_Return _ _ _ _ _ (read_JobState_run _ _ _ E)).
  by rewrite P.
Qed.

Lemma read_dict_run w l d :
  heap w !! l = Some (ObjDict d) → read_dict l w = (Return d, w).
Proof. intros E. unfold read_dict. by rewrite E. Qed.

Lemma update_dict_run w l d f :
  heap w !! l = Some (ObjDict d) →
  update_dict l f w = (Return tt, store l (ObjDict (f d)) w).
Proof. intros E. unfold update_dict. by rewrite E. Qed.

Lemma run_mret {A B} (a : A) (f : A → M B) w : (mret a ≫= f) w = f a w.
Proof. reflexivity. Qed.

Lemma run_read {B} w self s (f : JobState → M B) :
  heap w !! self = Some (ObjJobState s) → (read_JobState self ≫= f) w = f s w.
Proof. intros E. by rewrite (bind_Return _ _ _ _ _ (read_JobState_run _ _ _ E)). Qed.

Lemma run_update {B} w self s g (f : unit → M B) :
  heap w !! self = Some (ObjJobState s) →
  (update_JobState self g ≫= f) w = f tt (store self (ObjJobState (g s)) w).
Proof. intros E. by rewrite (bind_Return _ _ _ _ _ (update_JobState_run _ _ _ _ E)). Qed.

Lemma run_getattr {A B} w self s name (proj : JobState → option A) a (f : A → M B) :
  heap w !! self = Some (ObjJobState s) → proj s = Some a →
  (getattr self name proj ≫= f) w = f a w.
Proof. intros E P. by rewrite (bind_Return _ _ _ _ _ (getattr_run _ _ _ _ _ _ E P)). Qed.

Lemma run_get_world {B} w (f : World → M B) : (get_world ≫= f) w = f w w.
Proof. reflexivity. Qed.

Lemma run_emit {B} w ev (f : unit → M B) :
  (emit ev ≫= f) w = f tt (set_events (events w ++ [ev]) w).
Proof. reflexivity. Qed.

Lemma run_time_time {B} w (f : Q → M B) :
  (time_time ≫= f) w = f (wall_clock (clock w)) (set_clock (S (clock w)) w).
Proof. reflexivity. Qed.

Lemma run_lift_Return {A B} (r : Result A) a w (f : A → M B) :
  r = Return a → (lift r ≫= f) w = f a w.
Proof. by intros ->. Qed.

Lemma run_lift_Raise {A B} (r : Result A) e w (f : A → M B) :
  r = Raise e → (lift r ≫= f) w = (Raise e, w).
Proof. by intros ->. Qed.

Lemma bind_assoc {A B C} (m : M A) (f : A → M B) (g : B → M C) w :
  ((m ≫= f) ≫= g) w = (m ≫= (λ a, f a ≫= g)) w.
Proof. rewrite !bind_run. by destruct (m w) as [[a|e] w']. Qed.

Lemma run_alloc {B} w o (f : loc → M B) :
  (alloc o ≫= f) w = f (length (heap w)) (set_heap (heap w ++ [o]) w).
Proof. reflexivity. Qed.

Lemma apply_filters_run w self fs d m :
  apply_filters self fs d m w = (filter_chain w self fs d m, w).
Proof.
  revert d m. induction fs as [|[k sub] fs IH]; intros d m; [done|].
  simpl. rewrite run_get_world.
  destruct (filter_process w k sub self d m) as [[d' m']|e] eqn:E.
  - rewrite (run_lift_Return _ _ w _ eq_refl). apply IH.
  - by rewrite (run_lift_Raise _ _ w _ eq_refl).
Qed.

Lemma for_filters_run w self it d m :
  for_filters self it d m w = (filtered w self it d m, w).
Proof.
  unfold for_filters, filtered. rewrite bind_run, apply_filters_run.
  destruct (filter_chain w self it.1 d m) as [r|e]; [|done].
  by destruct it.2.
Qed.

Lemma run_for_filters {B} w self it d m (f : Data * string → M B) :
  (for_filters self it d m ≫= f) w =
  match filtered w self it d m with
  | Return r => f r w
  | Raise e => (Raise e, w)
  end.
Proof. by rewrite bind_run, for_filters_run. Qed.

Lemma run_for_filters_Return {B} w self it d m r (f : Data * string → M B) :
  filtered w self it d m = Return r → (for_filters self it d m ≫= f) w = f r w.
Proof. intros E. by rewrite run_for_filters, E. Qed.

Lemma run_for_filters_Raise {B} w self it d m e (f : Data * string → M B) :
  filtered w self it d m = Raise e → (for_filters self it d m ≫= f) w = (Raise e, w).
Proof. intros E. by rewrite run_for_filters, E. Qed.

Lemma run_os_getenv {B} w name (f : option string → M B) :
  (os_getenv name ≫= f) w = f (environ w !! name) w.
Proof. reflexivity. Qed.

Lemma try_except_Return {A} (body : M A) handler w a w' :
  body w = (Return a, w') → try_except body handler w = (Return a, w').
Proof. intros E. unfold try_except. by rewrite E. Qed.

Lemma try_except_Raise {A} (body : M A) handler w e w' :
  body w = (Raise e, w') → try_except body handler w = handler e w'.
Proof. intros E. unfold try_except. by rewrite E. Qed.

Lemma run_is_new_dict {B} w g (f : bool → M B) :
  (is_new_dict g ≫= f) w = f (bool_decide (g = length (heap w))) w.
Proof. reflexivity. Qed.

Lemma run_getattr_unfiltered_diff {B} w self s (f : loc → M B) :
  heap w !! self = Some (ObjJobState s) →
  (getattr_unfiltered_diff self ≫= f) w =
  f (default (JobState_unfiltered_diff w) (unfiltered_diff s)) w.
Proof.
  intros E. unfold getattr_unfiltered_diff. rewrite bind_assoc.
  by rewrite (run_read _ _ _ _ E).
Qed.

Lemma run_read_dict {B} w l d (f : gmap string Data → M B) :
  heap w !! l = Some (ObjDict d) → (read_dict l ≫= f) w = f d w.
Proof. intros E. by rewrite (bind_Return _ _ _ _ _ (read_dict_run _ _ _ E)). Qed.

Lemma run_update_dict {B} w l d g (f : unit → M B) :
  heap w !! l = Some (ObjDict d) →
  (update_dict l g ≫= f) w = f tt (store l (ObjDict (g d)) w).
Proof. intros E. by rewrite (bind_Return _ _ _ _ _ (update_dict_run _ _ _ _ E)). Qed.

Lemma getitem_run w (d : gmap string Data) key v :
  d !! key = Some v → getitem d key w = (Return v, w).
Proof. intros E. unfold getitem. by rewrite E. Qed.

(* --- inversion lemmas --- *)
Lemma read_JobState_inv w self s w' :
  read_JobState self w = (Return s, w') →
  w' = w ∧ heap w !! self = Some (ObjJobState s).
Proof.
  unfold read_JobState. destruct (heap w !! self) as [[]|]; intros [=]; by subst.
Qed.

Lemma getattr_inv {A} w self name (proj : JobState → option A) a w' :
  getattr self name proj w = (Return a, w') →
  w' = w ∧ ∃ s, heap w !! self = Some (ObjJobState s) ∧ proj s = Some a.
Proof.
  unfold getattr. intros (s & w1 & Hr & Hk)%bind_Return_inv.
  apply read_JobState_inv in Hr as [-> E].
  destruct (proj s) eqn:P; [|discriminate].
  injection Hk as <- <-. eauto.
Qed.

Lemma getattr_unfiltered_diff_inv w self u w' :
  getattr_unfiltered_diff self w = (Return u, w') →
  w' = w ∧ ∃ s, heap w !! self = Some (ObjJobState s) ∧
                u = default (JobState_unfiltered_diff w) (unfiltered_diff s).
Proof.
  unfold getattr_unfiltered_diff. intros (s & w1 & Hr & Hk)%bind_Return_inv.
  apply read_JobState_inv in Hr as [-> E].
  injection Hk as <- <-. eauto.
Qed.

Lemma read_dict_inv w l d w' :
  read_dict l w = (Return d, w') → w' = w ∧ heap w !! l = Some (ObjDict d).
Proof.
  unfold read_dict. destruct (heap w !! l) as [[]|]; intros [=]; by subst.
Qed.

Lemma update_dict_inv w l g u w' :
  update_dict l g w = (Return u, w') →
  ∃ d, heap w !! l = Some (ObjDict d) ∧ w' = store l (ObjDict (g d)) w.
Proof.
  unfold update_dict. destruct (heap w !! l) as [[]|]; intros [=]; subst; eauto.
Qed.

Lemma getitem_inv w (d : gmap string Data) key v w' :
  getitem d key w = (Return v, w') → w' = w ∧ d !! key = Some v.
Proof.
  unfold getitem. destruct (d !! key); intros [=]; by subst.
Qed.

Lemma run_read_Report {B} w self r (f : Report → M B) :
  heap w !! self = Some (ObjReport r) → (read_Report self ≫= f) w = f r w.
Proof. intros E. rewrite bind_run. unfold read_Report. by rewrite E. Qed.

Lemma display_getitem_unchanged d :
  display_getitem d "unchanged" = mret (display_unchanged d).
Proof. reflexivity. Qed.

Lemma display_getitem_new d : display_getitem d "new" = mret (display_new d).
Proof. reflexivity. Qed.

Lemma display_getitem_error d : display_getitem d "error" = mret (display_error d).
Proof. reflexivity. Qed.

Lemma display_getitem_empty_diff d :
  display_getitem d "empty-diff" = mret (display_empty_diff d).
Proof. reflexivity. Qed.

Lemma insert_at_length {A} (l k : list A) (x y : A) :
  <[List.length l := y]> (l ++ x :: k)%list = (l ++ y :: k)%list.
Proof.
  rewrite insert_app_r_alt by lia. by rewrite Nat.sub_diag.
Qed.

End Execution.

(** Symbolic execution of a method body, one primitive step at a time. *)
Ltac heap_lt :=
  repeat first [rewrite length_insert | rewrite length_app]; simpl;
  eapply Nat.lt_le_trans; [eapply lookup_lt_Some; eassumption | lia].

Ltac lookup :=
  simpl;
  repeat first
    [ rewrite list_lookup_insert_eq by heap_lt
    | rewrite lookup_app_l by heap_lt ];
  first [ eassumption | reflexivity ].

Ltac run1 :=
  match goal with
  | |- context [((?m ≫= ?f) ≫= ?g) ?w] => rewrite (bind_assoc m f g w)
  | |- context [(mret ?a ≫= ?f) ?w] => rewrite (run_mret a f w)
  | |- context [(get_world ≫= ?f) ?w] => rewrite (run_get_world w f)
  | |- context [(emit ?ev ≫= ?f) ?w] => rewrite (run_emit w ev f)
  | |- context [(time_time ≫= ?f) ?w] => rewrite (run_time_time w f)
  | |- context [(read_JobState ?self ≫= ?f) ?w] =>
      erewrite (run_read w self _ f) by lookup
  | |- context [(update_JobState ?self ?g ≫= ?f) ?w] =>
      erewrite (run_update w self _ g f) by lookup
  | |- context [(getattr ?self ?n ?p ≫= ?f) ?w] =>
      erewrite (run_getattr w self _ n p _ f) by lookup
  | |- context [update_JobState ?self ?g ?w] =>
      erewrite (update_JobState_run w self _ g) by lookup
  | |- context [read_JobState ?self ?w] =>
      erewrite (read_JobState_run w self _) by lookup
  end; cbv beta iota.

Ltac run := repeat run1.

(** A step whose outcome an equation in the context tells. *)
Ltac run_known :=
  match goal with
  | |- context [(lift ?r ≫= ?f) ?w] =>
      first [ erewrite (run_lift_Return r _ w f) by (first [eassumption | reflexivity])
            | erewrite (run_lift_Raise r _ w f) by (first [eassumption | reflexivity]) ]
  | |- context [(for_filters ?self ?it ?d ?m ≫= ?f) ?w] =>
      first [ erewrite (run_for_filters_Return w self it d m _ f) by eassumption
            | erewrite (run_for_filters_Raise w self it d m _ f) by eassumption ]
  end; cbv beta iota.

(** A call to a collaborator whose outcome is not known: both cases. *)
Ltac run_lift :=
  match goal with
  | |- context [(lift ?r ≫= ?f) ?w] =>
      let E := fresh "E" in
      destruct r as [?|?] eqn:E;
      [ rewrite (run_lift_Return _ _ w f eq_refl)
      | rewrite (run_lift_Raise _ _ w f eq_refl) ]
  | |- context [let '(_, _) := ?a in _] => is_var a; destruct a
  end; cbv beta iota.

(** Steps that read the report and its configuration. *)
Ltac run_report :=
  repeat first
    [ run1
    | match goal with
      | |- context [(read_Report ?self ≫= ?f) ?w] =>
          erewrite (run_read_Report w self _ f) by eassumption; cbv beta iota
      end
    | rewrite display_getitem_unchanged
    | rewrite display_getitem_new
    | rewrite display_getitem_error
    | rewrite display_getitem_empty_diff ].

Section Properties.

Context `{Runtime} `{SsdbStorageOps} `{JobBase} `{FilterBase} `{DifferBase}.

(** ** Persistence *)

(** C6. [save(use_old_data)] on a job state [s] whose attributes to be saved
    exist: with [use_old_data] the job state first becomes
    [copied_old_data s]; then, in both cases, the store is asked to save,
    under the job's GUID, the snapshot made of the then current [new_data],
    [new_timestamp], [tries], [new_etag] and [new_mime_type]; the call to the
    store is the last thing that happens and its outcome is that of [save]. *)
Theorem save_writes_current_snapshot w self s (use_old_data : bool) snap :
  heap w !! self = Some (ObjJobState s) →
  let s' := if use_old_data then copied_old_data s else s in
  current_snapshot s' = Some snap →
  let w' :=
    set_events (events w ++ [SsdbSave (snapshots_db s) (get_guid (job s)) snap])
      (if use_old_data then store self (ObjJobState s') w else w) in
  save self use_old_data w =
    (ssdb_save w' (snapshots_db s) (get_guid (job s)) snap, w').
Proof.
  intros E s' Hsnap w'. unfold current_snapshot in Hsnap.
  destruct (new_data s') as [d|] eqn:Hd; [|discriminate].
  destruct (new_timestamp s') as [t|] eqn:Ht; [|discriminate].
  destruct (new_etag s') as [e|] eqn:He; [|discriminate].
  simpl in Hsnap. injection Hsnap as <-.
  unfold save. destruct use_old_data; run.
  - rewrite !store_store. reflexivity.
  - reflexivity.
Qed.

(** ** The execution pipeline *)

Lemma load_inv w self s r w0 :
  heap w !! self = Some (ObjJobState s) →
  load self w = (r, w0) →
  ∃ s0, heap w0 !! self = Some (ObjJobState s0) ∧
        job s0 = job s ∧ exception s0 = exception s ∧ environ w0 = environ w ∧
        (∀ u, r = Return u → tries s0 = snap_tries (old_snapshot s0)).
Proof.
  intros E. unfold load. run. run_lift.
  - run. destruct (compared_versions (job s)) as [n|].
    + destruct (bool_decide (n ≠ 0) && bool_decide (n > 1)).
      * run. run_lift.
        -- rewrite run_alloc. cbv beta. run.
           intros [= <- <-]. eexists. split; [lookup|]. by simpl.
        -- intros [= <- <-]. eexists. split; [lookup|]. by simpl.
      * intros [= <- <-]. eexists. split; [lookup|]. by simpl.
    + intros [= <- <-]. eexists. split; [lookup|]. by simpl.
  - intros [= <- <-]. eexists. split; [lookup|]. by simpl.
Qed.

Lemma process_try_loaded w self headless w0 s0 :
  load self w = (Return tt, w0) →
  heap w0 !! self = Some (ObjJobState s0) →
  ∃ w1 s1,
    process_try self headless w =
      (match retrieved_and_filtered self headless s0 w0 with
       | Return _ => Return tt
       | Raise e => Raise e
       end, w1) ∧
    heap w1 !! self = Some (ObjJobState s1) ∧
    job s1 = job s0 ∧ exception s1 = exception s0 ∧ tries s1 = tries s0 ∧
    old_snapshot s1 = old_snapshot s0 ∧ environ w1 = environ w0 ∧
    ∀ d e m, retrieved_and_filtered self headless s0 w0 = Return (d, e, m) →
      new_data s1 = Some d ∧ new_etag s1 = Some e ∧ new_mime_type s1 = m.
Proof.
  intros Hload E0. unfold process_try. rewrite (bind_Return _ _ _ _ _ Hload).
  unfold retrieved_and_filtered, world_at_filters, world_at_retrieve.
  destruct (retrieve _ _ _ _) as [[[dat etg] mime]|e] eqn:Er.
  - destruct (auto_process _ _ _ _) as [[d0 m0]|e] eqn:Ea.
    + destruct (filtered _ _ _ _ _) as [[fd fm]|e] eqn:Ef.
      * repeat first [run1 | run_known].
        eexists _, _. split; [reflexivity|]. split; [lookup|]. simpl.
        split_and!; try done. by intros ? ? ? [= <- <- <-].
      * repeat first [run1 | run_known].
        eexists _, _. split; [reflexivity|]. split; [lookup|]. by simpl.
    + repeat first [run1 | run_known].
      eexists _, _. split; [reflexivity|]. split; [lookup|]. by simpl.
  - repeat first [run1 | run_known].
    eexists _, _. split; [reflexivity|]. split; [lookup|]. by simpl.
Qed.

Lemma process_try_frame w self s headless r w1 :
  heap w !! self = Some (ObjJobState s) →
  process_try self headless w = (r, w1) →
  ∃ s1, heap w1 !! self = Some (ObjJobState s1) ∧ job s1 = job s ∧
        exception s1 = exception s ∧ environ w1 = environ w ∧
        ∀ w0, load self w = (Return tt, w0) → tries s1 = snap_tries (old_snapshot s1).
Proof.
  intros E Hrun. destruct (load self w) as [[[]|e] w0] eqn:Hload.
  - destruct (load_inv _ _ _ _ _ E Hload) as (s0 & E0 & Hjob & Hexc & Henv & Htries).
    destruct (process_try_loaded _ _ headless _ _ Hload E0)
      as (w1' & s1 & Hrun' & E1 & Hjob1 & Hexc1 & Htries1 & Hold1 & Henv1 & _).
    rewrite Hrun in Hrun'. apply (f_equal snd) in Hrun'. simpl in Hrun'. subst w1'.
    exists s1. split_and!; [done|congruence..|].
    intros _ _. rewrite Htries1, Hold1. by eapply Htries.
  - destruct (load_inv _ _ _ _ _ E Hload) as (s0 & E0 & Hjob & Hexc & Henv & _).
    unfold process_try in Hrun. rewrite (bind_Raise _ _ _ _ _ Hload) in Hrun.
    apply (f_equal snd) in Hrun. simpl in Hrun. subst w1.
    exists s0. split_and!; [done..|]. intros ? [=].
Qed.

Lemma process_except_inner_run w self s e :
  heap w !! self = Some (ObjJobState s) →
  ∃ w' s',
    process_except_inner self e w =
      (match job_hooks (job s) e with
       | Return _ => Return tt
       | Raise e' => Raise e'
       end, w') ∧
    heap w' !! self = Some (ObjJobState s') ∧
    job s' = job s ∧ environ w' = environ w ∧ old_snapshot s' = old_snapshot s ∧
    exception s' = Some e ∧
    match job_hooks (job s) e with
    | Return (tb, ig) =>
        traceback s' = Some tb ∧ error_ignored s' = Some ig ∧
        tries s' =
          if truthy_BoolOrStr ig || isinstance_NotModifiedError e
          then tries s else tries s + 1
    | Raise _ => tries s' = tries s
    end.
Proof.
  intros E. unfold process_except_inner, job_hooks.
  destruct (format_error _ _ _) as [tb|e'] eqn:Ef.
  - destruct (ignore_error _ _) as [ig|e'] eqn:Ei.
    + repeat first [run1 | run_known].
      destruct (truthy_BoolOrStr ig || isinstance_NotModifiedError e); simpl; run.
      * eexists _, _. split; [reflexivity|]. split; [lookup|]. by simpl.
      * eexists _, _. split; [reflexivity|]. split; [lookup|]. by simpl.
    + repeat first [run1 | run_known].
      eexists _, _. split; [reflexivity|]. split; [lookup|]. by simpl.
  - repeat first [run1 | run_known].
    eexists _, _. split; [reflexivity|]. split; [lookup|]. by simpl.
Qed.

Lemma process_except_outer_hosted w self e :
  truthy_getenv (environ w !! "PYCHARM_HOSTED") = true →
  process_except_outer self e w = (Raise e, w).
Proof. intros Henv. unfold process_except_outer. by rewrite run_os_getenv, Henv. Qed.

Lemma process_except_outer_run w self s e tb :
  heap w !! self = Some (ObjJobState s) →
  truthy_getenv (environ w !! "PYCHARM_HOSTED") = false →
  format_error (job s) e (format_exc e) = Return tb →
  ∃ w' s',
    process_except_outer self e w = (Return tt, w') ∧
    heap w' !! self = Some (ObjJobState s') ∧
    exception s' = Some e ∧ traceback s' = Some tb ∧
    error_ignored s' = Some (IsBool false) ∧
    tries s' = (if isinstance_NotModifiedError e then tries s else tries s + 1) ∧
    old_snapshot s' = old_snapshot s.
Proof.
  intros E Henv Ef. unfold process_except_outer. rewrite run_os_getenv, Henv.
  repeat first [run1 | run_known].
  destruct (isinstance_NotModifiedError e); simpl; run.
  - eexists _, _. split; [reflexivity|]. split; [lookup|]. by simpl.
  - eexists _, _. split; [reflexivity|]. split; [lookup|]. by simpl.
Qed.

Lemma process_except_outer_not_modified w self s e r w' :
  heap w !! self = Some (ObjJobState s) →
  isinstance_NotModifiedError e = true →
  process_except_outer self e w = (r, w') →
  ∃ s', heap w' !! self = Some (ObjJobState s') ∧ tries s' = tries s ∧
        old_snapshot s' = old_snapshot s.
Proof.
  intros E Hnm. unfold process_except_outer. rewrite run_os_getenv.
  destruct (truthy_getenv _).
  - intros [= <- <-]. by exists s.
  - run. destruct (format_error _ _ _) as [tb|e'] eqn:Ef.
    + repeat first [run1 | run_known]. rewrite Hnm. simpl. unfold mret, M_ret.
      intros [= <- <-]. eexists. split; [lookup|]. by simpl.
    + repeat first [run1 | run_known].
      intros [= <- <-]. eexists. split; [lookup|]. by simpl.
Qed.

Lemma process_run w self s headless :
  heap w !! self = Some (ObjJobState s) → exception s = None →
  process self headless w =
    (try_except
       (try_except (process_try self headless) (process_except_inner self))
       (process_except_outer self) ≫= λ _, mret self) w.
Proof. intros E Hexc. unfold process. run. by rewrite Hexc. Qed.


(** C3. When the job state has no exception at entry, [load] succeeds, and
    the retrieval, the automatic filter and every filter of the chain succeed
    with the filtered data [d] and mime type [m], [process] returns [self]
    with [exception] still [None], [tries] equal to [old_snapshot.tries], and
    [new_data] and [new_mime_type] equal to [d] and [m]. *)
Theorem process_success w self s headless w0 s0 d e m :
  heap w !! self = Some (ObjJobState s) → exception s = None →
  load self w = (Return tt, w0) → heap w0 !! self = Some (ObjJobState s0) →
  retrieved_and_filtered self headless s0 w0 = Return (d, e, m) →
  ∃ w1 s1,
    process self headless w = (Return self, w1) ∧
    heap w1 !! self = Some (ObjJobState s1) ∧
    exception s1 = None ∧
    tries s1 = snap_tries (old_snapshot s1) ∧
    new_data s1 = Some d ∧ new_mime_type s1 = m.
Proof.
  intros E Hexc Hload E0 Hok.
  destruct (load_inv _ _ _ _ _ E Hload) as (s0' & E0' & _ & Hexc0 & _ & Htries).
  rewrite E0 in E0'. injection E0' as <-. specialize (Htries _ eq_refl).
  destruct (process_try_loaded _ _ headless _ _ Hload E0)
    as (w1 & s1 & Hrun & E1 & _ & Hexc1 & Htries1 & Hold1 & _ & Hnew).
  rewrite Hok in Hrun. destruct (Hnew _ _ _ Hok) as (Hd & _ & Hm).
  exists w1, s1. split_and!; [|done|congruence|congruence|done|done].
  rewrite (process_run _ _ _ _ E Hexc).
  erewrite bind_Return; [reflexivity|].
  apply try_except_Return. by apply try_except_Return.
Qed.

(** C1. When the retrieval or a filter raises [e], the job's [format_error]
    returns [tb], its [ignore_error] returns a falsy value and [e] is not a
    [NotModifiedError], [process] returns [self] with [tries] equal to
    [old_snapshot.tries + 1] (the snapshot being the one [load] fetched),
    [exception] set to [e] and [traceback] set to [tb]. *)
Theorem process_error_counts_a_try w self s headless w0 s0 e tb ig :
  heap w !! self = Some (ObjJobState s) → exception s = None →
  load self w = (Return tt, w0) → heap w0 !! self = Some (ObjJobState s0) →
  retrieved_and_filtered self headless s0 w0 = Raise e →
  format_error (job s) e (format_exc e) = Return tb →
  ignore_error (job s) e = Return ig →
  truthy_BoolOrStr ig = false →
  isinstance_NotModifiedError e = false →
  ∃ w2 s2,
    process self headless w = (Return self, w2) ∧
    heap w2 !! self = Some (ObjJobState s2) ∧
    old_snapshot s2 = old_snapshot s0 ∧
    tries s2 = snap_tries (old_snapshot s2) + 1 ∧
    exception s2 = Some e ∧
    traceback s2 = Some tb.
Proof.
  intros E Hexc Hload E0 Hfail Hfmt Hign Hfalsy Hnm.
  destruct (load_inv _ _ _ _ _ E Hload) as (s0' & E0' & Hjob0 & _ & _ & Htries).
  rewrite E0 in E0'. injection E0' as <-. specialize (Htries _ eq_refl).
  destruct (process_try_loaded _ _ headless _ _ Hload E0)
    as (w1 & s1 & Hrun & E1 & Hjob1 & _ & Htries1 & Hold1 & _ & _).
  rewrite Hfail in Hrun.
  destruct (process_except_inner_run _ _ _ e E1)
    as (w2 & s2 & Hinner & E2 & _ & _ & Hold2 & Hexc2 & Hhooks).
  assert (Hh : job_hooks (job s1) e = Return (tb, ig)).
  { unfold job_hooks. by rewrite Hjob1, Hjob0, Hfmt, Hign. }
  rewrite Hh in Hinner, Hhooks. destruct Hhooks as (Htb & _ & Htries2).
  rewrite Hfalsy, Hnm in Htries2. simpl in Htries2.
  exists w2, s2. split_and!; [|done|congruence|congruence|done|done].
  rewrite (process_run _ _ _ _ E Hexc).
  erewrite bind_Return; [reflexivity|].
  apply try_except_Return. by rewrite (try_except_Raise _ _ _ _ _ Hrun).
Qed.

(** C2, amended.  When the run raises and a [NotModifiedError] is what a
    layer ends up handling (the inner layer, whose hooks then both return,
    whatever [ignore_error] returns; or the outer layer, the hooks having
    raised it), [tries] is after [process] what it was when the run raised,
    and so, [load] having succeeded, equal to [old_snapshot.tries]; this
    whether [process] returns or, from the outer layer, raises.  The claim
    as stated has no such condition and fails when the run raises a
    [NotModifiedError] and a hook raises another exception: the outer layer
    handles that exception and counts a try. *)
Theorem process_not_modified_keeps_tries w self s headless e w1 :
  heap w !! self = Some (ObjJobState s) → exception s = None →
  process_try self headless w = (Raise e, w1) →
  (isinstance_NotModifiedError e = true ∧
     ∃ tb ig, job_hooks (job s) e = Return (tb, ig)) ∨
  (∃ e', job_hooks (job s) e = Raise e' ∧ isinstance_NotModifiedError e' = true) →
  ∃ s1 s2,
    heap w1 !! self = Some (ObjJobState s1) ∧
    heap (process self headless w).2 !! self = Some (ObjJobState s2) ∧
    tries s2 = tries s1 ∧
    old_snapshot s2 = old_snapshot s1 ∧
    ∀ w0, load self w = (Return tt, w0) → tries s2 = snap_tries (old_snapshot s2).
Proof.
  intros E Hexc Hrun Hcase.
  destruct (process_try_frame _ _ _ _ _ _ E Hrun) as (s1 & E1 & Hjob1 & _ & _ & Hloaded).
  destruct (process_except_inner_run _ _ _ e E1)
    as (w2 & s2 & Hinner & E2 & _ & _ & Hold2 & Hexc2 & Hhooks).
  rewrite Hjob1 in Hinner, Hhooks.
  rewrite (process_run _ _ _ _ E Hexc), bind_run.
  destruct Hcase as [(Hnm & tb & ig & Hh) | (e' & Hh & Hnm)];
    rewrite Hh in Hinner, Hhooks.
  - destruct Hhooks as (_ & _ & Htries2).
    rewrite Hnm, orb_true_r in Htries2.
    erewrite try_except_Return;
      [|by rewrite (try_except_Raise _ _ _ _ _ Hrun)].
    simpl. exists s1, s2. split_and!; [done..|].
    intros w0 Hload. rewrite Htries2, Hold2. by eapply Hloaded.
  - erewrite try_except_Raise;
      [|by rewrite (try_except_Raise _ _ _ _ _ Hrun)].
    destruct (process_except_outer self e' w2) as [r w3] eqn:Houter.
    destruct (process_except_outer_not_modified _ _ _ _ _ _ E2 Hnm Houter)
      as (s3 & E3 & Htries3 & Hold3).
    exists s1, s3. split_and!; [done|by destruct r|congruence|congruence|].
    intros w0 Hload. rewrite Htries3, Hold3, Hhooks, Hold2. by eapply Hloaded.
Qed.

(** C7, as amended. When the inner layer raises [e'] (one of the two hooks
    failed), [PYCHARM_HOSTED] is unset or empty and the outer layer's own call
    to [format_error] returns, [process] returns [self] with [exception] set
    to [e'], [error_ignored] forced to [False] and [tries] one more than it
    was when the run failed, unless [e'] is a [NotModifiedError], in which
    case [tries] is what it was. *)
Theorem process_outer_layer_recovers w self s headless e w1 e' tb' :
  heap w !! self = Some (ObjJobState s) → exception s = None →
  process_try self headless w = (Raise e, w1) →
  job_hooks (job s) e = Raise e' →
  truthy_getenv (environ w !! "PYCHARM_HOSTED") = false →
  format_error (job s) e' (format_exc e') = Return tb' →
  ∃ s1 w2 s2,
    heap w1 !! self = Some (ObjJobState s1) ∧
    process self headless w = (Return self, w2) ∧
    heap w2 !! self = Some (ObjJobState s2) ∧
    exception s2 = Some e' ∧
    error_ignored s2 = Some (IsBool false) ∧
    tries s2 = (if isinstance_NotModifiedError e' then tries s1 else tries s1 + 1).
Proof.
  intros E Hexc Hrun Hh Henv Hfmt.
  destruct (process_try_frame _ _ _ _ _ _ E Hrun) as (s1 & E1 & Hjob1 & _ & Henv1 & _).
  destruct (process_except_inner_run _ _ _ e E1)
    as (w1' & s1' & Hinner & E1' & Hjob1' & Henv1' & _ & _ & Hhooks).
  rewrite Hjob1, Hh in Hinner, Hhooks.
  assert (Henv' : truthy_getenv (environ w1' !! "PYCHARM_HOSTED") = false)
    by (by rewrite Henv1', Henv1).
  assert (Hfmt' : format_error (job s1') e' (format_exc e') = Return tb')
    by (by rewrite Hjob1', Hjob1).
  destruct (process_except_outer_run _ _ _ e' _ E1' Henv' Hfmt')
    as (w2 & s2 & Houter & E2 & Hexc2 & _ & Hign2 & Htries2 & _).
  exists s1, w2, s2. split_and!; [done| |done|done|done|by rewrite Htries2, Hhooks].
  rewrite (process_run _ _ _ _ E Hexc).
  erewrite bind_Return; [reflexivity|].
  erewrite try_except_Raise; [exact Houter|].
  by rewrite (try_except_Raise _ _ _ _ _ Hrun).
Qed.

(** C10. When the inner layer raises [e']: if [PYCHARM_HOSTED] is set and not
    empty, [process] raises [e'] and leaves the state as the inner layer left
    it; if it is unset or empty, [process] is the outer recovery run from
    that state. *)
Theorem process_reraises_when_pycharm_hosted w self s headless e w1 e' :
  heap w !! self = Some (ObjJobState s) → exception s = None →
  process_try self headless w = (Raise e, w1) →
  job_hooks (job s) e = Raise e' →
  ∃ w1',
    process_except_inner self e w1 = (Raise e', w1') ∧
    (truthy_getenv (environ w !! "PYCHARM_HOSTED") = true →
       process self headless w = (Raise e', w1')) ∧
    (truthy_getenv (environ w !! "PYCHARM_HOSTED") = false →
       process self headless w =
         (process_except_outer self e' ≫= λ _, mret self) w1').
Proof.
  intros E Hexc Hrun Hh.
  destruct (process_try_frame _ _ _ _ _ _ E Hrun) as (s1 & E1 & Hjob1 & _ & Henv1 & _).
  destruct (process_except_inner_run _ _ _ e E1)
    as (w1' & s1' & Hinner & E1' & Hjob1' & Henv1' & _ & _ & Hhooks).
  rewrite Hjob1, Hh in Hinner.
  assert (Hbody :
    try_except
      (try_except (process_try self headless) (process_except_inner self))
      (process_except_outer self) w = process_except_outer self e' w1').
  { erewrite try_except_Raise; [reflexivity|].
    by rewrite (try_except_Raise _ _ _ _ _ Hrun). }
  exists w1'. split; [done|]. rewrite (process_run _ _ _ _ E Hexc), !bind_run, Hbody.
  split; [|done].
  intros Henv. rewrite process_except_outer_hosted; [done|].
  by rewrite Henv1', Henv1.
Qed.

(** ** Diff computation and its memoization *)

(** A cache hit. *)
Lemma get_diff_hit w self s g gd report_kind differ tz v :
  heap w !! self = Some (ObjJobState s) →
  generated_diff s = Some g →
  heap w !! g = Some (ObjDict gd) →
  gd !! report_kind = Some v →
  get_diff self report_kind differ tz w = (Return v, w).
Proof.
  intros E Hg Eg Hv. unfold get_diff.
  rewrite (run_getattr _ _ _ _ _ _ _ E Hg), run_is_new_dict.
  rewrite bool_decide_eq_false_2
    by (apply lookup_lt_Some in Eg; lia).
  simpl. rewrite bind_assoc.
  rewrite (run_getattr _ _ _ _ _ _ _ E Hg), bind_assoc, (run_read_dict _ _ _ _ Eg).
  rewrite run_mret, bool_decide_eq_true_2 by (by rewrite Hv).
  rewrite (run_getattr _ _ _ _ _ _ _ E Hg), (run_read_dict _ _ _ _ Eg).
  by apply getitem_run.
Qed.

Lemma keeps_refl rk w : keeps rk w w.
Proof. intros l [] E; eauto. Qed.

Lemma keeps_trans rk w1 w2 w3 : keeps rk w1 w2 → keeps rk w2 w3 → keeps rk w1 w3.
Proof.
  intros H12 H23 l o E. specialize (H12 l o E). destruct o; try (by apply (H23 l _ H12)).
  destruct H12 as (d' & E' & Hd'). destruct (H23 l _ E') as (d'' & E'' & Hd'').
  exists d''. split; [done|]. eauto.
Qed.

Lemma keeps_cached_diff rk w w1 job_state v :
  keeps rk w w1 → cached_diff w job_state rk = Some v →
  cached_diff w1 job_state rk = Some v.
Proof.
  intros Hk. unfold cached_diff.
  destruct (heap w !! job_state) as [[| | |s|]|] eqn:E; try discriminate.
  pose proof (Hk _ _ E) as E1. simpl in E1. rewrite E1.
  destruct (generated_diff s) as [g|]; [|discriminate].
  destruct (heap w !! g) as [[d| | | |]|] eqn:Eg; try discriminate.
  destruct (Hk _ _ Eg) as (d' & -> & Hd'). by apply Hd'.
Qed.

Lemma get_diff_cached w job_state rk differ tz v :
  cached_diff w job_state rk = Some v →
  get_diff job_state rk differ tz w = (Return v, w).
Proof.
  unfold cached_diff.
  destruct (heap w !! job_state) as [[| | |s|]|] eqn:E; try discriminate.
  destruct (generated_diff s) as [g|] eqn:Hg; [|discriminate].
  destruct (heap w !! g) as [[d| | | |]|] eqn:Eg; try discriminate.
  intros Hv. by eapply get_diff_hit.
Qed.

Lemma get_diff_compute_inv w self rk differ tz u0 w' :
  get_diff_compute self rk differ tz w = (Return u0, w') →
  ∃ s u ud r ev,
    heap w !! self = Some (ObjJobState s) ∧
    u = default (JobState_unfiltered_diff w) (unfiltered_diff s) ∧
    heap w !! u = Some (ObjDict ud) ∧
    w' = store u (ObjDict (r ∪ ud)) (set_events (events w ++ [ev]) w).
Proof.
  unfold get_diff_compute.
  intros (s & w1 & [-> E]%read_JobState_inv & Hk)%bind_Return_inv.
  apply bind_Return_inv in Hk as ([kind sub] & w1 & Hn & Hk).
  assert (w1 = w) as -> by (unfold lift in Hn; congruence).
  apply bind_Return_inv in Hk as (u & w1 & [-> (s' & E' & ->)]%getattr_unfiltered_diff_inv & Hk).
  rewrite E in E'. injection E' as <-.
  apply bind_Return_inv in Hk as (ud & w1 & [-> Eu]%read_dict_inv & Hk).
  rewrite run_emit, run_get_world in Hk.
  apply bind_Return_inv in Hk as (r & w1 & Hd & Hk).
  assert (w1 = set_events (events w ++ [DifferProcess kind self rk]) w) as ->
    by (unfold lift in Hd; congruence).
  erewrite run_getattr_unfiltered_diff in Hk by lookup.
  apply update_dict_inv in Hk as (ud' & Eu' & ->).
  simpl in Eu'. rewrite Eu in Eu'. injection Eu' as <-.
  eauto 10.
Qed.

Lemma get_diff_finish_inv w self rk v w' :
  get_diff_finish self rk w = (Return v, w') →
  ∃ s g d,
    heap w !! self = Some (ObjJobState s) ∧ generated_diff s = Some g ∧
    heap w !! g = Some (ObjDict d) ∧
    w' = store g (ObjDict (<[rk := v]> d)) w.
Proof.
  unfold get_diff_finish.
  intros (u & w1 & [-> (s & E & ->)]%getattr_unfiltered_diff_inv & Hk)%bind_Return_inv.
  apply bind_Return_inv in Hk as (ud & w1 & [-> Eu]%read_dict_inv & Hk).
  apply bind_Return_inv in Hk as (x0 & w1 & [-> Hx0]%getitem_inv & Hk).
  apply bind_Return_inv in Hk as (x & w1 & Hf & Hk).
  assert (w1 = w) as ->.
  { destruct (truthy_Data x0).
    - rewrite (run_read _ _ _ _ E), run_for_filters in Hf.
      destruct (filtered _ _ _ _ _); by injection Hf.
    - by injection Hf. }
  apply bind_Return_inv in Hk as (g & w1 & [-> (s' & E' & Hg)]%getattr_inv & Hk).
  rewrite E in E'. injection E' as <-.
  apply bind_Return_inv in Hk as ([] & w1 & (d & Eg & ->)%update_dict_inv & Hk).
  assert (self ≠ g) by (intros ->; congruence).
  assert (E' : heap (store g (ObjDict (<[rk:=x]> d)) w) !! self = Some (ObjJobState s))
    by (simpl; rewrite list_lookup_insert_ne by done; exact E).
  rewrite (run_getattr _ self s "generated_diff" generated_diff g _ E' Hg) in Hk.
  rewrite (run_read_dict _ _ _ _ (heap_store_eq _ _ _ _ Eg)) in Hk.
  apply getitem_inv in Hk as [-> Hv].
  rewrite lookup_insert_eq in Hv. injection Hv as <-.
  eauto 10.
Qed.


Lemma keeps_set_events rk w evs : keeps rk w (set_events evs w).
Proof. exact (keeps_refl rk w). Qed.

(** Writing to a dict that did not have the key keeps every cached entry. *)
Lemma keeps_store_new_key rk w w' l d d' :
  keeps rk w w' → heap w !! l = Some (ObjDict d) → d !! rk = None →
  keeps rk w (store l (ObjDict d') w').
Proof.
  intros Hk El Hd l0 o E0. destruct (decide (l = l0)) as [<-|Hne].
  - rewrite El in E0. injection E0 as <-.
    destruct (Hk _ _ El) as (d1 & E1 & _).
    exists d'. split; [by eapply heap_store_eq|]. intros x. by rewrite Hd.
  - specialize (Hk _ _ E0). destruct o; rewrite heap_store_ne by done; exact Hk.
Qed.

Lemma get_diff_Return w self rk differ tz v w1 :
  get_diff self rk differ tz w = (Return v, w1) →
  keeps rk w w1 ∧ cached_diff w1 self rk = Some v.
Proof.
  unfold get_diff.
  intros (g & w' & [-> (s & E & Hg)]%getattr_inv & Hk)%bind_Return_inv.
  rewrite run_is_new_dict in Hk.
  assert (Hfinish : ∀ w_c, keeps rk w w_c →
    (∃ gd, heap w !! g = Some (ObjDict gd) ∧ gd !! rk = None) →
    get_diff_finish self rk w_c = (Return v, w1) →
    keeps rk w w1 ∧ cached_diff w1 self rk = Some v).
  { intros w_c Hkeep (gd & Eg & Hgd) Hf.
    apply get_diff_finish_inv in Hf as (s' & g' & d_c & E' & Hg' & Eg' & ->).
    pose proof (Hkeep _ _ E) as E''. simpl in E''.
    rewrite E' in E''. injection E'' as ->.
    rewrite Hg in Hg'. injection Hg' as <-.
    split; [by eapply keeps_store_new_key|].
    unfold cached_diff.
    assert (g ≠ self) by (intros ->; congruence).
    rewrite heap_store_ne, E', Hg by done.
    rewrite (heap_store_eq _ _ _ _ Eg'). apply lookup_insert_eq. }
  destruct (bool_decide (g = length (heap w))) eqn:Hsame; simpl in Hk.
  - (* the address of [generated_diff] is not that of a live object *)
    apply bool_decide_eq_true_1 in Hsame.
    rewrite run_mret in Hk. simpl in Hk.
    rewrite (run_getattr _ _ _ _ _ _ _ E Hg), run_is_new_dict in Hk.
    rewrite bool_decide_eq_true_2, run_mret in Hk by done.
    apply bind_Return_inv in Hk as ([] & w_c & Hc & Hf).
    apply get_diff_compute_inv in Hc as (s' & u & ud & r & ev & _ & _ & Eu & ->).
    apply get_diff_finish_inv in Hf as (? & g' & d_c & E' & Hg' & Eg' & _).
    assert (E'' : heap w !! self = Some (ObjJobState x)).
    { simpl in E'. destruct (decide (u = self)) as [->|Hne].
      - rewrite list_lookup_insert_eq in E' by (by eapply lookup_lt_Some). discriminate.
      - by rewrite list_lookup_insert_ne in E'. }
    rewrite E in E''. injection E'' as <-. rewrite Hg in Hg'. injection Hg' as <-.
    apply lookup_lt_Some in Eg'. rewrite length_heap_store in Eg'. simpl in Eg'. lia.
  - apply bool_decide_eq_false_1 in Hsame.
    rewrite bind_assoc, (run_getattr _ _ _ _ _ _ _ E Hg), bind_assoc in Hk.
    apply bind_Return_inv in Hk as (gd & w' & [-> Eg]%read_dict_inv & Hk).
    rewrite run_mret in Hk.
    destruct (gd !! rk) as [x|] eqn:Hgd.
    + (* cache hit *)
      rewrite bool_decide_eq_true_2 in Hk by eauto.
      rewrite (run_getattr _ _ _ _ _ _ _ E Hg), (run_read_dict _ _ _ _ Eg) in Hk.
      apply getitem_inv in Hk as [-> Hv].
      split; [apply keeps_refl|]. unfold cached_diff. by rewrite E, Hg, Eg.
    + rewrite bool_decide_eq_false_2 in Hk by (by intros [? ?]).
      rewrite (run_getattr _ _ _ _ _ _ _ E Hg), run_is_new_dict in Hk.
      rewrite bool_decide_eq_false_2 in Hk by done.
      rewrite bind_assoc, (run_getattr_unfiltered_diff _ _ _ _ E), bind_assoc in Hk.
      apply bind_Return_inv in Hk as (ud & w' & [-> Eu]%read_dict_inv & Hk).
      rewrite run_mret in Hk.
      destruct (ud !! rk) as [y|] eqn:Hud.
      * rewrite bool_decide_eq_true_2 in Hk by eauto. simpl in Hk.
        rewrite run_mret in Hk. eapply Hfinish; [apply keeps_refl|eauto|exact Hk].
      * rewrite bool_decide_eq_false_2 in Hk by (by intros [? ?]). simpl in Hk.
        apply bind_Return_inv in Hk as ([] & w_c & Hc & Hf).
        apply get_diff_compute_inv in Hc as (s' & u & ud' & r & ev & E' & -> & Eu' & ->).
        rewrite E in E'. injection E' as <-. rewrite Eu in Eu'. injection Eu' as <-.
        eapply Hfinish; [|eauto|exact Hf].
        eapply keeps_store_new_key; [apply keeps_set_events|exact Eu|exact Hud].
Qed.

(** C4. Once [get_diff] has returned [v] for a report kind, a second call
    with that report kind, whatever differ and timezone it is given, returns
    [v] again and changes nothing: in particular it adds no call of the
    differ to the calls made. *)
Theorem get_diff_memoized w self report_kind differ tz v w1 differ' tz' :
  get_diff self report_kind differ tz w = (Return v, w1) →
  get_diff self report_kind differ' tz' w1 = (Return v, w1) ∧
  events (get_diff self report_kind differ' tz' w1).2 = events w1.
Proof.
  intros [_ Hc]%get_diff_Return.
  by rewrite (get_diff_cached _ _ _ differ' tz' _ Hc).
Qed.

(** C9. In a state where [self.generated_diff] refers to a live object, the
    test [self.generated_diff is {}] is [False] (so [is not {}] is [True]),
    and [get_diff] is equal, as a computation on that state, to the variant
    whose guards are only [report_kind in self.generated_diff] and
    [report_kind not in self.unfiltered_diff]. *)
Theorem get_diff_identity_tests_are_constant w self report_kind differ tz :
  (∀ s g, heap w !! self = Some (ObjJobState s) → generated_diff s = Some g →
          g < length (heap w))%nat →
  (∀ s g, heap w !! self = Some (ObjJobState s) → generated_diff s = Some g →
          is_new_dict g w = (Return false, w)) ∧
  get_diff self report_kind differ tz w =
  get_diff_simplified self report_kind differ tz w.
Proof.
  intros Hlive. split.
  { intros s g E Hg. unfold is_new_dict.
    rewrite bool_decide_eq_false_2; [done|]. specialize (Hlive _ _ E Hg). lia. }
  unfold get_diff, get_diff_simplified. rewrite !(bind_run (getattr _ _ _)).
  destruct (getattr self "generated_diff" generated_diff w) as [[g|e] w'] eqn:Hattr;
    [|done].
  apply getattr_inv in Hattr as [-> (s & E & Hg)].
  rewrite run_is_new_dict.
  rewrite bool_decide_eq_false_2 by (specialize (Hlive _ _ E Hg); lia).
  simpl. rewrite bind_assoc, (run_getattr _ _ _ _ _ _ _ E Hg), bind_assoc.
  rewrite !(bind_run (read_dict g)).
  destruct (read_dict g w) as [[gd|e] w'] eqn:Hread; [|done].
  apply read_dict_inv in Hread as [-> Eg]. rewrite run_mret.
  destruct (bool_decide (is_Some (gd !! report_kind))); [done|].
  rewrite (run_getattr _ _ _ _ _ _ _ E Hg), run_is_new_dict.
  rewrite bool_decide_eq_false_2 by (specialize (Hlive _ _ E Hg); lia).
  rewrite !bind_assoc. rewrite !(bind_run (getattr_unfiltered_diff self)).
  destruct (getattr_unfiltered_diff self w) as [[u|e] w'] eqn:Hu; [|done].
  apply getattr_unfiltered_diff_inv in Hu as [-> _].
  rewrite !bind_assoc, !(bind_run (read_dict u)).
  destruct (read_dict u w) as [[ud|e] w'] eqn:Hread; [|done].
  apply read_dict_inv in Hread as [-> Eu]. by rewrite run_mret.
Qed.


(** ** Filtering for dispatch *)

Lemma any_display_off_run w self job_state r s v :
  heap w !! self = Some (ObjReport r) →
  heap w !! job_state = Some (ObjJobState s) → verb s = Some v →
  any_display_off self job_state ["unchanged"; "new"; "error"] w =
    (Return (display_off (display (config r)) v), w).
Proof.
  intros Er E Hv. unfold display_off. simpl. run_report.
  destruct (String.eqb v "unchanged"); run_report.
  { destruct (display_unchanged _); simpl; run_report; [|done].
    destruct (String.eqb v "new"); run_report.
    { destruct (display_new _); simpl; run_report; [|done].
      destruct (String.eqb v "error"); run_report; [|done].
      by destruct (display_error _). }
    destruct (String.eqb v "error"); run_report; [|done].
    by destruct (display_error _). }
  destruct (String.eqb v "new"); run_report.
  { destruct (display_new _); simpl; run_report; [|done].
    destruct (String.eqb v "error"); run_report; [|done].
    by destruct (display_error _). }
  destruct (String.eqb v "error"); run_report; [|done].
  by destruct (display_error _).
Qed.

Lemma get_filtered_job_states_cons self job_state rest :
  get_filtered_job_states self (job_state :: rest) =
  (off ← any_display_off self job_state ["unchanged"; "new"; "error"];
   reported ←
     (if negb off then
        jv ← getattr job_state "verb" verb;
        mret (negb (String.eqb jv "changed,no_report"))
      else mret false : M bool);
   if reported : bool then
     jv ← getattr job_state "verb" verb;
     skip ←
       (if String.eqb jv "changed" then
          r ← read_Report self;
          shown ← display_getitem (display (config r)) "empty-diff";
          if negb shown then
            r ← read_Report self;
            d ← get_diff job_state "text" None (tz r);
            mret (bool_decide (d = Str ""))
          else mret false
        else mret false : M bool);
     if skip : bool then get_filtered_job_states self rest
     else
       ys ← get_filtered_job_states self rest;
       mret (job_state :: ys)
   else get_filtered_job_states self rest).
Proof. reflexivity. Qed.

(** C5. When the generator runs to its end, what it yields is, in the order
    of the list, exactly the job states that are [reportable] when the
    generator reaches them: the verb is not [changed,no_report]; it is not
    one of unchanged, new, error with its display flag off; and it is not
    [changed] with the empty-diff flag off and an empty diff.  The diff is
    read only for a [changed] job state with the empty-diff flag off, and it
    is the one that [get_diff] computes at that moment for the text report,
    with no differ given and with the report's timezone; the state in which
    the next job state is judged, and the state at the end, are those that
    these calls leave. *)
Theorem get_filtered_job_states_yields w self r job_states' ys w1 :
  heap w !! self = Some (ObjReport r) →
  get_filtered_job_states self job_states' w = (Return ys, w1) →
  selected r w job_states' = (ys, w1).
Proof.
  intros Er. revert w ys Er.
  induction job_states' as [|job_state rest IH]; intros w ys Er Hrun.
  { by injection Hrun as <- <-. }
  rewrite get_filtered_job_states_cons in Hrun.
  apply bind_Return_inv in Hrun as (off & w' & Hoff & Hrun).
  assert (∃ s v, heap w !! job_state = Some (ObjJobState s) ∧ verb s = Some v)
    as (s & v & E & Hv).
  { pose proof Hoff as Hoff'. simpl in Hoff'.
    apply bind_Return_inv in Hoff' as (v & ? & [-> (s & E & Hv)]%getattr_inv & _).
    eauto. }
  rewrite (any_display_off_run _ _ _ _ _ _ Er E Hv) in Hoff.
  injection Hoff as <- <-.
  assert (Hverb : verb_of w job_state = Some v) by (unfold verb_of; by rewrite E).
  cbn [selected]. unfold asks_for_diff, reportable. rewrite Hverb.
  destruct (display_off (display (config r)) v) eqn:Hoff; simpl in Hrun.
  { rewrite run_mret in Hrun.
    assert (String.eqb v "changed" = false) as Hch.
    { apply String.eqb_neq. intros ->. by vm_compute in Hoff. }
    rewrite Hch. simpl. rewrite (IH _ _ Er Hrun). by rewrite andb_false_r. }
  rewrite bind_assoc, (run_getattr _ _ _ _ _ _ _ E Hv), run_mret in Hrun.
  destruct (String.eqb v "changed,no_report") eqn:Hcnr; simpl in Hrun.
  { assert (String.eqb v "changed" = false) as Hch.
    { apply String.eqb_neq. intros ->. discriminate Hcnr. }
    rewrite Hch. simpl. by rewrite (IH _ _ Er Hrun). }
  rewrite (run_getattr _ _ _ _ _ _ _ E Hv) in Hrun.
  destruct (String.eqb v "changed") eqn:Hch.
  - rewrite !bind_assoc, (run_read_Report _ _ _ _ Er), bind_assoc in Hrun.
    rewrite display_getitem_empty_diff, run_mret in Hrun.
    destruct (display_empty_diff (display (config r))) eqn:Hed; simpl in Hrun.
    + rewrite run_mret in Hrun.
      apply bind_Return_inv in Hrun as (ys' & w' & Hrun & [= <- ->]).
      simpl. by rewrite (IH _ _ Er Hrun).
    + (* the diff is computed here, in the state [w] *)
      rewrite !bind_assoc, (run_read_Report _ _ _ _ Er), bind_assoc in Hrun.
      apply bind_Return_inv in Hrun as (d & w_h & Hd & Hrun).
      pose proof (get_diff_Return _ _ _ _ _ _ _ Hd) as [Hk _].
      pose proof (Hk _ _ Er) as Er'. simpl in Er'.
      rewrite run_mret in Hrun. simpl. unfold diff_is_empty. rewrite Hd. simpl.
      destruct (bool_decide (d = Str "")).
      * simpl. by rewrite (IH _ _ Er' Hrun).
      * apply bind_Return_inv in Hrun as (ys' & w' & Hrun & [= <- ->]).
        simpl. by rewrite (IH _ _ Er' Hrun).
  - rewrite run_mret in Hrun.
    apply bind_Return_inv in Hrun as (ys' & w' & Hrun & [= <- ->]).
    simpl. by rewrite (IH _ _ Er Hrun).
Qed.

(** ** Instances and their containers *)

Lemma JobState_init_run w db j :
  JobState_init db j w =
    (Return (length (heap w)),
     set_heap
       (heap w ++ [ObjJobState (constructed db j (length (heap w))); ObjDict ∅; ObjDict ∅])
       w).
Proof.
  unfold JobState_init, constructed. rewrite run_alloc, run_alloc.
  cbn [heap set_heap].
  rewrite <- (assoc_L (++) (heap w)). cbn [app].
  erewrite run_update by (cbn [heap set_heap]; by apply list_lookup_middle).
  unfold store. cbn [heap set_heap]. rewrite insert_at_length, run_alloc.
  cbn [heap set_heap].
  rewrite <- (assoc_L (++) (heap w)). cbn [app].
  erewrite run_update by (cbn [heap set_heap]; by apply list_lookup_middle).
  unfold store. cbn [heap set_heap]. rewrite insert_at_length.
  rewrite !length_app. cbn [length].
  replace (length (heap w) + 1)%nat with (S (length (heap w))) by lia.
  replace (length (heap w) + 2)%nat with (S (S (length (heap w)))) by lia.
  reflexivity.
Qed.

Lemma JobState_init_new_dicts w db j a w' :
  JobState_init db j w = (Return a, w') →
  a = length (heap w) ∧
  heap w' !! a = Some (ObjJobState (constructed db j a)) ∧
  heap w' !! S a = Some (ObjDict ∅) ∧
  heap w' !! S (S a) = Some (ObjDict ∅) ∧
  length (heap w') = (a + 3)%nat ∧
  JobState_history_dic_snapshots w' = JobState_history_dic_snapshots w ∧
  ∀ l o, heap w !! l = Some o → heap w' !! l = Some o.
Proof.
  rewrite JobState_init_run. intros [= <- <-]. cbn [heap set_heap].
  split_and!; [done|by apply list_lookup_middle| | | |done|].
  - rewrite (lookup_app_r (heap w)) by lia.
    by replace (S (length (heap w)) - length (heap w))%nat with 1%nat by lia.
  - rewrite (lookup_app_r (heap w)) by lia.
    by replace (S (S (length (heap w))) - length (heap w))%nat with 2%nat by lia.
  - rewrite length_app. simpl. lia.
  - intros l o E. rewrite lookup_app_l; [done|]. by eapply lookup_lt_Some.
Qed.

(** Two job states built one after the other have four different dicts for
    [generated_diff] and [unfiltered_diff], but [history_dic_snapshots] is for
    both the dict bound in the class body. *)
Lemma JobState_init_twice w db1 j1 db2 j2 a w1 b w2 :
  JobState_init db1 j1 w = (Return a, w1) →
  JobState_init db2 j2 w1 = (Return b, w2) →
  heap w2 !! a = Some (ObjJobState (constructed db1 j1 a)) ∧
  heap w2 !! b = Some (ObjJobState (constructed db2 j2 b)) ∧
  (a + 3 ≤ b)%nat ∧
  getattr_history_dic_snapshots a w2 = (Return (JobState_history_dic_snapshots w), w2) ∧
  getattr_history_dic_snapshots b w2 = (Return (JobState_history_dic_snapshots w), w2).
Proof.
  intros (-> & Ea & _ & _ & Hlen & Hh1 & Hkeep1)%JobState_init_new_dicts
         (-> & Eb & _ & _ & _ & Hh2 & Hkeep2)%JobState_init_new_dicts.
  pose proof (Hkeep2 _ _ Ea) as Ea'.
  split_and!; [done|done|lia| |].
  - unfold getattr_history_dic_snapshots.
    rewrite (run_read _ _ _ _ Ea'), run_get_world. unfold mret, M_ret. simpl.
    by rewrite Hh2, Hh1.
  - unfold getattr_history_dic_snapshots.
    rewrite (run_read _ _ _ _ Eb), run_get_world. unfold mret, M_ret. simpl.
    by rewrite Hh2, Hh1.
Qed.

Lemma Report_init_twice w cfg1 cfg2 r1 w1 r2 w2 :
  Report_init cfg1 w = (Return r1, w1) →
  Report_init cfg2 w1 = (Return r2, w2) →
  r1 ≠ r2 ∧
  getattr_job_states r1 w2 = (Return (Report_job_states w), w2) ∧
  getattr_job_states r2 w2 = (Return (Report_job_states w), w2).
Proof.
  unfold Report_init.
  intros (z1 & w' & Hz1 & [= <- <-])%bind_Return_inv
         (z2 & w'' & Hz2 & [= <- <-])%bind_Return_inv.
  assert (w' = w) as ->.
  { destruct (report_tz cfg1) as [[key|]|]; try (by injection Hz1).
    apply bind_Return_inv in Hz1 as (? & ? & Hl & [= _ <-]).
    unfold lift in Hl. congruence. }
  assert (w'' = set_heap (heap w ++ [ObjReport {| config := cfg1; tz := z1; job_states := None |}]) w) as ->.
  { destruct (report_tz cfg2) as [[key|]|]; try (by injection Hz2).
    apply bind_Return_inv in Hz2 as (? & ? & Hl & [= _ <-]).
    unfold lift in Hl. congruence. }
  cbn [heap set_heap]. rewrite length_app. cbn [length].
  split; [lia|]. unfold getattr_job_states. split.
  - erewrite run_read_Report.
    2:{ cbn [heap set_heap]. rewrite lookup_app_l by (rewrite length_app; simpl; lia).
        by apply list_lookup_middle. }
    reflexivity.
  - erewrite run_read_Report.
    2:{ cbn [heap set_heap]. apply list_lookup_middle. rewrite length_app. simpl. lia. }
    reflexivity.
Qed.

(** ** What [process] leaves for [save] *)

Lemma process_try_Return_stamps w self s headless w1 :
  heap w !! self = Some (ObjJobState s) →
  process_try self headless w = (Return tt, w1) →
  ∃ s1, heap w1 !! self = Some (ObjJobState s1) ∧ exception s1 = exception s ∧
        is_Some (new_timestamp s1) ∧ is_Some (new_data s1) ∧ is_Some (new_etag s1).
Proof.
  intros E Hrun. destruct (load self w) as [[[]|e] w0] eqn:Hload.
  - destruct (load_inv _ _ _ _ _ E Hload) as (s0 & E0 & _ & Hexc & _).
    revert Hrun. unfold process_try. rewrite (bind_Return _ _ _ _ _ Hload).
    repeat first [run1 | run_lift]; try discriminate.
    rewrite run_for_filters.
    destruct (filtered _ _ _ _ _) as [[fd fm]|e]; [|discriminate].
    run. intros [= <-]. eexists. split; [lookup|]. simpl. eauto.
  - unfold process_try in Hrun. rewrite (bind_Raise _ _ _ _ _ Hload) in Hrun.
    discriminate.
Qed.

Lemma process_except_inner_stamps w self s e r w' :
  heap w !! self = Some (ObjJobState s) →
  process_except_inner self e w = (r, w') →
  ∃ s', heap w' !! self = Some (ObjJobState s') ∧ exception s' = Some e ∧
        is_Some (new_timestamp s').
Proof.
  intros E. unfold process_except_inner.
  repeat first [run1 | run_lift].
  - destruct (negb _); run.
    + intros [= <- <-]. eexists. split; [lookup|]. simpl. eauto.
    + unfold mret, M_ret. intros [= <- <-]. eexists. split; [lookup|]. simpl. eauto.
  - intros [= <- <-]. eexists. split; [lookup|]. simpl. eauto.
  - intros [= <- <-]. eexists. split; [lookup|]. simpl. eauto.
Qed.

Lemma process_except_outer_Return w self s e w' :
  heap w !! self = Some (ObjJobState s) →
  process_except_outer self e w = (Return tt, w') →
  ∃ s', heap w' !! self = Some (ObjJobState s') ∧ exception s' = Some e ∧
        new_timestamp s' = new_timestamp s.
Proof.
  intros E. unfold process_except_outer. rewrite run_os_getenv.
  destruct (truthy_getenv _); [discriminate|].
  repeat first [run1 | run_lift]; [|discriminate].
  destruct (negb _); run.
  - intros [= <-]. eexists. split; [lookup|]. by simpl.
  - unfold mret, M_ret. intros [= <-]. eexists. split; [lookup|]. by simpl.
Qed.

Lemma current_snapshot_copied_old_data s :
  is_Some (new_timestamp s) → is_Some (current_snapshot (copied_old_data s)).
Proof. intros [t Ht]. unfold current_snapshot. simpl. rewrite Ht. simpl. eauto. Qed.

(** Once [process] has returned, [save(use_old_data=True)] finds all it
    reads; and so does [save()] when no exception was recorded. *)
Lemma process_leaves_saveable w self s headless l w1 :
  heap w !! self = Some (ObjJobState s) →
  process self headless w = (Return l, w1) →
  ∃ s1, heap w1 !! self = Some (ObjJobState s1) ∧
        is_Some (current_snapshot (copied_old_data s1)) ∧
        (exception s1 = None → is_Some (current_snapshot s1)).
Proof.
  intros E. destruct (exception s) as [e0|] eqn:Hexc.
  - unfold process. run. rewrite Hexc. simpl. run. unfold mret, M_ret.
    intros [= <- <-]. eexists. split; [lookup|]. simpl.
    split; [apply current_snapshot_copied_old_data; simpl; eauto|].
    by rewrite Hexc.
  - rewrite (process_run _ _ _ _ E Hexc), bind_run. unfold try_except at 1 2.
    destruct (process_try self headless w) as [[[]|e] w2] eqn:Htry.
    + intros [= <- <-].
      destruct (process_try_Return_stamps _ _ _ _ _ E Htry)
        as (s1 & E1 & _ & Ht & [d Hd] & [g Hg]).
      exists s1. split; [done|]. split; [by apply current_snapshot_copied_old_data|].
      intros _. destruct Ht as [t Ht]. unfold current_snapshot.
      rewrite Hd, Ht, Hg. simpl. eauto.
    + destruct (process_try_frame _ _ _ _ _ _ E Htry) as (s2 & E2 & _).
      destruct (process_except_inner self e w2) as [[[]|e'] w3] eqn:Hinner.
      * intros [= <- <-].
        destruct (process_except_inner_stamps _ _ _ _ _ _ E2 Hinner)
          as (s3 & E3 & Hexc3 & Ht).
        exists s3. split; [done|]. split; [by apply current_snapshot_copied_old_data|].
        by rewrite Hexc3.
      * destruct (process_except_inner_stamps _ _ _ _ _ _ E2 Hinner)
          as (s3 & E3 & _ & Ht).
        destruct (process_except_outer self e' w3) as [[[]|e''] w4] eqn:Houter;
          [|discriminate].
        intros [= <- <-].
        destruct (process_except_outer_Return _ _ _ _ _ E3 Houter)
          as (s4 & E4 & Hexc4 & Ht4).
        exists s4. split; [done|].
        split; [apply current_snapshot_copied_old_data; by rewrite Ht4|].
        by rewrite Hexc4.
Qed.

(** The constructor leaves [generated_diff] referring to a live object. *)
Lemma JobState_init_live w db j a w' s g :
  JobState_init db j w = (Return a, w') →
  heap w' !! a = Some (ObjJobState s) → generated_diff s = Some g →
  (g < length (heap w'))%nat.
Proof.
  intros (-> & Ea & _ & _ & Hlen & _)%JobState_init_new_dicts E Hg.
  rewrite Ea in E. injection E as <-. simpl in Hg. injection Hg as <-. lia.
Qed.

End Properties.

(** * The properties on the concrete collaborators *)

Module Witnesses.

Import Demo.

(** Job 1 succeeds: new content, filtered, and no try counted. *)
Lemma process_success_witness :
  ∃ w1 s1,
    process 3%nat true (world_with_job no_env 1) = (Return 3%nat, w1) ∧
    heap w1 !! 3%nat = Some (ObjJobState s1) ∧
    exception s1 = None ∧
    tries s1 = snap_tries (old_snapshot s1) ∧
    new_data s1 = Some (Str "new content!") ∧ new_mime_type s1 = "text/plain".
Proof.
  apply (process_success (world_with_job no_env 1) 3%nat
           (job_state_at (world_with_job no_env 1) 3%nat) true
           (loaded no_env 1) (job_state_at (loaded no_env 1) 3%nat)
           (Str "new content!") "def" "text/plain");
    vm_compute; reflexivity.
Defined.

(** Job 2 fails with a [ValueError] that is not ignored: a third try. *)
Lemma process_error_counts_a_try_witness :
  ∃ w2 s2,
    process 3%nat true (world_with_job no_env 2) = (Return 3%nat, w2) ∧
    heap w2 !! 3%nat = Some (ObjJobState s2) ∧
    old_snapshot s2 = old_snapshot (job_state_at (loaded no_env 2) 3%nat) ∧
    tries s2 = snap_tries (old_snapshot s2) + 1 ∧
    exception s2 = Some (value_error "no route to host") ∧
    traceback s2 = Some "Traceback: no route to host".
Proof.
  apply (process_error_counts_a_try (world_with_job no_env 2) 3%nat
           (job_state_at (world_with_job no_env 2) 3%nat) true
           (loaded no_env 2) (job_state_at (loaded no_env 2) 3%nat)
           (value_error "no route to host") "Traceback: no route to host"
           (IsBool false));
    vm_compute; reflexivity.
Defined.

(** Job 3 gets "not modified" from the retrieval. *)
Lemma process_not_modified_keeps_tries_witness :
  ∃ s1 s2,
    heap (process_try 3%nat true (world_with_job no_env 3)).2 !! 3%nat
      = Some (ObjJobState s1) ∧
    heap (process 3%nat true (world_with_job no_env 3)).2 !! 3%nat
      = Some (ObjJobState s2) ∧
    tries s2 = tries s1 ∧
    old_snapshot s2 = old_snapshot s1 ∧
    ∀ w0, load 3%nat (world_with_job no_env 3) = (Return tt, w0) →
          tries s2 = snap_tries (old_snapshot s2).
Proof.
  apply (process_not_modified_keeps_tries (world_with_job no_env 3) 3%nat
           (job_state_at (world_with_job no_env 3) 3%nat) true not_modified
           (process_try 3%nat true (world_with_job no_env 3)).2);
    try (vm_compute; reflexivity).
  left. split; [reflexivity|]. exists "Traceback: 304", (IsBool false).
  vm_compute; reflexivity.
Defined.

(** Job 4: the [ignore_error] hook fails; no [PYCHARM_HOSTED]. *)
Lemma process_outer_layer_recovers_witness :
  ∃ s1 w2 s2,
    heap (process_try 3%nat true (world_with_job no_env 4)).2 !! 3%nat
      = Some (ObjJobState s1) ∧
    process 3%nat true (world_with_job no_env 4) = (Return 3%nat, w2) ∧
    heap w2 !! 3%nat = Some (ObjJobState s2) ∧
    exception s2 = Some (type_error "ignore_error") ∧
    error_ignored s2 = Some (IsBool false) ∧
    tries s2 =
      (if isinstance_NotModifiedError (type_error "ignore_error")
       then tries s1 else tries s1 + 1).
Proof.
  apply (process_outer_layer_recovers (world_with_job no_env 4) 3%nat
           (job_state_at (world_with_job no_env 4) 3%nat) true
           (value_error "no route to host")
           (process_try 3%nat true (world_with_job no_env 4)).2
           (type_error "ignore_error") "Traceback: ignore_error");
    vm_compute; reflexivity.
Defined.

(** Job 4 again, under [PYCHARM_HOSTED=1]. *)
Lemma process_reraises_when_pycharm_hosted_witness :
  ∃ w1',
    process_except_inner 3%nat (value_error "no route to host")
      (process_try 3%nat true (world_with_job pycharm_env 4)).2
      = (Raise (type_error "ignore_error"), w1') ∧
    (truthy_getenv (environ (world_with_job pycharm_env 4) !! "PYCHARM_HOSTED") = true →
       process 3%nat true (world_with_job pycharm_env 4)
         = (Raise (type_error "ignore_error"), w1')) ∧
    (truthy_getenv (environ (world_with_job pycharm_env 4) !! "PYCHARM_HOSTED") = false →
       process 3%nat true (world_with_job pycharm_env 4) =
         (process_except_outer 3%nat (type_error "ignore_error") ≫= λ _, mret 3%nat) w1').
Proof.
  apply (process_reraises_when_pycharm_hosted (world_with_job pycharm_env 4) 3%nat
           (job_state_at (world_with_job pycharm_env 4) 3%nat) true
           (value_error "no route to host")
           (process_try 3%nat true (world_with_job pycharm_env 4)).2
           (type_error "ignore_error"));
    vm_compute; reflexivity.
Defined.

(** After job 1 was processed, the text diff is asked for twice. *)
Lemma get_diff_memoized_witness :
  get_diff 3%nat "text" (Some [("unified", "")]) (Some "Etc/UTC")
    (get_diff 3%nat "text" None None (processed no_env 1)).2
    = (Return (Str "-old +new"), (get_diff 3%nat "text" None None (processed no_env 1)).2) ∧
  events
    (get_diff 3%nat "text" (Some [("unified", "")]) (Some "Etc/UTC")
       (get_diff 3%nat "text" None None (processed no_env 1)).2).2
    = events (get_diff 3%nat "text" None None (processed no_env 1)).2.
Proof.
  apply (get_diff_memoized (processed no_env 1) 3%nat "text" None None
           (Str "-old +new")).
  vm_compute; reflexivity.
Defined.

(** The job state of job 1, once processed, asked for its html diff. *)
Lemma get_diff_identity_tests_are_constant_witness :
  (∀ s g, heap (processed no_env 1) !! 3%nat = Some (ObjJobState s) →
          generated_diff s = Some g →
          is_new_dict g (processed no_env 1) = (Return false, processed no_env 1)) ∧
  get_diff 3%nat "html" None None (processed no_env 1) =
  get_diff_simplified 3%nat "html" None None (processed no_env 1).
Proof.
  apply (get_diff_identity_tests_are_constant (processed no_env 1) 3%nat "html" None None).
  intros s g E Hg. vm_compute in E. injection E as <-.
  vm_compute in Hg. injection Hg as <-. vm_compute. lia.
Defined.

(** The batch: of the six job states, the first, the third and the last are
    to be reported; the diffs of the first two are computed on the way. *)
Lemma get_filtered_job_states_yields_witness :
  selected demo_report batch_world [4; 7; 10; 13; 16; 19]%nat =
    ([4; 10; 19]%nat,
     (get_filtered_job_states 3%nat [4; 7; 10; 13; 16; 19]%nat batch_world).2).
Proof.
  apply (get_filtered_job_states_yields batch_world 3%nat demo_report
           [4; 7; 10; 13; 16; 19]%nat [4; 10; 19]%nat
           (get_filtered_job_states 3%nat [4; 7; 10; 13; 16; 19]%nat batch_world).2);
    vm_compute; reflexivity.
Defined.

(** Job 2 failed, so its old data is saved again, with the count of tries. *)
Lemma save_writes_current_snapshot_witness :
  let s := job_state_at (processed no_env 2) 3%nat in
  let snap :=
    {| data := Str "old content";
       timestamp := wall_clock 1;
       snap_tries := 3; etag := "abc"; mime_type := "text/plain" |} in
  let w' :=
    set_events
      (events (processed no_env 2) ++ [SsdbSave (snapshots_db s) (get_guid (job s)) snap])
      (store 3%nat (ObjJobState (copied_old_data s)) (processed no_env 2)) in
  save 3%nat true (processed no_env 2) =
    (ssdb_save w' (snapshots_db s) (get_guid (job s)) snap, w').
Proof.
  intros s snap.
  apply (save_writes_current_snapshot (processed no_env 2) 3%nat s true snap);
    vm_compute; reflexivity.
Defined.

End Witnesses.

(** * Where the code departs from the claims *)

Module Departures.

Import Demo.

(** C7 as stated fails: job 4's retrieval raises, its [ignore_error] hook
    raises in the inner layer, and under [PYCHARM_HOSTED=1] the outer layer
    raises that exception again: [process] does not return. *)
Lemma process_outer_layer_reraises_under_pycharm :
  (process_try 3%nat true (world_with_job pycharm_env 4)).1
    = Raise (value_error "no route to host") ∧
  job_hooks (the_job 4) (value_error "no route to host")
    = Raise (type_error "ignore_error") ∧
  (process 3%nat true (world_with_job pycharm_env 4)).1
    = Raise (type_error "ignore_error") ∧
  ¬ ∃ w2, process 3%nat true (world_with_job pycharm_env 4) = (Return 3%nat, w2).
Proof.
  split_and!; try (vm_compute; reflexivity).
  intros [w2 Hw2]. apply (f_equal fst) in Hw2. vm_compute in Hw2. discriminate.
Qed.

(** The outer layer also propagates when its own call to [format_error]
    raises: job 5, without [PYCHARM_HOSTED]. *)
Example process_outer_layer_format_error_raises :
  (process 3%nat true (world_with_job no_env 5)).1 = Raise (type_error "format_error").
Proof. vm_compute; reflexivity. Qed.

(** C8 fails on the code: the constructors give each instance new dicts for
    [generated_diff] and [unfiltered_diff] only.  Two job states show the
    same object, the dict at address 0 bound in the class body, as
    [history_dic_snapshots]; and a job state recorded in one report is in
    the [job_states] of another report. *)
Theorem class_level_containers_are_shared :
  (two_job_states (world_at_import no_env)).1 = Return (3, 6, 0, 0)%nat ∧
  (two_reports (world_at_import no_env)).1 = Return (3, 4, [5])%nat.
Proof. split; vm_compute; reflexivity. Qed.

End Departures.

(** * Further properties *)

(** ** Relations kept by every step of a method *)

Section Steps.

Context `{Runtime} `{SsdbStorageOps} `{JobBase} `{FilterBase} `{DifferBase}.
Context (R : relation World) `{!PreOrder R}.

Lemma steps_mret {A} (a : A) : steps R (mret a).
Proof. intros w. simpl. reflexivity. Qed.

Lemma steps_raise {A} e : steps R (raise e : M A).
Proof. intros w. simpl. reflexivity. Qed.

Lemma steps_lift {A} (r : Result A) : steps R (lift r).
Proof. intros w. simpl. reflexivity. Qed.

Lemma steps_get_world : steps R get_world.
Proof. intros w. simpl. reflexivity. Qed.

Lemma steps_os_getenv name : steps R (os_getenv name).
Proof. intros w. simpl. reflexivity. Qed.

Lemma steps_is_new_dict x : steps R (is_new_dict x).
Proof. intros w. simpl. reflexivity. Qed.

Lemma steps_read_JobState self : steps R (read_JobState self).
Proof. intros w. unfold read_JobState. repeat case_match; simpl; reflexivity. Qed.

Lemma steps_read_dict l : steps R (read_dict l).
Proof. intros w. unfold read_dict. repeat case_match; simpl; reflexivity. Qed.

Lemma steps_bind {A B} (m : M A) (f : A → M B) :
  steps R m → (∀ a, steps R (f a)) → steps R (m ≫= f).
Proof.
  intros Hm Hf w. unfold mbind, M_bind. specialize (Hm w).
  destruct (m w) as [[a|e] w'] eqn:E; simpl in *; [|done].
  etrans; [exact Hm|apply Hf].
Qed.

Lemma steps_try_except {A} (m : M A) (h : Exception → M A) :
  steps R m → (∀ e, steps R (h e)) → steps R (try_except m h).
Proof.
  intros Hm Hh w. unfold try_except. specialize (Hm w).
  destruct (m w) as [[a|e] w'] eqn:E; simpl in *; [done|].
  etrans; [exact Hm|apply Hh].
Qed.

Lemma steps_getattr {A} self name (proj : JobState → option A) :
  steps R (getattr self name proj).
Proof.
  apply steps_bind; [apply steps_read_JobState|].
  intros s. destruct (proj s); [apply steps_mret|apply steps_raise].
Qed.

Lemma steps_getitem d key : steps R (getitem d key).
Proof. unfold getitem. destruct (d !! key); [apply steps_mret|apply steps_raise]. Qed.

Lemma steps_getattr_unfiltered_diff self : steps R (getattr_unfiltered_diff self).
Proof.
  apply steps_bind; [apply steps_read_JobState|]. intros s.
  apply steps_bind; [apply steps_get_world|]. intros w. apply steps_mret.
Qed.

Lemma steps_apply_filters self fs d m : steps R (apply_filters self fs d m).
Proof.
  revert d m. induction fs as [|[k sub] fs IH]; intros d m; simpl.
  - apply steps_mret.
  - apply steps_bind; [apply steps_get_world|]. intros w.
    apply steps_bind; [apply steps_lift|]. intros [d' m']. apply IH.
Qed.

Lemma steps_for_filters self it d m : steps R (for_filters self it d m).
Proof.
  apply steps_bind; [apply steps_apply_filters|]. intros r.
  destruct (it.2); [apply steps_raise|apply steps_mret].
Qed.

End Steps.

Section Relations.

Context `{Runtime} `{SsdbStorageOps} `{JobBase} `{FilterBase} `{DifferBase}.

Lemma process_frame_preorder self : PreOrder (process_frame self).
Proof.
  split.
  - intros w. split; [lia|done|by eauto 10|done|done|].
    exists []. by rewrite app_nil_r.
  - intros w1 w2 w3 [] [].
    split.
    + lia.
    + eauto.
    + intros s Hs. destruct (frame_self0 s Hs) as (s1 & Hs1 & ? & ? & ? & ? & ?).
      destruct (frame_self1 s1 Hs1) as (s2 & Hs2 & ? & ? & ? & ? & ?).
      exists s2. split_and!; [done|congruence..].
    + congruence.
    + destruct frame_class0 as (?&?&?), frame_class1 as (?&?&?). split_and!; congruence.
    + destruct frame_events0 as (e1 & E1 & ?), frame_events1 as (e2 & E2 & ?).
      exists (e1 ++ e2)%list. rewrite E2, E1, app_assoc. split; [done|]. by apply Forall_app.
Qed.

Lemma frame_update_JobState self f :
  (∀ s, job (f s) = job s ∧ snapshots_db (f s) = snapshots_db s ∧
        generated_diff (f s) = generated_diff s ∧
        unfiltered_diff (f s) = unfiltered_diff s ∧ verb (f s) = verb s) →
  steps (process_frame self) (update_JobState self f).
Proof.
  intros Hf w. unfold update_JobState.
  destruct (heap w !! self) as [[| | |s|]|] eqn:E; simpl;
    try apply process_frame_preorder.
  split; simpl.
  - by rewrite length_insert.
  - intros l o Hl Hlo. by rewrite list_lookup_insert_ne.
  - intros s' Hs'. exists (f s). rewrite list_lookup_insert_eq by (by eapply lookup_lt_Some).
    assert (s' = s) as -> by congruence. destruct (Hf s) as (?&?&?&?&?). done.
  - done.
  - done.
  - exists []. by rewrite app_nil_r.
Qed.

Lemma frame_emit self ev :
  is_SsdbSave ev = false → steps (process_frame self) (emit ev).
Proof.
  intros Hev w. split; simpl; [lia|done|by eauto 10|done|done|].
  exists [ev]. split; [done|]. by constructor.
Qed.

Lemma frame_time_time self : steps (process_frame self) time_time.
Proof.
  intros w. split; simpl; [lia|done|by eauto 10|done|done|].
  exists []. by rewrite app_nil_r.
Qed.

Lemma frame_alloc self o : steps (process_frame self) (alloc o).
Proof.
  intros w. split; simpl.
  - rewrite length_app. lia.
  - intros l o' _ Hl. rewrite lookup_app_l; [done|by eapply lookup_lt_Some].
  - intros s Hs. exists s. rewrite lookup_app_l; [done|by eapply lookup_lt_Some].
  - done.
  - done.
  - exists []. by rewrite app_nil_r.
Qed.

Lemma keeps_consistent_preorder self : PreOrder (keeps_consistent self).
Proof. split; unfold keeps_consistent; [intros w; eauto|intros w1 w2 w3; eauto]. Qed.

Lemma consistent_update_JobState self f :
  (∀ s, consistent s → consistent (f s)) →
  steps (keeps_consistent self) (update_JobState self f).
Proof.
  intros Hf w. unfold update_JobState.
  destruct (heap w !! self) as [[| | |s|]|] eqn:E; simpl;
    try apply keeps_consistent_preorder.
  intros Hw s1. simpl. rewrite list_lookup_insert_eq by (by eapply lookup_lt_Some).
  intros [= <-]. eauto.
Qed.

Lemma consistent_same_heap {A} self (m : M A) :
  (∀ w, heap (m w).2 = heap w) → steps (keeps_consistent self) m.
Proof. intros Hm w Hw s1. rewrite Hm. apply Hw. Qed.

End Relations.

(** One step of a proof that a method keeps a relation. *)
Ltac preorder :=
  first
    [ apply process_frame_preorder
    | apply keeps_consistent_preorder ].

Ltac steps_pure :=
  first
    [ apply steps_mret | apply steps_raise | apply steps_lift | apply steps_get_world
    | apply steps_os_getenv | apply steps_is_new_dict | apply steps_read_JobState
    | apply steps_read_dict | apply steps_getattr | apply steps_getitem
    | apply steps_getattr_unfiltered_diff | apply steps_for_filters ].

Ltac steps_structure :=
  first
    [ match goal with |- PreOrder _ => preorder end
    | steps_pure
    | apply steps_bind; [preorder| |intros ?]
    | apply steps_try_except; [preorder| |intros ?]
    | match goal with
      | |- steps _ (let '(_, _) := ?x in _) => destruct x
      | |- steps _ (if ?b then _ else _) => destruct b
      | |- steps _ (match ?x with _ => _ end) => destruct x
      end ].

Ltac frame_step :=
  first
    [ apply frame_time_time
    | apply frame_alloc
    | apply frame_emit; reflexivity
    | apply frame_update_JobState; intros ?; done
    | steps_structure ].

Ltac consistent_step :=
  first
    [ apply consistent_same_heap; intros ?; reflexivity
    | apply consistent_update_JobState; intros ? ?; done
    | steps_structure ].

Section MoreProperties.

Context `{Runtime} `{SsdbStorageOps} `{JobBase} `{FilterBase} `{DifferBase}.
Context `{CalledProcess}.

(** ** The context manager *)

(** X1. A [with] statement on a job state never swallows an exception of its
    body: the body runs on the job state itself; when it returns, so does the
    statement, and when it raises, the statement raises, a
    [CalledProcessError] as [SubprocessError] of its stderr, a
    [FileNotFoundError] as [OSError], anything else as it is; the state is
    the one the body left. *)
Theorem with_JobState_never_suppresses {A} (mgr : M loc) (body : loc → M A) w self w0 :
  mgr w = (Return self, w0) →
  match body self w0 with
  | (Return a, w1) => with_JobState mgr body w = (Return (Some a), w1)
  | (Raise e, w1) =>
      with_JobState mgr body w =
        (Raise
           match exc_class e with
           | CalledProcessError => subprocess_error (called_process_stderr e)
           | FileNotFoundError => os_error e
           | _ => e
           end, w1)
  end.
Proof.
  intros Hmgr. unfold with_JobState. rewrite (bind_Return _ _ _ _ _ Hmgr).
  unfold __enter__. rewrite run_mret.
  destruct (body self w0) as [[a|e] w1]; [done|].
  unfold __exit__, isinstance_CalledProcessError, isinstance_FileNotFoundError.
  by destruct (exc_class e).
Qed.

(** ** Loading *)

Lemma read_JobState_bad {B} w self (f : JobState → M B) :
  (∀ s, heap w !! self ≠ Some (ObjJobState s)) →
  (read_JobState self ≫= f) w = (Raise bad_reference, w).
Proof.
  intros Hs. unfold mbind, M_bind, read_JobState.
  destruct (heap w !! self) as [[| | |s|]|] eqn:E; try done. by destruct (Hs s).
Qed.

Lemma load_Raise w self s e :
  heap w !! self = Some (ObjJobState s) →
  ssdb_load (world_at_load s w) (snapshots_db s) (get_guid (job s)) = Raise e →
  load self w = (Raise e, world_at_load s w).
Proof.
  intros E Hload. unfold load, world_at_load in *. run. by run_known.
Qed.

Lemma load_run_without_history w self s snap :
  heap w !! self = Some (ObjJobState s) →
  ssdb_load (world_at_load s w) (snapshots_db s) (get_guid (job s)) = Return snap →
  wants_history (job s) = false →
  load self w =
    (Return tt,
     store self
       (ObjJobState
          (set_old_mime_type (mime_type snap)
             (set_old_etag (etag snap)
                (set_tries (snap_tries snap)
                   (set_old_timestamp (timestamp snap)
                      (set_old_data (data snap) (set_old_snapshot snap s)))))))
       (world_at_load s w)).
Proof.
  intros E Hload Hno. unfold load, wants_history, world_at_load in *. run. run_known. run.
  rewrite store_store.
  destruct (compared_versions (job s)); [|done]. by rewrite Hno.
Qed.

(** X10. When the job asks for no history ([compared_versions] unset, 0 or
    1) and the store returns a snapshot, [load] returns; [old_snapshot] is
    that snapshot and [old_data], [old_timestamp], [tries], [old_etag] and
    [old_mime_type] are its fields; the store is asked once, for the
    snapshot; nothing is allocated, [history_dic_snapshots] and every other
    object are untouched. *)
Theorem load_without_history w self s snap :
  heap w !! self = Some (ObjJobState s) →
  ssdb_load (world_at_load s w) (snapshots_db s) (get_guid (job s)) = Return snap →
  wants_history (job s) = false →
  ∃ w0 s0,
    load self w = (Return tt, w0) ∧
    heap w0 !! self = Some (ObjJobState s0) ∧
    unpacked snap s s0 ∧
    history_dic_snapshots s0 = history_dic_snapshots s ∧
    events w0 = (events w ++ [SsdbLoad (snapshots_db s) (get_guid (job s))])%list ∧
    length (heap w0) = length (heap w) ∧
    ∀ l, l ≠ self → heap w0 !! l = heap w !! l.
Proof.
  intros E Hload Hno. rewrite (load_run_without_history _ _ _ _ E Hload Hno).
  eexists _, _. split; [reflexivity|]. split; [lookup|].
  split; [by repeat split|]. simpl. split_and!; [done|done|by rewrite !length_insert|].
  intros l Hl. by rewrite !list_lookup_insert_ne.
Qed.

(** X11. When the job compares more than one version and the store returns
    the snapshot and then the history, [load] returns, having unpacked the
    snapshot and bound [history_dic_snapshots] of the instance to a new dict
    made of the history; every object that existed, the class-level dict
    among them, is untouched. *)
Theorem load_with_history w self s snap n hist :
  heap w !! self = Some (ObjJobState s) →
  ssdb_load (world_at_load s w) (snapshots_db s) (get_guid (job s)) = Return snap →
  compared_versions (job s) = Some n → n > 1 →
  (∀ w', events w' =
           (events w ++ [SsdbLoad (snapshots_db s) (get_guid (job s));
                         SsdbGetHistorySnapshots (snapshots_db s) (get_guid (job s)) n])%list →
         ssdb_get_history_snapshots w' (snapshots_db s) (get_guid (job s)) n = Return hist) →
  ∃ w0 s0,
    load self w = (Return tt, w0) ∧
    heap w0 !! self = Some (ObjJobState s0) ∧
    unpacked snap s s0 ∧
    history_dic_snapshots s0 = Some (length (heap w)) ∧
    heap w0 !! length (heap w) = Some (ObjHistory (history_dict hist)) ∧
    (∀ l, l ≠ self → l ≠ length (heap w) → heap w0 !! l = heap w !! l).
Proof.
  intros E Hload Hn Hgt Hhist. unfold load, world_at_load in *. run. run_known. run.
  rewrite Hn. rewrite !bool_decide_true by lia. simpl. run.
  erewrite run_lift_Return; [|apply Hhist; simpl; by rewrite <- app_assoc].
  rewrite run_alloc. cbv beta. run.
  eexists _, _. split; [reflexivity|]. split; [lookup|].
  split; [by repeat split|]. simpl. split_and!; [by rewrite !length_insert| |].
  - rewrite list_lookup_insert_ne.
    + apply list_lookup_middle. by rewrite !length_insert.
    + apply lookup_lt_Some in E. lia.
  - intros l Hl Hl'. rewrite list_lookup_insert_ne by done.
    destruct (decide (l < length (heap w))%nat).
    + rewrite lookup_app_l by (by rewrite !length_insert).
      by rewrite !list_lookup_insert_ne.
    + rewrite !lookup_ge_None_2; [done|lia|].
      rewrite length_app, !length_insert. simpl. lia.
Qed.

Lemma history_setitem_keys k v d :
  (history_setitem k v d).*1 = if bool_decide (k ∈ d.*1) then d.*1 else (d.*1 ++ [k])%list.
Proof.
  induction d as [|[k' v'] d IH]; [done|].
  cbn [history_setitem]. rewrite fmap_cons. cbn [fst].
  destruct (decide (k = k')) as [->|Hne]; rewrite fmap_cons; cbn [fst].
  - by rewrite bool_decide_eq_true_2 by (apply elem_of_cons; auto).
  - rewrite IH. destruct (bool_decide (k ∈ d.*1)) eqn:Hk.
    + apply bool_decide_eq_true in Hk.
      rewrite bool_decide_eq_true_2 by (apply elem_of_cons; auto). done.
    + apply bool_decide_eq_false in Hk. rewrite bool_decide_eq_false_2; [done|].
      rewrite elem_of_cons. by intros [?|?].
Qed.

Lemma history_setitem_elem k v d k' v' :
  NoDup d.*1 →
  (k', v') ∈ history_setitem k v d ↔ (k' = k ∧ v' = v) ∨ (k' ≠ k ∧ (k', v') ∈ d).
Proof.
  induction d as [|[k0 v0] d IH]; intros Hnd.
  - simpl. rewrite list_elem_of_singleton. split.
    + intros [= -> ->]. by left.
    + intros [[-> ->]|[_ Hin]]; [done|]. by apply elem_of_nil in Hin.
  - rewrite fmap_cons in Hnd. cbn [fst] in Hnd.
    apply NoDup_cons in Hnd as [Hk0 Hnd]. specialize (IH Hnd).
    cbn [history_setitem].
    destruct (decide (k = k0)) as [->|Hne].
    + rewrite !elem_of_cons. split.
      * intros [[= -> ->]|Hin]; [by left|]. right. split; [|by right].
        intros ->. apply Hk0. apply list_elem_of_fmap. by exists (k0, v').
      * intros [[-> ->]|[Hne [[= -> ->]|Hin]]]; [by left|done|by right].
    + rewrite !elem_of_cons, IH. split.
      * intros [[= -> ->]|[[-> ->]|[? ?]]]; [right; split; [done|by left]|by left|].
        right. split; [done|by right].
      * intros [[-> ->]|[? [[= -> ->]|?]]]; [right; by left|by left|right; by right].
Qed.

Lemma history_dict_snoc l x :
  history_dict (l ++ [x]) = history_setitem (data x) x (history_dict l).
Proof. unfold history_dict. by rewrite fold_left_app. Qed.

(** X12. The dict of the history has one entry for each distinct data, and
    the entry of a data is the last snapshot of the history that has this
    data. *)
Theorem history_dict_last_wins (l : list Snapshot) :
  NoDup (history_dict l).*1 ∧
  ∀ k s, (k, s) ∈ history_dict l ↔ last (filter (λ x, data x = k) l) = Some s.
Proof.
  induction l as [|x l [IHnd IH]] using rev_ind.
  - split; [constructor|]. intros k s. simpl. split; [by intros ?%elem_of_nil|done].
  - rewrite history_dict_snoc. split.
    + rewrite history_setitem_keys. case_bool_decide as Hk; [done|].
      apply NoDup_app. split; [done|]. split; [|apply NoDup_singleton].
      intros k Hin ->%list_elem_of_singleton. done.
    + intros k s. rewrite history_setitem_elem by done.
      rewrite filter_app, filter_cons, filter_nil.
      destruct (decide (data x = k)) as [Hk|Hk].
      * rewrite last_snoc. split.
        -- intros [[-> ->]|[? ?]]; [done|congruence].
        -- intros [= ->]. by left.
      * rewrite app_nil_r, <- IH. split.
        -- intros [[-> ->]|[? ?]]; [done|done].
        -- intros Hin. right. split; [|done]. intros ->. done.
Qed.

(** ** What [process] leaves as it was *)

Lemma frame_load self : steps (process_frame self) (load self).
Proof. unfold load. repeat frame_step. Qed.

Lemma frame_process_try self headless :
  steps (process_frame self) (process_try self headless).
Proof. unfold process_try. repeat frame_step. Qed.

Lemma frame_process_except_inner self e :
  steps (process_frame self) (process_except_inner self e).
Proof. unfold process_except_inner. repeat frame_step. Qed.

Lemma frame_process_except_outer self e :
  steps (process_frame self) (process_except_outer self e).
Proof. unfold process_except_outer. repeat frame_step. Qed.

Lemma frame_process self headless : steps (process_frame self) (process self headless).
Proof.
  unfold process.
  apply steps_bind; [preorder|steps_pure; preorder|intros s].
  destruct (truthy_option (exception s)); [repeat frame_step|].
  apply steps_bind; [preorder| |intros ?; steps_pure; preorder].
  apply steps_try_except; [preorder| |intros ?; apply frame_process_except_outer].
  apply steps_try_except; [preorder| |intros ?; apply frame_process_except_inner].
  apply frame_process_try.
Qed.

Lemma frame_cached_diff self w w1 rk v :
  process_frame self w w1 → cached_diff w self rk = Some v →
  cached_diff w1 self rk = Some v.
Proof.
  intros [] Hc. unfold cached_diff in *.
  destruct (heap w !! self) as [[| | |s|]|] eqn:Es; try done.
  destruct (frame_self0 s eq_refl) as (s1 & -> & _ & _ & -> & _).
  destruct (generated_diff s) as [g|]; [|done].
  destruct (heap w !! g) as [[d| | | |]|] eqn:Eg; try done.
  rewrite (frame_others0 g (ObjDict d)); [done| |done].
  intros ->. congruence.
Qed.

(** X6. A memoized diff outlives a new run: a diff that [get_diff] has
    memoized for a report kind is what [get_diff] returns after [process]
    has run again on the job state, whatever that run retrieved, and the
    differ is not called. *)
Theorem process_keeps_memoized_diff w self headless report_kind differ tz v :
  cached_diff w self report_kind = Some v →
  let w1 := (process self headless w).2 in
  get_diff self report_kind differ tz w1 = (Return v, w1).
Proof.
  intros Hc w1. apply get_diff_cached.
  eapply frame_cached_diff; [apply frame_process|done].
Qed.

(** X2. On a job state that holds an exception [process] calls no
    collaborator: it returns the job state, having assigned the time to
    [new_timestamp] and nothing else. *)
Theorem process_with_pending_exception w self s headless e :
  heap w !! self = Some (ObjJobState s) → exception s = Some e →
  process self headless w =
    (Return self,
     store self (ObjJobState (set_new_timestamp (Some (wall_clock (clock w))) s))
       (set_clock (S (clock w)) w)).
Proof.
  intros E He. unfold process. run. rewrite He. simpl. run. reflexivity.
Qed.

(** X3. When the run raises and [ignore_error] of the job returns a true
    value, [process] returns with the exception, the traceback and the value
    recorded, and [tries] is [old_snapshot.tries]: an ignored error counts no
    try. *)
Theorem process_ignored_error_keeps_tries w self s headless w0 s0 e tb ig :
  heap w !! self = Some (ObjJobState s) → exception s = None →
  load self w = (Return tt, w0) → heap w0 !! self = Some (ObjJobState s0) →
  retrieved_and_filtered self headless s0 w0 = Raise e →
  format_error (job s) e (format_exc e) = Return tb →
  ignore_error (job s) e = Return ig →
  truthy_BoolOrStr ig = true →
  ∃ w2 s2,
    process self headless w = (Return self, w2) ∧
    heap w2 !! self = Some (ObjJobState s2) ∧
    exception s2 = Some e ∧
    traceback s2 = Some tb ∧
    error_ignored s2 = Some ig ∧
    old_snapshot s2 = old_snapshot s0 ∧
    tries s2 = snap_tries (old_snapshot s2).
Proof.
  intros E Hexc Hload E0 Hfail Hfmt Hign Htruthy.
  destruct (load_inv _ _ _ _ _ E Hload) as (s0' & E0' & Hjob0 & _ & _ & Htries).
  rewrite E0 in E0'. injection E0' as <-. specialize (Htries _ eq_refl).
  destruct (process_try_loaded _ _ headless _ _ Hload E0)
    as (w1 & s1 & Hrun & E1 & Hjob1 & _ & Htries1 & Hold1 & _ & _).
  rewrite Hfail in Hrun.
  destruct (process_except_inner_run _ _ _ e E1)
    as (w2 & s2 & Hinner & E2 & _ & _ & Hold2 & Hexc2 & Hhooks).
  assert (Hh : job_hooks (job s1) e = Return (tb, ig)).
  { unfold job_hooks. by rewrite Hjob1, Hjob0, Hfmt, Hign. }
  rewrite Hh in Hinner, Hhooks. destruct Hhooks as (Htb & Hig & Htries2).
  rewrite Htruthy in Htries2. simpl in Htries2.
  exists w2, s2. split_and!; [|done|done|done|done|congruence|congruence].
  rewrite (process_run _ _ _ _ E Hexc).
  erewrite bind_Return; [reflexivity|].
  apply try_except_Return. by rewrite (try_except_Raise _ _ _ _ _ Hrun).
Qed.

(** X4. When [load] of the store raises, [process] does not call
    [retrieve]: it returns with the exception recorded, [old_snapshot] as it
    was, and a try counted on top of the [tries] the job state had (unless
    the error is ignored or is a [NotModifiedError]). *)
Theorem process_load_failure w self s headless e tb ig :
  heap w !! self = Some (ObjJobState s) → exception s = None →
  ssdb_load (world_at_load s w) (snapshots_db s) (get_guid (job s)) = Raise e →
  format_error (job s) e (format_exc e) = Return tb →
  ignore_error (job s) e = Return ig →
  ∃ w2 s2,
    process self headless w = (Return self, w2) ∧
    heap w2 !! self = Some (ObjJobState s2) ∧
    exception s2 = Some e ∧
    old_snapshot s2 = old_snapshot s ∧
    tries s2 =
      (if truthy_BoolOrStr ig || isinstance_NotModifiedError e
       then tries s else tries s + 1) ∧
    events w2 = (events w ++ [SsdbLoad (snapshots_db s) (get_guid (job s))])%list.
Proof.
  intros E Hexc Hload Hfmt Hign.
  pose proof (load_Raise _ _ _ _ E Hload) as Hl.
  assert (Hrun : process_try self headless w = (Raise e, world_at_load s w)).
  { unfold process_try. by rewrite (bind_Raise _ _ _ _ _ Hl). }
  rewrite (process_run _ _ _ _ E Hexc).
  unfold try_except at 1. unfold mbind at 1, M_bind at 1.
  rewrite (try_except_Raise _ _ _ _ _ Hrun).
  unfold process_except_inner, world_at_load. run. run_known. run. run_known. run.
  destruct (truthy_BoolOrStr ig || isinstance_NotModifiedError e); simpl; run;
    eexists _, _; (split; [reflexivity|]); (split; [lookup|]); done.
Qed.

(** ** The attributes copied from the snapshot *)

Lemma consistent_load self : steps (keeps_consistent self) (load self).
Proof.
  intros w.
  destruct (heap w !! self) as [o|] eqn:E.
  2: { intros Hw s1. unfold load.
       rewrite read_JobState_bad by (intros ?; by rewrite E). apply Hw. }
  assert ((∃ s, o = ObjJobState s) ∨ ∀ s, o ≠ ObjJobState s) as [[s ->]|Hno]
    by (destruct o; eauto).
  2: { intros Hw s1. unfold load. rewrite read_JobState_bad; [apply Hw|].
       intros s. rewrite E. intros [= ->]. by apply (Hno s). }
  intros Hw s1. unfold load. run. run_lift.
  - run. destruct (compared_versions (job s)) as [n|].
    + destruct (bool_decide (n ≠ 0) && bool_decide (n > 1)).
      * run. run_lift.
        -- rewrite run_alloc. cbv beta. run. simpl.
           rewrite list_lookup_insert_eq by heap_lt. by intros [= <-].
        -- simpl. rewrite list_lookup_insert_eq by heap_lt. by intros [= <-].
      * simpl. rewrite list_lookup_insert_eq by heap_lt. by intros [= <-].
    + simpl. rewrite list_lookup_insert_eq by heap_lt. by intros [= <-].
  - simpl. apply Hw.
Qed.


(** What [process_try] does after [load] leaves the attributes that [load]
    set. *)
Lemma process_try_after_load self headless :
  ∃ rest : M unit,
    process_try self headless = (load self ≫= λ _, rest) ∧
    steps (keeps_consistent self) rest.
Proof.
  eexists. split; [reflexivity|]. repeat consistent_step.
Qed.

Lemma consistent_process_try self headless :
  steps (keeps_consistent self) (process_try self headless).
Proof.
  destruct (process_try_after_load self headless) as (rest & -> & Hrest).
  apply steps_bind; [preorder|apply consistent_load|intros _; exact Hrest].
Qed.

Lemma consistent_process_except_inner self e :
  steps (keeps_consistent self) (process_except_inner self e).
Proof. unfold process_except_inner. repeat consistent_step. Qed.

Lemma consistent_process_except_outer self e :
  steps (keeps_consistent self) (process_except_outer self e).
Proof. unfold process_except_outer. repeat consistent_step. Qed.

Lemma consistent_process self headless :
  steps (keeps_consistent self) (process self headless).
Proof.
  unfold process.
  apply steps_bind; [preorder|steps_pure; preorder|intros s].
  destruct (truthy_option (exception s)); [repeat consistent_step|].
  apply steps_bind; [preorder| |intros ?; steps_pure; preorder].
  apply steps_try_except; [preorder| |intros ?; apply consistent_process_except_outer].
  apply steps_try_except; [preorder| |intros ?; apply consistent_process_except_inner].
  apply consistent_process_try.
Qed.

(** X7. [process] keeps [old_data], [old_timestamp], [old_etag] and
    [old_mime_type] in step with [old_snapshot]: if they are its fields
    before, as on a new job state, they are its fields after, whatever the
    outcome. *)
Theorem process_keeps_old_attributes_consistent w self s headless :
  heap w !! self = Some (ObjJobState s) → consistent s →
  ∃ s1, heap (process self headless w).2 !! self = Some (ObjJobState s1) ∧
        consistent s1.
Proof.
  intros E Hc.
  destruct (frame_self _ _ _ (frame_process self headless w) s E) as (s1 & E1 & _).
  exists s1. split; [done|].
  apply (consistent_process self headless w); [|done].
  intros s'. rewrite E. by intros [= <-].
Qed.

(** ** Saving *)



Lemma last_saved_app db guid evs ev :
  last_saved db guid (evs ++ [ev]) =
  match ev with
  | SsdbSave db' guid' snapshot =>
      if bool_decide (db' = db ∧ guid' = guid) then Some snapshot
      else last_saved db guid evs
  | _ => last_saved db guid evs
  end.
Proof.
  induction evs as [|ev' evs IH]; simpl.
  - destruct ev; repeat case_bool_decide; done.
  - rewrite IH. destruct ev; repeat case_bool_decide; done.
Qed.

(** X9. What [save] writes is what the next [load] reads back: with a store
    whose [save] returns and whose [load] returns the snapshot last saved
    under the guid, [save] on a job state followed by [load] on a job state
    of the same database and guid gives the latter, as [old_snapshot],
    [old_data], [old_timestamp], [tries], [old_etag] and [old_mime_type],
    the new data, timestamp, tries, ETag and mime type of the former. *)
Theorem save_then_load_round_trip w self s snap other s' :
  (∀ w db guid snapshot, ssdb_save w db guid snapshot = Return tt) →
  (∀ w db guid snapshot,
     last_saved db guid (events w) = Some snapshot →
     ssdb_load w db guid = Return snapshot) →
  heap w !! self = Some (ObjJobState s) →
  current_snapshot s = Some snap →
  heap w !! other = Some (ObjJobState s') →
  snapshots_db s' = snapshots_db s → get_guid (job s') = get_guid (job s) →
  wants_history (job s') = false →
  ∃ w1 w2 s2,
    save self false w = (Return tt, w1) ∧
    load other w1 = (Return tt, w2) ∧
    heap w2 !! other = Some (ObjJobState s2) ∧
    old_snapshot s2 = snap ∧
    old_data s2 = data snap ∧ old_timestamp s2 = timestamp snap ∧
    tries s2 = tries s ∧
    old_etag s2 = etag snap ∧ old_mime_type s2 = mime_type snap.
Proof.
  intros Hsave Hstore E Hsnap E' Hdb Hguid Hno.
  unfold current_snapshot in Hsnap.
  destruct (new_data s) as [d|] eqn:Hd; [|discriminate].
  destruct (new_timestamp s) as [t|] eqn:Ht; [|discriminate].
  destruct (new_etag s) as [e|] eqn:He; [|discriminate].
  simpl in Hsnap. injection Hsnap as <-.
  set (w1 :=
    set_events
      (events w ++
         [SsdbSave (snapshots_db s) (get_guid (job s))
            {| data := d; timestamp := t; snap_tries := tries s; etag := e;
               mime_type := new_mime_type s |}]) w).
  assert (Hs : save self false w = (Return tt, w1)).
  { unfold save. run. rewrite Hsave. reflexivity. }
  assert (E1 : heap w1 !! other = Some (ObjJobState s')) by done.
  exists w1. eexists _, _. split; [exact Hs|].
  erewrite load_run_without_history; [|exact E1| |done].
  - split; [reflexivity|]. split.
    + simpl. apply list_lookup_insert_eq. by eapply lookup_lt_Some.
    + by repeat split.
  - apply Hstore. unfold world_at_load. simpl. rewrite !last_saved_app.
    by rewrite bool_decide_true.
Qed.

(** ** The diff *)

Lemma get_diff_miss w self s g gd u ud rk differ tz :
  heap w !! self = Some (ObjJobState s) →
  generated_diff s = Some g →
  heap w !! g = Some (ObjDict gd) →
  gd !! rk = None →
  u = default (JobState_unfiltered_diff w) (unfiltered_diff s) →
  heap w !! u = Some (ObjDict ud) →
  get_diff self rk differ tz w =
    ((if bool_decide (is_Some (ud !! rk)) then mret tt
      else get_diff_compute self rk differ tz) ≫= λ _, get_diff_finish self rk) w.
Proof.
  intros E Hg Eg Hv -> Eu. unfold get_diff.
  rewrite (run_getattr _ _ _ _ _ _ _ E Hg), run_is_new_dict.
  rewrite bool_decide_eq_false_2 by (apply lookup_lt_Some in Eg; lia).
  simpl. rewrite bind_assoc.
  rewrite (run_getattr _ _ _ _ _ _ _ E Hg), bind_assoc, (run_read_dict _ _ _ _ Eg).
  rewrite run_mret, bool_decide_eq_false_2 by (rewrite Hv; by intros [? ?]).
  rewrite (run_getattr _ _ _ _ _ _ _ E Hg), run_is_new_dict.
  rewrite bool_decide_eq_false_2 by (apply lookup_lt_Some in Eg; lia).
  rewrite !bind_assoc, (run_getattr_unfiltered_diff _ _ _ _ E).
  rewrite bind_assoc, (run_read_dict _ _ _ _ Eu), run_mret.
  by destruct (bool_decide (is_Some (ud !! rk))).
Qed.

Lemma get_diff_finish_run w self s g gd u ud rk v :
  heap w !! self = Some (ObjJobState s) →
  generated_diff s = Some g →
  heap w !! g = Some (ObjDict gd) →
  u = default (JobState_unfiltered_diff w) (unfiltered_diff s) →
  heap w !! u = Some (ObjDict ud) →
  ud !! rk = Some v →
  get_diff_finish self rk w =
    match diff_filtered w self (job s) v with
    | Return d => (Return d, store g (ObjDict (<[rk := d]> gd)) w)
    | Raise e => (Raise e, w)
    end.
Proof.
  intros E Hg Eg -> Eu Hv. unfold get_diff_finish, diff_filtered.
  rewrite (run_getattr_unfiltered_diff _ _ _ _ E), (run_read_dict _ _ _ _ Eu).
  rewrite (bind_Return _ _ _ _ _ (getitem_run _ _ _ _ Hv)).
  assert (Hend : ∀ d,
    (g ← getattr self "generated_diff" generated_diff;
     update_dict g (<[rk := d]>);;
     g ← getattr self "generated_diff" generated_diff;
     gd ← read_dict g;
     getitem gd rk) w = (Return d, store g (ObjDict (<[rk := d]> gd)) w)).
  { intros d.
    assert (g ≠ self) by (intros ->; congruence).
    rewrite (run_getattr _ _ _ _ _ _ _ E Hg), (run_update_dict _ _ _ _ _ Eg).
    erewrite run_getattr; [|simpl; rewrite list_lookup_insert_ne by done; exact E|exact Hg].
    erewrite run_read_dict;
      [|simpl; apply list_lookup_insert_eq; by eapply lookup_lt_Some].
    apply getitem_run. by rewrite lookup_insert_eq. }
  destruct (truthy_Data v).
  - rewrite bind_assoc, (run_read _ _ _ _ E), bind_assoc, run_for_filters.
    destruct (filtered _ _ _ _ _) as [r|e]; [|done].
    rewrite run_mret. apply Hend.
  - rewrite run_mret. apply Hend.
Qed.

Lemma get_diff_finish_missing w self s u ud rk :
  heap w !! self = Some (ObjJobState s) →
  u = default (JobState_unfiltered_diff w) (unfiltered_diff s) →
  heap w !! u = Some (ObjDict ud) →
  ud !! rk = None →
  get_diff_finish self rk w = (Raise (key_error rk), w).
Proof.
  intros E -> Eu Hv. unfold get_diff_finish.
  rewrite (run_getattr_unfiltered_diff _ _ _ _ E), (run_read_dict _ _ _ _ Eu).
  unfold getitem. by rewrite Hv.
Qed.

Lemma get_diff_compute_run w self s u ud rk differ tz differ_kind subdiffer unfiltered :
  heap w !! self = Some (ObjJobState s) →
  u = default (JobState_unfiltered_diff w) (unfiltered_diff s) →
  heap w !! u = Some (ObjDict ud) →
  normalize_differ (differ_or differ (job_differ (job s))) (index_number (job s)) =
    Return (differ_kind, subdiffer) →
  differ_process (world_at_differ self differ_kind rk w) differ_kind subdiffer self rk tz ud =
    Return unfiltered →
  get_diff_compute self rk differ tz w =
    (Return tt, store u (ObjDict (unfiltered ∪ ud)) (world_at_differ self differ_kind rk w)).
Proof.
  intros E -> Eu Hn Hd. unfold get_diff_compute, world_at_differ in *.
  rewrite (run_read _ _ _ _ E). rewrite (run_lift_Return _ _ _ _ Hn).
  rewrite (run_getattr_unfiltered_diff _ _ _ _ E), (run_read_dict _ _ _ _ Eu).
  rewrite run_emit, run_get_world. rewrite (run_lift_Return _ _ _ _ Hd).
  erewrite run_getattr_unfiltered_diff by (simpl; exact E).
  simpl. by rewrite (update_dict_run _ _ ud).
Qed.

(** X13. When [unfiltered_diff] already holds the report kind and
    [generated_diff] does not, [get_diff] does not call the differ: it
    applies the diff_filters to the unfiltered diff it holds (an empty one is
    taken as it is), stores the result in [generated_diff] and returns it; if
    a filter raises, nothing is stored. *)
Theorem get_diff_reuses_unfiltered_diff w self s g gd u ud report_kind differ tz v :
  heap w !! self = Some (ObjJobState s) →
  generated_diff s = Some g →
  heap w !! g = Some (ObjDict gd) →
  gd !! report_kind = None →
  u = default (JobState_unfiltered_diff w) (unfiltered_diff s) →
  heap w !! u = Some (ObjDict ud) →
  ud !! report_kind = Some v →
  get_diff self report_kind differ tz w =
    match diff_filtered w self (job s) v with
    | Return d => (Return d, store g (ObjDict (<[report_kind := d]> gd)) w)
    | Raise e => (Raise e, w)
    end ∧
  events (get_diff self report_kind differ tz w).2 = events w.
Proof.
  intros E Hg Eg Hgd Hu Eu Hv.
  rewrite (get_diff_miss _ _ _ _ _ _ _ _ differ tz E Hg Eg Hgd Hu Eu).
  rewrite bool_decide_eq_true_2 by (by rewrite Hv). rewrite run_mret.
  rewrite (get_diff_finish_run _ _ _ _ _ _ _ _ _ E Hg Eg Hu Eu Hv).
  split; [done|]. by destruct (diff_filtered _ _ _ _).
Qed.

(** X14. When neither dict holds the report kind, [get_diff] calls the
    differ once, with the [unfiltered_diff] it has, merges what the differ
    returns into [unfiltered_diff], applies the diff_filters to the diff of
    the report kind (an empty one is taken as it is), stores the result in
    [generated_diff] and returns it. *)
Theorem get_diff_calls_the_differ_once w self s g gd u ud report_kind differ tz
    differ_kind subdiffer unfiltered v :
  heap w !! self = Some (ObjJobState s) →
  generated_diff s = Some g →
  heap w !! g = Some (ObjDict gd) →
  gd !! report_kind = None →
  u = default (JobState_unfiltered_diff w) (unfiltered_diff s) →
  heap w !! u = Some (ObjDict ud) →
  ud !! report_kind = None →
  g ≠ u →
  normalize_differ (differ_or differ (job_differ (job s))) (index_number (job s)) =
    Return (differ_kind, subdiffer) →
  differ_process (world_at_differ self differ_kind report_kind w)
    differ_kind subdiffer self report_kind tz ud = Return unfiltered →
  unfiltered !! report_kind = Some v →
  let w1 :=
    store u (ObjDict (unfiltered ∪ ud)) (world_at_differ self differ_kind report_kind w) in
  get_diff self report_kind differ tz w =
    match diff_filtered w1 self (job s) v with
    | Return d => (Return d, store g (ObjDict (<[report_kind := d]> gd)) w1)
    | Raise e => (Raise e, w1)
    end.
Proof.
  intros E Hg Eg Hgd Hu Eu Hud Hne Hn Hd Hv w1.
  rewrite (get_diff_miss _ _ _ _ _ _ _ _ differ tz E Hg Eg Hgd Hu Eu).
  rewrite bool_decide_eq_false_2 by (rewrite Hud; by intros [? ?]).
  rewrite (bind_Return _ _ _ _ _
             (get_diff_compute_run _ _ _ _ _ _ _ _ _ _ _ E Hu Eu Hn Hd)).
  assert (u ≠ self) by (intros ->; congruence).
  apply (get_diff_finish_run w1 self s g gd u (unfiltered ∪ ud)).
  - unfold w1. simpl. by rewrite list_lookup_insert_ne.
  - done.
  - unfold w1. simpl. by rewrite list_lookup_insert_ne.
  - done.
  - unfold w1. simpl. apply list_lookup_insert_eq. by eapply lookup_lt_Some.
  - by apply lookup_union_Some_l.
Qed.

(** X15. When the differ returns no diff of the report kind asked for,
    [get_diff] raises [KeyError] of the report kind, after it has merged
    what the differ returned into [unfiltered_diff]; [generated_diff] is
    untouched. *)
Theorem get_diff_missing_kind_raises_KeyError w self s g gd u ud report_kind differ tz
    differ_kind subdiffer unfiltered :
  heap w !! self = Some (ObjJobState s) →
  generated_diff s = Some g →
  heap w !! g = Some (ObjDict gd) →
  gd !! report_kind = None →
  u = default (JobState_unfiltered_diff w) (unfiltered_diff s) →
  heap w !! u = Some (ObjDict ud) →
  ud !! report_kind = None →
  normalize_differ (differ_or differ (job_differ (job s))) (index_number (job s)) =
    Return (differ_kind, subdiffer) →
  differ_process (world_at_differ self differ_kind report_kind w)
    differ_kind subdiffer self report_kind tz ud = Return unfiltered →
  unfiltered !! report_kind = None →
  get_diff self report_kind differ tz w =
    (Raise (key_error report_kind),
     store u (ObjDict (unfiltered ∪ ud)) (world_at_differ self differ_kind report_kind w)).
Proof.
  intros E Hg Eg Hgd Hu Eu Hud Hn Hd Hv.
  rewrite (get_diff_miss _ _ _ _ _ _ _ _ differ tz E Hg Eg Hgd Hu Eu).
  rewrite bool_decide_eq_false_2 by (rewrite Hud; by intros [? ?]).
  rewrite (bind_Return _ _ _ _ _
             (get_diff_compute_run _ _ _ _ _ _ _ _ _ _ _ E Hu Eu Hn Hd)).
  assert (u ≠ self) by (intros ->; congruence).
  apply (get_diff_finish_missing _ self s u (unfiltered ∪ ud)).
  - simpl. by rewrite list_lookup_insert_ne.
  - done.
  - simpl. apply list_lookup_insert_eq. by eapply lookup_lt_Some.
  - by apply lookup_union_None_2.
Qed.

(** ** The report *)

(** X17. When no job state of the list needs its diff (each has a verb, and
    none is [changed] unless empty diffs are displayed),
    [get_filtered_job_states] returns, yields the reportable job states in
    the order of the list, and changes nothing. *)
Theorem get_filtered_job_states_without_diffs w self r job_states' :
  heap w !! self = Some (ObjReport r) →
  Forall (needs_no_diff r w) job_states' →
  get_filtered_job_states self job_states' w =
    (Return (List.filter (reportable r w) job_states'), w).
Proof.
  intros Er. induction 1 as [|job_state rest (v & Hv & Hed) _ IH]; [done|].
  rewrite get_filtered_job_states_cons.
  unfold verb_of in Hv.
  destruct (heap w !! job_state) as [[| | |s|]|] eqn:E; try done.
  rewrite (bind_Return _ _ _ _ _ (any_display_off_run _ _ _ _ _ _ Er E Hv)).
  simpl. unfold reportable at 1, verb_of. rewrite E, Hv.
  destruct (display_off (display (config r)) v) eqn:Hoff; simpl.
  { rewrite run_mret. by rewrite andb_false_r. }
  rewrite bind_assoc, (run_getattr _ _ _ _ _ _ _ E Hv), run_mret.
  destruct (String.eqb v "changed,no_report") eqn:Hcnr; simpl; [done|].
  rewrite (run_getattr _ _ _ _ _ _ _ E Hv).
  destruct (String.eqb v "changed") eqn:Hch; simpl.
  - apply String.eqb_eq in Hch. rewrite (Hed Hch).
    rewrite !bind_assoc, (run_read_Report _ _ _ _ Er), bind_assoc.
    rewrite display_getitem_empty_diff, run_mret. rewrite (Hed Hch). simpl.
    rewrite run_mret. by rewrite (bind_Return _ _ _ _ _ IH).
  - rewrite run_mret. by rewrite (bind_Return _ _ _ _ _ IH).
Qed.

(** X18. On a job state that was never classified (it has no [verb])
    [get_filtered_job_states] raises [AttributeError], before it yields
    anything. *)
Theorem get_filtered_job_states_needs_a_verb w self job_state s rest :
  heap w !! job_state = Some (ObjJobState s) → verb s = None →
  get_filtered_job_states self (job_state :: rest) w =
    (Raise (attribute_error "verb"), w).
Proof.
  intros E Hv. rewrite get_filtered_job_states_cons. simpl.
  unfold getattr. rewrite !bind_assoc, (run_read _ _ _ _ E). by rewrite Hv.
Qed.

(** X19. After [process] has returned, [added_data] returns a dict whose
    keys are among [error_ignored], [exception], [new_data], [new_etag],
    [new_timestamp], in this order; it always has [exception] (with the
    exception recorded, or [None]) and [new_timestamp], and it has
    [new_data] and [new_etag] when no exception is recorded. *)
Theorem added_data_after_process w self s headless l w1 :
  heap w !! self = Some (ObjJobState s) →
  process self headless w = (Return l, w1) →
  ∃ s1 kvs,
    heap w1 !! self = Some (ObjJobState s1) ∧
    added_data self w1 = (Return kvs, w1) ∧
    (kvs.*1 `sublist_of`
       ["error_ignored"; "exception"; "new_data"; "new_etag"; "new_timestamp"]) ∧
    ("exception", OfException (exception s1)) ∈ kvs ∧
    "new_timestamp" ∈ kvs.*1 ∧
    (exception s1 = None → "new_data" ∈ kvs.*1 ∧ "new_etag" ∈ kvs.*1).
Proof.
  intros E Hrun.
  destruct (process_leaves_saveable _ _ _ _ _ _ E Hrun) as (s1 & E1 & Hold & Hnew).
  exists s1. eexists. split; [done|]. unfold added_data.
  rewrite (run_read _ _ _ _ E1). split; [reflexivity|].
  assert (is_Some (new_timestamp s1)) as [t Ht].
  { destruct Hold as [x Hx]. unfold current_snapshot, copied_old_data in Hx. simpl in Hx.
    destruct (new_timestamp s1); [eauto|done]. }
  rewrite Ht. split_and!.
  - destruct (error_ignored s1), (new_data s1), (new_etag s1); simpl;
      repeat first [apply sublist_nil | apply sublist_skip; [] | apply sublist_cons ];
      repeat constructor.
  - destruct (error_ignored s1), (new_data s1), (new_etag s1); simpl;
      repeat first [by apply list_elem_of_here | apply list_elem_of_further].
  - destruct (error_ignored s1), (new_data s1), (new_etag s1); simpl;
      repeat first [by apply list_elem_of_here | apply list_elem_of_further].
  - intros Hn. destruct (Hnew Hn) as [x Hx]. unfold current_snapshot in Hx.
    destruct (new_data s1); [|done]. simpl in Hx. rewrite Ht in Hx. simpl in Hx.
    destruct (new_etag s1); [|done].
    destruct (error_ignored s1); simpl; split;
      repeat first [by apply list_elem_of_here | apply list_elem_of_further].
Qed.

(** ** A caller: testing a job *)

(** X29. [test_job] raises what the run recorded: when [process] on the new
    job state returns with an exception recorded, the [with] block raises
    it, ignored or not (a [CalledProcessError] as [SubprocessError] of its
    stderr, a [FileNotFoundError] as [OSError]); with no exception recorded
    it gives the new data; and in no case is anything saved to the store. *)
Theorem test_job_raises_what_the_run_recorded w cache_storage j headless w1 s1 :
  let self := length (heap w) in
  process self headless (JobState_init cache_storage j w).2 = (Return self, w1) →
  heap w1 !! self = Some (ObjJobState s1) →
  match exception s1 with
  | Some e =>
      test_job_run cache_storage j headless w =
        (Raise
           match exc_class e with
           | CalledProcessError => subprocess_error (called_process_stderr e)
           | FileNotFoundError => os_error e
           | _ => e
           end, w1)
  | None =>
      ∀ d, new_data s1 = Some d →
           test_job_run cache_storage j headless w = (Return (Some d), w1)
  end ∧
  ∃ evs, events w1 = (events w ++ evs)%list ∧
         Forall (λ ev, is_SsdbSave ev = false) evs.
Proof.
  intros self Hrun E1. split.
  - unfold test_job_run, with_JobState.
    rewrite (bind_Return _ _ _ _ _ (JobState_init_run w cache_storage j)).
    unfold __enter__. rewrite run_mret.
    rewrite JobState_init_run in Hrun. simpl in Hrun. fold self.
    rewrite (bind_Return _ _ _ _ _ Hrun), (run_read _ _ _ _ E1).
    destruct (exception s1) as [e|].
    + unfold raise, __exit__, isinstance_CalledProcessError, isinstance_FileNotFoundError.
      by destruct (exc_class e).
    + intros d Hd. by rewrite (getattr_run _ _ _ _ _ _ E1 Hd).
  - pose proof (frame_events _ _ _
                  (frame_process self headless (JobState_init cache_storage j w).2))
      as (evs & Hev & Hno).
    rewrite Hrun in Hev. simpl in Hev. exists evs. split; [|done].
    rewrite Hev. by rewrite JobState_init_run.
Qed.

End MoreProperties.


(** ** Finding a job *)

Section CommandProperties.

Context `{JobFields} `{Builtins}.

Local Open Scope Z_scope.

Lemma getitem_list_nonneg {A} (l : list A) i :
  0 ≤ i → getitem_list l i = l !! Z.to_nat i.
Proof. intros. unfold getitem_list. by rewrite bool_decide_eq_true_2. Qed.

Lemma getitem_list_neg {A} (l : list A) i :
  - Z.of_nat (length l) ≤ i < 0 →
  getitem_list l i = l !! Z.to_nat (Z.of_nat (length l) + i).
Proof.
  intros. unfold getitem_list.
  rewrite bool_decide_eq_false_2 by lia. by rewrite bool_decide_eq_true_2 by lia.
Qed.

Lemma getitem_list_below {A} (l : list A) i :
  i < - Z.of_nat (length l) → getitem_list l i = None.
Proof.
  intros. unfold getitem_list.
  rewrite bool_decide_eq_false_2 by lia. by rewrite bool_decide_eq_false_2 by lia.
Qed.

Lemma _find_job_int jobs i :
  _find_job jobs (IdInt i) =
    if bool_decide (1 ≤ i ≤ Z.of_nat (length jobs)) then jobs !! Z.to_nat (i - 1)
    else if bool_decide (- Z.of_nat (length jobs) ≤ i ≤ -1) then
      jobs !! Z.to_nat (Z.of_nat (length jobs) + i)
    else None.
Proof.
  unfold _find_job. simpl.
  destruct (decide (1 ≤ i ≤ Z.of_nat (length jobs))).
  { rewrite (bool_decide_eq_true_2 (1 ≤ i ≤ _)) by done.
    rewrite !bool_decide_eq_false_2 by lia. apply getitem_list_nonneg. lia. }
  rewrite (bool_decide_eq_false_2 (1 ≤ i ≤ _)) by done.
  destruct (decide (- Z.of_nat (length jobs) ≤ i ≤ -1)).
  { rewrite (bool_decide_eq_true_2 (_ ≤ i ≤ -1)) by done.
    rewrite bool_decide_eq_false_2 by lia. rewrite bool_decide_eq_true_2 by lia.
    apply getitem_list_neg. lia. }
  rewrite (bool_decide_eq_false_2 (_ ≤ i ≤ -1)) by done.
  case_bool_decide; [done|]. case_bool_decide.
  - apply getitem_list_below. lia.
  - rewrite getitem_list_nonneg by lia. apply lookup_ge_None_2. lia.
Qed.

(** X20. With [n] jobs, [_find_job] of an integer [i] is the [i]-th job
    (counted from 1) for [1 ≤ i ≤ n], the [i]-th from the end for
    [-n ≤ i ≤ -1], and [None] for any other integer, 0 among them. *)
Theorem find_job_by_index jobs i :
  _find_job jobs (IdInt i) =
    (if bool_decide (1 ≤ i ≤ Z.of_nat (length jobs)) then jobs !! Z.to_nat (i - 1)
     else if bool_decide (- Z.of_nat (length jobs) ≤ i ≤ -1) then
       jobs !! Z.to_nat (Z.of_nat (length jobs) + i)
     else None) ∧
  (is_Some (_find_job jobs (IdInt i)) ↔
     1 ≤ i ≤ Z.of_nat (length jobs) ∨ - Z.of_nat (length jobs) ≤ i ≤ -1).
Proof.
  split; [apply _find_job_int|]. rewrite _find_job_int.
  repeat case_bool_decide.
  - rewrite lookup_lt_is_Some. split; [by left|lia].
  - rewrite lookup_lt_is_Some. split; [by right|lia].
  - split; [by intros [? ?]|lia].
Qed.

(** X21. [_find_job] of a string that [int] rejects is the first job whose
    location is the string, and [None] when no job has this location. *)
Theorem find_job_by_location jobs s :
  int_of_str s = None →
  match _find_job jobs (IdStr s) with
  | Some job =>
      ∃ k, jobs !! k = Some job ∧ get_location job = s ∧
           ∀ k' job', (k' < k)%nat → jobs !! k' = Some job' → get_location job' ≠ s
  | None => ∀ job, job ∈ jobs → get_location job ≠ s
  end.
Proof.
  intros Hs. unfold _find_job. simpl. rewrite Hs. clear Hs.
  induction jobs as [|job jobs IH]; simpl.
  - intros job Hin. by apply elem_of_nil in Hin.
  - destruct (String.eqb (get_location job) s) eqn:Hloc.
    + apply String.eqb_eq in Hloc. exists 0%nat. split_and!; [done|done|]. lia.
    + apply String.eqb_neq in Hloc.
      destruct (find _ jobs) as [job0|].
      * destruct IH as (k & Hk & Hl & Hfirst). exists (S k). split_and!; [done|done|].
        intros [|k'] job' Hlt; simpl; [by intros [= <-]|]. apply Hfirst. lia.
      * intros job' [->|Hin]%elem_of_cons; [done|by apply IH].
Qed.

(** X22. With [n] jobs and [1 ≤ i ≤ n], [_get_job] of [i] and of
    [i - n - 1] both return the [i]-th job with the defaults applied. *)
Theorem get_job_by_index jobs i job :
  1 ≤ i ≤ Z.of_nat (length jobs) →
  jobs !! Z.to_nat (i - 1) = Some job →
  _get_job jobs (IdInt i) = Returned (with_defaults job) ∧
  _get_job jobs (IdInt (i - Z.of_nat (length jobs) - 1)) = Returned (with_defaults job).
Proof.
  intros Hi Hjob. unfold _get_job. simpl.
  rewrite bool_decide_eq_false_2 by lia. rewrite bool_decide_eq_true_2 by lia.
  replace (Z.of_nat (length jobs) + (i - Z.of_nat (length jobs) - 1) + 1) with i by lia.
  rewrite _find_job_int. rewrite bool_decide_eq_true_2 by lia. by rewrite Hjob.
Qed.

(** X23. A negative index below the range is wrapped a second time: with
    [n] jobs and [-2n-1 ≤ i ≤ -n-2], [_get_job] of [i] does not exit; it
    returns the job at position [2n + i + 1] (counted from 0), the index
    [n + i + 1] it computes being negative again. *)
Theorem get_job_below_range_wraps_again jobs i job :
  - 2 * Z.of_nat (length jobs) - 1 ≤ i ≤ - Z.of_nat (length jobs) - 2 →
  jobs !! Z.to_nat (2 * Z.of_nat (length jobs) + i + 1) = Some job →
  _get_job jobs (IdInt i) = Returned (with_defaults job).
Proof.
  intros Hi Hjob. unfold _get_job. simpl.
  rewrite bool_decide_eq_true_2 by lia.
  rewrite _find_job_int. rewrite bool_decide_eq_false_2 by lia.
  rewrite bool_decide_eq_true_2 by lia.
  replace (Z.of_nat (length jobs) + (Z.of_nat (length jobs) + i + 1))
    with (2 * Z.of_nat (length jobs) + i + 1) by lia.
  by rewrite Hjob.
Qed.

(** X24. With [n] jobs, [_get_job] of 0, of an integer above [n], of
    [-n-1] or of an integer below [-2n-1] prints that the job is not found
    and exits with code 1; for a negative index the number printed is not
    the index given but [n + i + 1]. *)
Theorem get_job_not_found jobs i :
  i = 0 ∨ Z.of_nat (length jobs) < i ∨ i = - Z.of_nat (length jobs) - 1 ∨
    i < - 2 * Z.of_nat (length jobs) - 1 →
  _get_job jobs (IdInt i) =
    SystemExit
      ("Job not found: " ++
         str_of_int (if bool_decide (i < 0) then Z.of_nat (length jobs) + i + 1 else i))
      1.
Proof.
  intros Hi. unfold _get_job. simpl.
  destruct (bool_decide (i < 0)) eqn:Hneg.
  - apply bool_decide_eq_true in Hneg. rewrite _find_job_int.
    rewrite bool_decide_eq_false_2 by lia. by rewrite bool_decide_eq_false_2 by lia.
  - apply bool_decide_eq_false in Hneg. rewrite _find_job_int.
    rewrite bool_decide_eq_false_2 by lia. by rewrite bool_decide_eq_false_2 by lia.
Qed.

(** X25. When every index of a non-empty joblist is in range and the jobs
    are numbered from 1 in the order of the list, the subset that
    [list_error_jobs] runs is made of the jobs that the indices name, as
    [_find_job] resolves them, each once and in the order of the jobs, with
    the defaults applied; the joblist is rewritten with positive indices. *)
Theorem list_error_jobs_subset_selects joblist jobs :
  joblist ≠ [] →
  Forall (λ idx, 1 ≤ idx ≤ Z.of_nat (length jobs) ∨
                 - Z.of_nat (length jobs) ≤ idx ≤ -1) joblist →
  (∀ k job, jobs !! k = Some job → index_number job = Z.of_nat k + 1) →
  ∃ joblist' selected,
    list_error_jobs_subset joblist jobs = Return (joblist', with_defaults <$> selected) ∧
    Forall (λ jn, 1 ≤ jn ≤ Z.of_nat (length jobs)) joblist' ∧
    selected `sublist_of` jobs ∧
    ∀ job, job ∈ selected ↔
           ∃ idx, idx ∈ joblist ∧ _find_job jobs (IdInt idx) = Some job.
Proof.
  intros Hne Hok Hnum. unfold list_error_jobs_subset. cbv zeta.
  destruct joblist as [|jn0 joblist0] eqn:Hjl; [done|]. rewrite <- Hjl in *. clear Hne.
  destruct (find _ joblist) as [idx|] eqn:Hfind.
  { apply find_some in Hfind as [Hin Hout]. apply list_elem_of_In in Hin.
    rewrite Forall_forall in Hok. specialize (Hok _ Hin).
    apply negb_true_iff in Hout. unfold joblist_in_range in Hout.
    apply orb_false_iff in Hout as [H1%bool_decide_eq_false H2%bool_decide_eq_false].
    lia. }
  eexists _, _. split; [reflexivity|]. split_and!.
  - apply Forall_fmap. eapply Forall_impl; [exact Hok|]. intros idx Hidx.
    cbv beta in Hidx. simpl. case_bool_decide; lia.
  - apply sublist_filter.
  - intros job. rewrite list_elem_of_filter, list_elem_of_fmap. split.
    + intros [(idx & Hidx & Hin) [k Hk]%list_elem_of_lookup]. exists idx. split; [done|].
      cbv beta in Hidx.
      rewrite Forall_forall in Hok. specialize (Hok _ Hin).
      pose proof (Hnum _ _ Hk) as Hn. rewrite _find_job_int.
      destruct (decide (idx > 0)) as [Hpos|Hpos].
      * rewrite bool_decide_eq_true_2 in Hidx by done.
        rewrite bool_decide_eq_true_2 by lia.
        replace (Z.to_nat (idx - 1)) with k by lia. done.
      * rewrite bool_decide_eq_false_2 in Hidx by done.
        rewrite bool_decide_eq_false_2 by lia. rewrite bool_decide_eq_true_2 by lia.
        replace (Z.to_nat (Z.of_nat (length jobs) + idx)) with k by lia. done.
    + intros (idx & Hin & Hfound). rewrite _find_job_int in Hfound.
      case_bool_decide as Hpos; [|case_bool_decide as Hneg; [|done]].
      * pose proof (Hnum _ _ Hfound) as Hn. split.
        -- exists idx. split; [|done]. rewrite bool_decide_eq_true_2 by lia. lia.
        -- by eapply list_elem_of_lookup_2.
      * pose proof (Hnum _ _ Hfound) as Hn. split.
        -- exists idx. split; [|done]. rewrite bool_decide_eq_false_2 by lia. lia.
        -- by eapply list_elem_of_lookup_2.
Qed.

(** X26. When an index of the joblist is out of range, 0 among them,
    [list_error_jobs] raises [IndexError] naming an index that is out of
    range and the number of jobs, and selects nothing. *)
Theorem list_error_jobs_subset_out_of_range joblist jobs :
  ¬ Forall (λ idx, joblist_in_range (Z.of_nat (length jobs)) idx = true) joblist →
  ∃ idx,
    idx ∈ joblist ∧
    ¬ (1 ≤ idx ≤ Z.of_nat (length jobs) ∨ - Z.of_nat (length jobs) ≤ idx ≤ -1) ∧
    list_error_jobs_subset joblist jobs =
      Raise (index_error
               ("Job index " ++ str_of_int idx ++ " out of range (found "
                ++ str_of_int (Z.of_nat (length jobs)) ++ " jobs).")).
Proof.
  intros Hbad. unfold list_error_jobs_subset.
  destruct joblist as [|jn joblist]; [by destruct Hbad|].
  destruct (find _ (jn :: joblist)) as [idx|] eqn:Hfind.
  - apply find_some in Hfind as [Hin Hout]. exists idx.
    split; [by apply list_elem_of_In|]. split; [|done].
    apply negb_true_iff in Hout. unfold joblist_in_range in Hout.
    apply orb_false_iff in Hout as [H1%bool_decide_eq_false H2%bool_decide_eq_false].
    lia.
  - destruct Hbad. apply Forall_forall. intros idx Hin.
    apply list_elem_of_In in Hin.
    pose proof (find_none _ _ Hfind idx Hin) as Hok. by apply negb_false_iff in Hok.
Qed.

End CommandProperties.

(** ** The tree of subclasses *)

Section TreeProperties.

Local Open Scope Z_scope.

Lemma TrackSubClasses_nested_ind (P : TrackSubClasses → Prop) :
  (∀ kind subclasses, Forall P subclasses → P (Klass kind subclasses)) →
  ∀ klass, P klass.
Proof.
  intros Hk. fix IH 1. intros [kind subclasses]. apply Hk.
  induction subclasses as [|kls rest IHrest]; constructor; [apply IH|exact IHrest].
Qed.

Lemma str_mul_succ s n : 0 ≤ n → str_mul s (n + 1) = s ++ str_mul s n.
Proof.
  intros Hn. unfold str_mul. rewrite Z2Nat.inj_add by lia.
  by rewrite Nat.add_comm.
Qed.

Lemma append_assoc (s1 s2 s3 : string) : (s1 ++ s2) ++ s3 = s1 ++ (s2 ++ s3).
Proof.
  induction s1 as [|a s1 IH]; [done|].
  change (String a ((s1 ++ s2) ++ s3) = String a (s1 ++ (s2 ++ s3))). by rewrite IH.
Qed.

(** X27. [build_tree] yields one line for each class below the class given,
    in the order parent first, subclasses in their order, and each line ends
    with the [__kind__] of its class. *)
Theorem build_tree_lists_every_descendant klass level :
  Forall2 (λ line kind, ∃ prefix, line = prefix ++ kind)
    (build_tree klass level) (kinds_below klass).
Proof.
  revert level. induction klass as [kind subclasses IH] using TrackSubClasses_nested_ind.
  intros level. cbn [build_tree kinds_below].
  generalize (length subclasses). intros n.
  set (one := 1%nat). generalize 0%nat. subst one.
  induction IH as [|kls rest Hkls _ IHrest]; intros i; [constructor|].
  constructor; [by eexists|]. apply Forall2_app; [apply Hkls|apply IHrest].
Qed.

(** X28. From level 1 on, one level deeper is one more column: the lines of
    [build_tree] at [level + 1] are those at [level], each with one more bar
    and three spaces in front. *)
Theorem build_tree_one_level_deeper klass level :
  1 ≤ level →
  build_tree klass (level + 1) = String.append "│   " <$> build_tree klass level.
Proof.
  revert level. induction klass as [kind subclasses IH] using TrackSubClasses_nested_ind.
  intros level Hlevel. cbn [build_tree].
  generalize (length subclasses). intros n.
  set (one := 1%nat). generalize 0%nat. subst one.
  induction IH as [|kls rest Hkls _ IHrest]; intros i; [done|].
  rewrite fmap_cons, fmap_app. f_equal; [|f_equal].
  - rewrite (bool_decide_eq_false_2 (level + 1 = 0)) by lia.
    rewrite (bool_decide_eq_false_2 (level = 0)) by lia.
    replace (level + 1 - 1) with (level - 1 + 1) by lia.
    rewrite str_mul_succ by lia. by rewrite !append_assoc.
  - apply Hkls. lia.
  - apply IHrest.
Qed.

End TreeProperties.

(** * The further properties on the concrete collaborators *)

Module MoreWitnesses.

Section WithDemo.

#[local] Existing Instance Demo.runtime.
#[local] Existing Instance Demo.ssdb.
#[local] Existing Instance Demo.jobs.
#[local] Existing Instance Demo.filters.
#[local] Existing Instance Demo.differs.
#[local] Existing Instance Demo2.called_process.

(** A body that runs a command that fails. *)
Lemma with_JobState_never_suppresses_witness :
  with_JobState (JobState_init "cache.db" (Demo.the_job 1))
    (λ _, raise Demo2.command_failed : M unit) (world_at_import Demo.no_env) =
    (Raise (subprocess_error "stderr of grep"), Demo.world_with_job Demo.no_env 1).
Proof.
  exact (with_JobState_never_suppresses
           (JobState_init "cache.db" (Demo.the_job 1))
           (λ _, raise Demo2.command_failed : M unit)
           (world_at_import Demo.no_env) 3%nat (Demo.world_with_job Demo.no_env 1)
           eq_refl).
Defined.

(** Job 2 has failed; [process] is called again. *)
Lemma process_with_pending_exception_witness :
  let w := Demo.processed Demo.no_env 2 in
  process 3%nat true w =
    (Return 3%nat,
     store 3%nat
       (ObjJobState
          (set_new_timestamp (Some (wall_clock (clock w))) (Demo.job_state_at w 3%nat)))
       (set_clock (S (clock w)) w)).
Proof.
  apply (process_with_pending_exception (Demo.processed Demo.no_env 2) 3%nat
           (Demo.job_state_at (Demo.processed Demo.no_env 2) 3%nat) true
           (Demo.value_error "no route to host"));
    vm_compute; reflexivity.
Defined.

(** Job 1 has run and its text diff has been made; the job runs again. *)
Lemma process_keeps_memoized_diff_witness :
  let w := (get_diff 3%nat "text" None None (Demo.processed Demo.no_env 1)).2 in
  get_diff 3%nat "text" None None (process 3%nat true w).2 =
    (Return (Str "-old +new"), (process 3%nat true w).2).
Proof.
  apply (process_keeps_memoized_diff
           (get_diff 3%nat "text" None None (Demo.processed Demo.no_env 1)).2
           3%nat true "text" None None (Str "-old +new")).
  vm_compute; reflexivity.
Defined.

(** A new job state, and job 1 run on it. *)
Lemma process_keeps_old_attributes_consistent_witness :
  ∃ s1,
    heap (process 3%nat true (Demo.world_with_job Demo.no_env 1)).2 !! 3%nat =
      Some (ObjJobState s1) ∧
    consistent s1.
Proof.
  apply (process_keeps_old_attributes_consistent (Demo.world_with_job Demo.no_env 1) 3%nat
           (Demo.job_state_at (Demo.world_with_job Demo.no_env 1) 3%nat) true).
  - vm_compute; reflexivity.
  - by repeat split.
Defined.


(** Job 1, which keeps no history. *)
Lemma load_without_history_witness :
  let w := Demo.world_with_job Demo.no_env 1 in
  ∃ w0 s0,
    load 3%nat w = (Return tt, w0) ∧
    heap w0 !! 3%nat = Some (ObjJobState s0) ∧
    unpacked Demo.stored (Demo.job_state_at w 3%nat) s0 ∧
    history_dic_snapshots s0 = None ∧
    events w0 = (events w ++ [SsdbLoad "cache.db" "guid1"])%list ∧
    length (heap w0) = length (heap w) ∧
    ∀ l, l ≠ 3%nat → heap w0 !! l = heap w !! l.
Proof.
  assert (Hload := load_without_history (Demo.world_with_job Demo.no_env 1) 3%nat
           (Demo.job_state_at (Demo.world_with_job Demo.no_env 1) 3%nat) Demo.stored
           eq_refl eq_refl eq_refl).
  vm_compute in Hload |- *. exact Hload.
Defined.

(** A job that compares three versions. *)
Lemma load_with_history_witness :
  let w := (JobState_init "cache.db" Demo2.history_job (world_at_import Demo.no_env)).2 in
  ∃ w0 s0,
    load 3%nat w = (Return tt, w0) ∧
    heap w0 !! 3%nat = Some (ObjJobState s0) ∧
    unpacked Demo.stored (Demo.job_state_at w 3%nat) s0 ∧
    history_dic_snapshots s0 = Some 6%nat ∧
    heap w0 !! 6%nat = Some (ObjHistory [(Str "old content", Demo.stored)]) ∧
    (∀ l, l ≠ 3%nat → l ≠ 6%nat → heap w0 !! l = heap w !! l).
Proof.
  apply (load_with_history
           (JobState_init "cache.db" Demo2.history_job (world_at_import Demo.no_env)).2
           3%nat
           (Demo.job_state_at
              (JobState_init "cache.db" Demo2.history_job (world_at_import Demo.no_env)).2
              3%nat)
           Demo.stored 3 [Demo.stored]);
    vm_compute; reflexivity.
Defined.

(** The text diff of job 1 has been made, which left the html diff in
    [unfiltered_diff]; the html diff is asked for. *)
Lemma get_diff_reuses_unfiltered_diff_witness :
  let w := (get_diff 3%nat "text" None None (Demo.processed Demo.no_env 1)).2 in
  get_diff 3%nat "html" None None w =
    (Return (Str "-old +new"),
     store 4%nat (ObjDict (<["html" := Str "-old +new"]> (Demo2.dict_at w 4%nat))) w) ∧
  events (get_diff 3%nat "html" None None w).2 = events w.
Proof.
  unshelve epose proof
    (get_diff_reuses_unfiltered_diff
       (get_diff 3%nat "text" None None (Demo.processed Demo.no_env 1)).2 3%nat
       (Demo.job_state_at
          (get_diff 3%nat "text" None None (Demo.processed Demo.no_env 1)).2 3%nat)
       4%nat
       (Demo2.dict_at
          (get_diff 3%nat "text" None None (Demo.processed Demo.no_env 1)).2 4%nat)
       5%nat
       (Demo2.dict_at
          (get_diff 3%nat "text" None None (Demo.processed Demo.no_env 1)).2 5%nat)
       "html" None None (Str "-old +new") _ _ _ _ _ _ _) as Hdiff.
  1-7: vm_compute; reflexivity.
  vm_compute in Hdiff |- *. exact Hdiff.
Defined.

(** The first diff of job 1. *)
Lemma get_diff_calls_the_differ_once_witness :
  let w := Demo.processed Demo.no_env 1 in
  let unfiltered : gmap string Data :=
    <["text" := Str "-old +new"]>
      (<["markdown" := Str "-old +new"]> (<["html" := Str "-old +new"]> ∅)) in
  let w1 := store 5%nat (ObjDict (unfiltered ∪ ∅)) (world_at_differ 3%nat "unified" "text" w) in
  get_diff 3%nat "text" None None w =
    (Return (Str "-old +new"),
     store 4%nat (ObjDict (<["text" := Str "-old +new"]> ∅)) w1).
Proof.
  unshelve epose proof
    (get_diff_calls_the_differ_once (Demo.processed Demo.no_env 1) 3%nat
       (Demo.job_state_at (Demo.processed Demo.no_env 1) 3%nat)
       4%nat ∅ 5%nat ∅ "text" None None "unified" []
       (<["text" := Str "-old +new"]>
          (<["markdown" := Str "-old +new"]> (<["html" := Str "-old +new"]> ∅)))
       (Str "-old +new") _ _ _ _ _ _ _ _ _ _ _) as Hdiff.
  1-11: first [discriminate | vm_compute; reflexivity].
  vm_compute in Hdiff |- *. exact Hdiff.
Defined.

(** Job 7 has no verb yet. *)
Lemma get_filtered_job_states_needs_a_verb_witness :
  get_filtered_job_states 0%nat [3%nat] (Demo.world_with_job Demo.no_env 7) =
    (Raise (attribute_error "verb"), Demo.world_with_job Demo.no_env 7).
Proof.
  apply (get_filtered_job_states_needs_a_verb (Demo.world_with_job Demo.no_env 7) 0%nat
           3%nat (Demo.job_state_at (Demo.world_with_job Demo.no_env 7) 3%nat) []);
    vm_compute; reflexivity.
Defined.

(** The batch without its two changed jobs: the error and the custom label
    are reported. *)
Lemma get_filtered_job_states_without_diffs_witness :
  get_filtered_job_states 3%nat [10; 13; 16; 19]%nat Demo.batch_world =
    (Return [10; 19]%nat, Demo.batch_world).
Proof.
  rewrite (get_filtered_job_states_without_diffs Demo.batch_world 3%nat Demo.demo_report
             [10; 13; 16; 19]%nat).
  - vm_compute; reflexivity.
  - vm_compute; reflexivity.
  - repeat constructor.
    + exists "error". split; [vm_compute; reflexivity|discriminate].
    + exists "unchanged". split; [vm_compute; reflexivity|discriminate].
    + exists "changed,no_report". split; [vm_compute; reflexivity|discriminate].
    + exists "test". split; [vm_compute; reflexivity|discriminate].
Defined.

(** Job 1 succeeds: four keys. *)
Lemma added_data_after_process_witness :
  ∃ s1 kvs,
    heap (Demo.processed Demo.no_env 1) !! 3%nat = Some (ObjJobState s1) ∧
    added_data 3%nat (Demo.processed Demo.no_env 1) =
      (Return kvs, Demo.processed Demo.no_env 1) ∧
    (kvs.*1 `sublist_of`
       ["error_ignored"; "exception"; "new_data"; "new_etag"; "new_timestamp"]) ∧
    ("exception", OfException (exception s1)) ∈ kvs ∧
    "new_timestamp" ∈ kvs.*1 ∧
    (exception s1 = None → "new_data" ∈ kvs.*1 ∧ "new_etag" ∈ kvs.*1).
Proof.
  apply (added_data_after_process (Demo.world_with_job Demo.no_env 1) 3%nat
           (Demo.job_state_at (Demo.world_with_job Demo.no_env 1) 3%nat) true 3%nat
           (Demo.processed Demo.no_env 1));
    vm_compute; reflexivity.
Defined.

End WithDemo.

Section WithIgnoringJobs.

#[local] Existing Instance Demo.runtime.
#[local] Existing Instance Demo.ssdb.
#[local] Existing Instance Demo2.jobs_ignoring.
#[local] Existing Instance Demo.filters.
#[local] Existing Instance Demo.differs.
#[local] Existing Instance Demo2.called_process.

(** The connection is reset, and the job ignores connection errors. *)
Lemma process_ignored_error_keeps_tries_witness :
  ∃ w2 s2,
    process 3%nat true (Demo.world_with_job Demo.no_env 1) = (Return 3%nat, w2) ∧
    heap w2 !! 3%nat = Some (ObjJobState s2) ∧
    exception s2 = Some (Demo.value_error "connection reset") ∧
    traceback s2 = Some "Traceback: connection reset" ∧
    error_ignored s2 = Some (IsStr "ignore_connection_errors") ∧
    old_snapshot s2 = Demo.stored ∧
    tries s2 = snap_tries (old_snapshot s2).
Proof.
  unshelve epose proof
    (process_ignored_error_keeps_tries (Demo.world_with_job Demo.no_env 1) 3%nat
       (Demo.job_state_at (Demo.world_with_job Demo.no_env 1) 3%nat) true
       (load 3%nat (Demo.world_with_job Demo.no_env 1)).2
       (Demo.job_state_at (load 3%nat (Demo.world_with_job Demo.no_env 1)).2 3%nat)
       (Demo.value_error "connection reset") "Traceback: connection reset"
       (IsStr "ignore_connection_errors") _ _ _ _ _ _ _ _)
    as (w2 & s2 & Hrun & E2 & He & Htb & Hig & Hold & Htries).
  1-8: vm_compute; reflexivity.
  exists w2, s2. split_and!; [done..| |done]. rewrite Hold. reflexivity.
Defined.

(** The connection is reset; the job ignores the error, the test does not. *)
Lemma test_job_raises_what_the_run_recorded_witness :
  test_job_run "cache.db" (Demo.the_job 1) true (world_at_import Demo.no_env) =
    (Raise (Demo.value_error "connection reset"),
     (process 3%nat true (Demo.world_with_job Demo.no_env 1)).2) ∧
  ∃ evs,
    events (process 3%nat true (Demo.world_with_job Demo.no_env 1)).2 =
      (events (world_at_import Demo.no_env) ++ evs)%list ∧
    Forall (λ ev, is_SsdbSave ev = false) evs.
Proof.
  unshelve epose proof
    (test_job_raises_what_the_run_recorded (world_at_import Demo.no_env) "cache.db"
       (Demo.the_job 1) true (process 3%nat true (Demo.world_with_job Demo.no_env 1)).2
       (Demo.job_state_at (process 3%nat true (Demo.world_with_job Demo.no_env 1)).2 3%nat)
       _ _) as [Hrun Hev].
  1-2: vm_compute; reflexivity.
  split; [|exact Hev]. vm_compute in Hrun |- *. exact Hrun.
Defined.

End WithIgnoringJobs.

Section WithBrokenStore.

#[local] Existing Instance Demo.runtime.
#[local] Existing Instance Demo2.ssdb_broken.
#[local] Existing Instance Demo.jobs.
#[local] Existing Instance Demo.filters.
#[local] Existing Instance Demo.differs.

(** The database cannot be opened: the first try of a new job state. *)
Lemma process_load_failure_witness :
  let w := Demo.world_with_job Demo.no_env 1 in
  ∃ w2 s2,
    process 3%nat true w = (Return 3%nat, w2) ∧
    heap w2 !! 3%nat = Some (ObjJobState s2) ∧
    exception s2 = Some Demo2.database_error ∧
    old_snapshot s2 = old_snapshot (Demo.job_state_at w 3%nat) ∧
    tries s2 = 0 + 1 ∧
    events w2 = (events w ++ [SsdbLoad "cache.db" "guid1"])%list.
Proof.
  unshelve epose proof
    (process_load_failure (Demo.world_with_job Demo.no_env 1) 3%nat
       (Demo.job_state_at (Demo.world_with_job Demo.no_env 1) 3%nat) true
       Demo2.database_error "Traceback: unable to open database file" (IsBool false)
       _ _ _ _ _)
    as (w2 & s2 & Hrun & E2 & He & Hold & Htries & Hev).
  1-5: vm_compute; reflexivity.
  exists w2, s2. split_and!; done.
Defined.

End WithBrokenStore.

Section WithLogStore.

#[local] Existing Instance Demo.runtime.
#[local] Existing Instance Demo2.ssdb_log.
#[local] Existing Instance Demo.jobs.
#[local] Existing Instance Demo.filters.
#[local] Existing Instance Demo.differs.

(** Job 1 is run and saved by one job state (at 3), then loaded by a second
    job state of the same job (at 6). *)
Lemma save_then_load_round_trip_witness :
  let w :=
    (JobState_init "cache.db" (Demo.the_job 1)
       (process 3%nat true (Demo.world_with_job Demo.no_env 1)).2).2 in
  ∃ w1 w2 s2,
    save 3%nat false w = (Return tt, w1) ∧
    load 6%nat w1 = (Return tt, w2) ∧
    heap w2 !! 6%nat = Some (ObjJobState s2) ∧
    Some (old_snapshot s2) = current_snapshot (Demo.job_state_at w 3%nat) ∧
    old_data s2 = Str "new content!" ∧
    tries s2 = tries (Demo.job_state_at w 3%nat) ∧
    old_etag s2 = "def" ∧ old_mime_type s2 = "text/plain".
Proof.
  intros w.
  unshelve epose proof
    (save_then_load_round_trip w 3%nat (Demo.job_state_at w 3%nat)
       (default Demo2.empty_snapshot (current_snapshot (Demo.job_state_at w 3%nat)))
       6%nat (Demo.job_state_at w 6%nat) _ _ _ _ _ _ _ _)
    as (w1 & w2 & s2 & Hsave & Hload & E2 & Hold & Hdata & _ & Htries & Hetag & Hmime).
  - intros. reflexivity.
  - intros w' db guid snapshot Hlast. simpl. by rewrite Hlast.
  - vm_compute; reflexivity.
  - vm_compute; reflexivity.
  - vm_compute; reflexivity.
  - vm_compute; reflexivity.
  - vm_compute; reflexivity.
  - vm_compute; reflexivity.
  - exists w1, w2, s2. split_and!; [done|done|done| |done..].
    rewrite Hold. vm_compute; reflexivity.
Defined.

End WithLogStore.

Section WithTextDiffer.

#[local] Existing Instance Demo.runtime.
#[local] Existing Instance Demo.ssdb.
#[local] Existing Instance Demo.jobs.
#[local] Existing Instance Demo.filters.
#[local] Existing Instance Demo2.differs_text_only.

(** The html diff is asked of a differ that makes text diffs only. *)
Lemma get_diff_missing_kind_raises_KeyError_witness :
  let w := Demo.processed Demo.no_env 1 in
  get_diff 3%nat "html" None None w =
    (Raise (key_error "html"),
     store 5%nat (ObjDict (<["text" := Str "-old +new"]> ∅ ∪ ∅))
       (world_at_differ 3%nat "unified" "html" w)).
Proof.
  unshelve epose proof
    (get_diff_missing_kind_raises_KeyError (Demo.processed Demo.no_env 1) 3%nat
       (Demo.job_state_at (Demo.processed Demo.no_env 1) 3%nat)
       4%nat ∅ 5%nat ∅ "html" None None "unified" []
       (<["text" := Str "-old +new"]> ∅) _ _ _ _ _ _ _ _ _ _) as Hdiff.
  1-10: vm_compute; reflexivity.
  vm_compute in Hdiff |- *. exact Hdiff.
Defined.

End WithTextDiffer.

Section WithCommand.

#[local] Existing Instance Demo2.job_fields.
#[local] Existing Instance Demo2.builtins.

Local Open Scope Z_scope.

(** The second of three jobs, by its location. *)
Lemma find_job_by_location_witness :
  match _find_job Demo2.three_jobs (IdStr "https://example.com/2") with
  | Some job =>
      ∃ k, Demo2.three_jobs !! k = Some job ∧
           get_location job = "https://example.com/2" ∧
           ∀ k' job', (k' < k)%nat → Demo2.three_jobs !! k' = Some job' →
                      get_location job' ≠ "https://example.com/2"
  | None => ∀ job, job ∈ Demo2.three_jobs → get_location job ≠ "https://example.com/2"
  end.
Proof.
  apply (find_job_by_location Demo2.three_jobs "https://example.com/2").
  vm_compute; reflexivity.
Defined.

(** The second of three jobs, as 2 and as -2. *)
Lemma get_job_by_index_witness :
  _get_job Demo2.three_jobs (IdInt 2) = Returned (with_defaults (Demo.the_job 2)) ∧
  _get_job Demo2.three_jobs (IdInt (-2)) = Returned (with_defaults (Demo.the_job 2)).
Proof.
  apply (get_job_by_index Demo2.three_jobs 2 (Demo.the_job 2)).
  - simpl. lia.
  - reflexivity.
Defined.

(** Three jobs, and the index -5: the last job. *)
Lemma get_job_below_range_wraps_again_witness :
  _get_job Demo2.three_jobs (IdInt (-5)) = Returned (with_defaults (Demo.the_job 3)).
Proof.
  apply (get_job_below_range_wraps_again Demo2.three_jobs (-5) (Demo.the_job 3)).
  - simpl. lia.
  - reflexivity.
Defined.

(** Three jobs, and the index -4. *)
Lemma get_job_not_found_witness :
  _get_job Demo2.three_jobs (IdInt (-4)) = SystemExit "Job not found: 0" 1.
Proof.
  apply (get_job_not_found Demo2.three_jobs (-4)). simpl. lia.
Defined.

(** The last and the first of three jobs. *)
Lemma list_error_jobs_subset_selects_witness :
  ∃ joblist' selected,
    list_error_jobs_subset [-1; 1] Demo2.three_jobs =
      Return (joblist', with_defaults <$> selected) ∧
    Forall (λ jn, 1 ≤ jn ≤ Z.of_nat (length Demo2.three_jobs)) joblist' ∧
    selected `sublist_of` Demo2.three_jobs ∧
    ∀ job, job ∈ selected ↔
           ∃ idx, idx ∈ [-1; 1] ∧ _find_job Demo2.three_jobs (IdInt idx) = Some job.
Proof.
  apply (list_error_jobs_subset_selects [-1; 1] Demo2.three_jobs).
  - discriminate.
  - repeat constructor; simpl; lia.
  - intros [|[|[|k]]] job; simpl; intros [= <-]; reflexivity.
Defined.

(** The index 0 in a joblist. *)
Lemma list_error_jobs_subset_out_of_range_witness :
  ∃ idx,
    idx ∈ [2; 0] ∧
    ¬ (1 ≤ idx ≤ Z.of_nat (length Demo2.three_jobs) ∨
       - Z.of_nat (length Demo2.three_jobs) ≤ idx ≤ -1) ∧
    list_error_jobs_subset [2; 0] Demo2.three_jobs =
      Raise (index_error
               ("Job index " ++ str_of_int idx ++ " out of range (found "
                ++ str_of_int (Z.of_nat (length Demo2.three_jobs)) ++ " jobs).")).
Proof.
  apply (list_error_jobs_subset_out_of_range [2; 0] Demo2.three_jobs).
  intros Hall. apply Forall_cons in Hall as [_ Hall].
  apply Forall_cons in Hall as [Hzero _]. discriminate Hzero.
Defined.

(** The classes of jobs, drawn below a root. *)
Lemma build_tree_one_level_deeper_witness :
  build_tree Demo2.job_classes (1 + 1) =
    ["│   ├───url"; "│   │   ├───browser"; "│   │   └───api"; "│   └───command"].
Proof.
  rewrite (build_tree_one_level_deeper Demo2.job_classes 1); [|lia].
  reflexivity.
Defined.

End WithCommand.

End MoreWitnesses.

(** * Where the code departs from the claims, continued *)

Module MoreDepartures.

Section WithFailingHooks.

#[local] Existing Instance Demo.runtime.
#[local] Existing Instance Demo.ssdb.
#[local] Existing Instance Demo2.jobs_hooks_fail.
#[local] Existing Instance Demo.filters.
#[local] Existing Instance Demo.differs.

(** C2 as stated fails: the run of job 1 raises a [NotModifiedError] and its
    [ignore_error] hook raises a [TypeError]; the run of job 2 raises a
    [NotModifiedError] and its [format_error] hook raises a [TypeError] on
    it.  In both cases the outer layer handles the [TypeError], and
    [process] returns with three tries where the snapshot had two. *)
Lemma process_not_modified_counts_a_try_when_a_hook_raises :
  (process_try 3%nat true (Demo.world_with_job Demo.no_env 1)).1
    = Raise Demo.not_modified ∧
  isinstance_NotModifiedError Demo.not_modified = true ∧
  (process 3%nat true (Demo.world_with_job Demo.no_env 1)).1 = Return 3%nat ∧
  snap_tries
    (old_snapshot
       (Demo.job_state_at (process 3%nat true (Demo.world_with_job Demo.no_env 1)).2 3%nat))
    = 2 ∧
  tries (Demo.job_state_at (process 3%nat true (Demo.world_with_job Demo.no_env 1)).2 3%nat)
    = 3 ∧
  (process_try 3%nat true (Demo.world_with_job Demo.no_env 2)).1
    = Raise Demo.not_modified ∧
  (process 3%nat true (Demo.world_with_job Demo.no_env 2)).1 = Return 3%nat ∧
  snap_tries
    (old_snapshot
       (Demo.job_state_at (process 3%nat true (Demo.world_with_job Demo.no_env 2)).2 3%nat))
    = 2 ∧
  tries (Demo.job_state_at (process 3%nat true (Demo.world_with_job Demo.no_env 2)).2 3%nat)
    = 3.
Proof. split_and!; vm_compute; reflexivity. Qed.

End WithFailingHooks.

End MoreDepartures.
